(** * EdgeCloudSim result post-processing scripts

    A shallow embedding of the two computational scripts of the repository:

    - [scripts/tutorial3/python/plotGenericLine.py]: reads one scalar per
      (iteration, scenario, device count) from the simulator's log files,
      averages over the iterations while skipping missing cells, and derives
      95% confidence offsets (module [PlotGenericLine]);
    - [scripts/sample_app5/ai_trainer/data_convertor.py]: loads the learner
      records of the train or test iterations, keeps one decision, balances
      the strata, z-normalises the features and writes an .arff file
      (module [DataConvertor]).

    Numbers.  The scripts compute on IEEE doubles (numpy and pandas).  For
    the statistics a double is a real number or the marker [NaN]; rounding,
    overflow and signed zeros are left out there, and the statements that
    depend on it say so.  The boundary between the train and the test
    iterations decides which files are read; it is computed on binary64
    numbers, rounding included.  A file system is a function from paths to
    parsed contents, and the libraries (numpy, pandas, scipy) are modelled by
    what their calls return. *)

From Stdlib Require Import Reals Lra Lia ZArith QArith Ascii SpecFloat.
From stdpp Require Import base list strings pretty sorting.

#[local] Open Scope string_scope.
#[local] Open Scope list_scope.
#[local] Open Scope nat_scope.

(** ** Doubles: reals with a not-a-number marker *)

Module Dbl.

Inductive dbl : Type :=
  | Fin (r : R)
  | NaN.

(** [np.isnan] *)
Definition isnan (x : dbl) : bool :=
  match x with NaN => true | Fin _ => false end.

Definition lift2 (f : R -> R -> R) (x y : dbl) : dbl :=
  match x, y with
  | Fin a, Fin b => Fin (f a b)
  | _, _ => NaN
  end.

Definition dadd : dbl -> dbl -> dbl := lift2 Rplus.
Definition dsub : dbl -> dbl -> dbl := lift2 Rminus.
Definition dmul : dbl -> dbl -> dbl := lift2 Rmult.

(** Division.  [0/0] is NaN as in IEEE.  A non-zero numerator over zero is an
    infinity in IEEE; infinities are not represented, the marker stands for
    every non-finite outcome of a division.  The scripts divide by zero only
    in [znorm] (where the numerator is zero as well) and when a caller of
    [plot_generic_line] passes [divisor=0], which no script of the repository
    does. *)
Definition ddiv (x y : dbl) : dbl :=
  match x, y with
  | Fin a, Fin b => if Req_dec_T b 0 then NaN else Fin (a / b)
  | _, _ => NaN
  end.

(** [np.sqrt]: NaN on negative input. *)
Definition dsqrt (x : dbl) : dbl :=
  match x with
  | Fin a => if Rlt_dec a 0 then NaN else Fin (sqrt a)
  | NaN => NaN
  end.

(** [x > 0]; every comparison with NaN is false. *)
Definition gt0 (x : dbl) : bool :=
  match x with
  | Fin a => if Rlt_dec 0 a then true else false
  | NaN => false
  end.

(** The non-NaN entries, in order: [xs[~np.isnan(xs)]]. *)
Definition finite_part (xs : list dbl) : list R :=
  omap (fun x => match x with Fin r => Some r | NaN => None end) xs.

Definition Rsum (xs : list R) : R := foldr Rplus 0%R xs.

(** Plain sum of doubles, NaN absorbing. *)
Definition dsum (xs : list dbl) : dbl := foldr dadd (Fin 0) xs.

(** [np.nanmean] of a one-dimensional slice: the mean of the non-NaN
    entries, NaN (with a RuntimeWarning) when there is none. *)
Definition nanmean (xs : list dbl) : dbl :=
  match finite_part xs with
  | [] => NaN
  | ys => Fin (Rsum ys / INR (length ys))
  end.

(** [np.std(xs, ddof=1)]: sqrt (sum |x - mean|^2 / max (n - 1) 0).  pandas'
    [Series.std()] applies the same formula to the non-NaN entries. *)
Definition np_std_ddof1 (xs : list dbl) : dbl :=
  let m := ddiv (dsum xs) (Fin (INR (length xs))) in
  let sq := (fun x => let d := dsub x m in dmul d d) <$> xs in
  dsqrt (ddiv (dsum sq) (Fin (INR (length xs - 1)))).

End Dbl.

Import Dbl.

(** ** Python helpers shared by both scripts *)

(** [range(start, stop, step)] on integers; [None] is the ValueError raised
    for a zero step.  [np.arange] lists the same values for bounds within the
    64-bit integers, on which it computes (it fails with a ZeroDivisionError
    on a zero step). *)
Definition py_range (start stop step : Z) : option (list Z) :=
  if (step =? 0)%Z then None
  else
    let len :=
      if (0 <? step)%Z then ((stop - start + step - 1) / step)%Z
      else ((start - stop - step - 1) / (- step))%Z in
    Some ((fun k => (start + Z.of_nat k * step)%Z) <$> seq 0 (Z.to_nat len)).

(** [enumerate(l)] *)
Definition enumerate {A} (l : list A) : list (nat * A) :=
  zip (seq 0 (length l)) l.

(** [os.path.join a b] for a relative component [b]. *)
Definition ends_with_slash (a : string) : bool :=
  match last (String.list_ascii_of_string a) with
  | Some c => if decide (c = "/"%char) then true else false
  | None => false
  end.

Definition path_join (a b : string) : string :=
  if decide (a = "") then b
  else if ends_with_slash a then a +:+ b
  else a +:+ "/" +:+ b.

(** ** plotGenericLine.py *)

Module PlotGenericLine.

(** *** Log files and exceptions *)

(** A field of a semicolon-separated row as pandas parses it: a number
    (an empty field is NaN) or text that is not a number. *)
Inductive field : Type :=
  | FNum (x : dbl)
  | FText (s : string).

(** The parsed rows of a log file; [None] when the path does not exist. *)
Definition logfile : Type := list (list field).
Definition filesystem : Type := string -> option logfile.

Inductive exn : Type :=
  | FileNotFoundError
  | EmptyDataError
  | IndexError
  | TypeError
  | ValueError
  | ZeroStepError.

#[global] Instance exn_ret : MRet (sum exn) := fun _ x => inr x.
#[global] Instance exn_bind : MBind (sum exn) := fun _ _ f m =>
  match m with inl e => inl e | inr x => f x end.

(** [pd.read_csv(path, sep=';', header=None, skiprows=k, nrows=1)]: the
    single row after [k] skipped lines. *)
Definition read_csv_row (fs : filesystem) (path : string) (skiprows : nat)
  : exn + list field :=
  match fs path with
  | None => inl FileNotFoundError
  | Some rows =>
      match rows !! skiprows with
      | None => inl EmptyDataError
      | Some r => inr r
      end
  end.

(** [data.iloc[0, c]]: a negative [c] counts from the end. *)
Definition iloc (row : list field) (c : Z) : exn + field :=
  let n := Z.of_nat (length row) in
  let c' := if (c <? 0)%Z then (c + n)%Z else c in
  if ((0 <=? c') && (c' <? n))%Z
  then match row !! Z.to_nat c' with Some f => inr f | None => inl IndexError end
  else inl IndexError.

(** Lines 52-53: [total_tasks = a + b] and
    [value = (100 * value) / total_tasks if total_tasks > 0 else 0].
    Text operands end in a TypeError (text plus text concatenates, and the
    comparison with 0 then fails). *)
Definition percentage_of_all (value a b : field) : exn + field :=
  match a, b with
  | FNum x, FNum y =>
      let total_tasks := dadd x y in
      if gt0 total_tasks then
        match value with
        | FNum v => inr (FNum (ddiv (dmul (Fin 100) v) total_tasks))
        | FText _ => inl TypeError
        end
      else inr (FNum (Fin 0))
  | _, _ => inl TypeError
  end.

(** [all_results[s-1, i, j] = value]: text cannot be stored in a float
    array.  (numpy does convert text that Python's [float] accepts, such as
    1_000; every text field is taken here for one that it rejects, and the
    statement on the console takes logs of numbers.) *)
Definition store (value : field) : exn + dbl :=
  match value with
  | FNum x => inr x
  | FText _ => inl ValueError
  end.

(** *** Configuration (config.py) *)

Record config : Type := {
  folder_path : string;
  num_iterations : nat;
  scenario_types : list string;
  min_devices : Z;
  step_devices : Z;
  max_devices : Z
}.

Section Reader.

Variable fs : filesystem.
Variable folder : string.
Variable row_offset : nat.
Variable column_offset : Z.
Variable app_type : string.
Variable calculate_percentage : option string.

Definition file_path (s : nat) (scenario : string) (num_devices : Z) : string :=
  let file_name :=
    "SIMRESULT_DEFAULT_SCENARIO_" +:+ scenario +:+ "_" +:+ pretty num_devices
      +:+ "DEVICES_" +:+ app_type +:+ "_GENERIC.log" in
  path_join (path_join folder ("ite" +:+ pretty s)) file_name.

(** The body of the [try] (lines 42-55) up to the assignment: the value to
    store, or the exception raised. *)
Definition try_body (path : string) : exn + dbl :=
  data ← read_csv_row fs path row_offset;
  value ← iloc data (column_offset - 1);
  value ←
    (if decide (calculate_percentage = Some "percentage_of_all") then
       total_data ← read_csv_row fs path 1;
       a ← iloc total_data 0;
       b ← iloc total_data 1;
       percentage_of_all value a b
     else inr value);
  store value.

(** What ends up in the cell: the value, or NaN from either handler. *)
Definition cell_value (r : exn + dbl) : dbl :=
  match r with
  | inr v => v
  | inl _ => NaN
  end.

Inductive message : Type :=
  | WarningFileNotFound (path : string)
  | ErrorReading (path : string) (e : exn).

Definition handler_message (path : string) (r : exn + dbl) : list message :=
  match r with
  | inr _ => []
  | inl FileNotFoundError => [WarningFileNotFound path]
  | inl e => [ErrorReading path e]
  end.

(** The three-axis float array [all_results], the console and the paths
    handed to the first [pd.read_csv] of each loop body, in order. *)
Record reader_state : Type := {
  all_results : list (list (list dbl));
  console : list message;
  opened : list string
}.

(** [a[s, i, j] = v] and [a[s, i, j]] *)
Definition set3 (a : list (list (list dbl))) (s i j : nat) (v : dbl)
  : list (list (list dbl)) :=
  alter (alter (<[j := v]>) i) s a.

Definition get2 (plane : list (list dbl)) (i j : nat) : option dbl :=
  row ← plane !! i; row !! j.

Definition get3 (a : list (list (list dbl))) (s i j : nat) : option dbl :=
  plane ← a !! s; get2 plane i j.

(** [np.zeros((n, m, d))] *)
Definition zeros3 (n m d : nat) : list (list (list dbl)) :=
  replicate n (replicate m (replicate d (Fin 0))).

(** A position of the reading loop: the 1-based iteration and the enumerated
    scenario and device count. *)
Definition position : Type := nat * (nat * string) * (nat * Z).

Definition positions (n : nat) (scenarios : list string) (device_counts : list Z)
  : list position :=
  s ← seq 1 n;
  sc ← enumerate scenarios;
  dv ← enumerate device_counts;
  [(s, sc, dv)].

Definition position_path (p : position) : string :=
  let '(s, (_, scenario), (_, num_devices)) := p in
  file_path s scenario num_devices.

(** One pass through the loop body, lines 41-61. *)
Definition step (st : reader_state) (p : position) : reader_state :=
  let '(s, (i, _), (j, _)) := p in
  let path := position_path p in
  let r := try_body path in
  {| all_results := set3 (all_results st) (s - 1) i j (cell_value r);
     console := console st ++ handler_message path r;
     opened := opened st ++ [path] |}.

Definition read_loop (n : nat) (scenarios : list string) (device_counts : list Z)
  : reader_state :=
  foldl step
    {| all_results := zeros3 n (length scenarios) (length device_counts);
       console := []; opened := [] |}
    (positions n scenarios device_counts).

End Reader.

(** *** Aggregation and confidence interval (lines 63-84) *)

(** [a[:, i, j]] *)
Definition cell_column (a : list (list (list dbl))) (i j : nat) : list dbl :=
  omap (fun plane => get2 plane i j) a.

(** [np.nanmean(a, axis=0)] for [a] of shape (n, m, d): shape (m, d). *)
Definition nanmean_axis0 (m d : nat) (a : list (list (list dbl)))
  : list (list dbl) :=
  (fun i => (fun j => nanmean (cell_column a i j)) <$> seq 0 d) <$> seq 0 m.

(** What [results] can be: [np.squeeze] drops every axis of length one, so a
    single-iteration table yields a matrix, a vector or a scalar. *)
Inductive ndarray : Type :=
  | Nd0 (x : dbl)
  | Nd1 (xs : list dbl)
  | Nd2 (xss : list (list dbl)).

(** [np.squeeze(a)] for [a] of shape (1, m, d). *)
Definition squeeze (m d : nat) (a : list (list (list dbl))) : ndarray :=
  let plane := default [] (a !! 0) in
  match decide (m = 1), decide (d = 1) with
  | left _, left _ => Nd0 (default NaN (get2 plane 0 0))
  | left _, right _ => Nd1 (default [] (plane !! 0))
  | right _, left _ => Nd1 ((fun row => default NaN (row !! 0)) <$> plane)
  | right _, right _ => Nd2 plane
  end.

Definition nd_map (f : dbl -> dbl) (a : ndarray) : ndarray :=
  match a with
  | Nd0 x => Nd0 (f x)
  | Nd1 xs => Nd1 (fmap (M:=list) f xs)
  | Nd2 xss => Nd2 (fmap (M:=list) (fmap (M:=list) f) xss)
  end.

(** [a[i, :]]: two indices need a matrix. *)
Definition nd_row (a : ndarray) (i : nat) : exn + list dbl :=
  match a with
  | Nd2 xss => match xss !! i with Some r => inr r | None => inl IndexError end
  | _ => inl IndexError
  end.

Section Aggregation.

(** [scipy.stats.t.ppf q df] at [loc=0, scale=1]: the quantile function of
    Student's t distribution, kept abstract. *)
Variable t_ppf : R -> R -> R.

(** [scipy.stats.t.interval(confidence, df, loc=loc, scale=scale)]: the pair
    [ppf((1-c)/2), ppf((1+c)/2)], each computed as [t_ppf q df * scale + loc].
    scipy's [ppf] answers NaN unless [df > 0], [scale > 0] and [loc] is a
    number. *)
Definition t_interval (confidence df : R) (loc scale : dbl) : dbl * dbl :=
  match loc, scale with
  | Fin l, Fin sc =>
      if Rlt_dec 0 df then
        if Rlt_dec 0 sc then
          (Fin (t_ppf ((1 - confidence) / 2) df * sc + l),
           Fin (t_ppf ((1 + confidence) / 2) df * sc + l))
        else (NaN, NaN)
      else (NaN, NaN)
  | _, _ => (NaN, NaN)
  end.

Variable divisor : R.
Variable num_simulations : nat.
Variable m d : nat.
Variable a : list (list (list dbl)).

(** Lines 64-69.  (For a single iteration [results] is a view of
    [all_results], so the in-place division also rescales [all_results];
    nothing reads it afterwards but [mean_results], which is unused then.) *)
Definition results : ndarray :=
  nd_map (fun x => ddiv x (Fin divisor))
    (if decide (num_simulations = 1) then squeeze m d a
     else Nd2 (nanmean_axis0 m d a)).

(** Line 72. *)
Definition mean_results (i j : nat) : dbl :=
  ddiv (nanmean (cell_column a i j)) (Fin divisor).

(** Line 79. *)
Definition data_slice (i j : nat) : list dbl :=
  (fun r => ddiv (Fin r) (Fin divisor)) <$> finite_part (cell_column a i j).

(** Lines 76-84 for one cell: the entries of [min_ci_vals] and
    [max_ci_vals], which start at zero. *)
Definition ci_vals (i j : nat) : dbl * dbl :=
  if decide (1 < num_simulations) then
    let ds := data_slice i j in
    if decide (1 < length ds) then
      let std_err := ddiv (np_std_ddof1 ds) (dsqrt (Fin (INR (length ds)))) in
      let ci := t_interval (95 / 100) (INR (length ds - 1)) (mean_results i j) std_err in
      (dsub (mean_results i j) ci.1, dsub ci.2 (mean_results i j))
    else (Fin 0, Fin 0)
  else (Fin 0, Fin 0).

Definition min_ci_vals : list (list dbl) :=
  (fun i => (fun j => (ci_vals i j).1) <$> seq 0 d) <$> seq 0 m.

Definition max_ci_vals : list (list dbl) :=
  (fun i => (fun j => (ci_vals i j).2) <$> seq 0 d) <$> seq 0 m.

(** What one pass of the plotting loop hands to matplotlib:
    [results[i, :]] with [yerr=[min_ci_vals[i, :], max_ci_vals[i, :]]]. *)
Record series : Type := {
  ys : list dbl;
  yerr_low : list dbl;
  yerr_high : list dbl
}.

Definition plot_series (i : nat) : exn + series :=
  y ← nd_row results i;
  lo ← nd_row (Nd2 min_ci_vals) i;
  hi ← nd_row (Nd2 max_ci_vals) i;
  inr {| ys := y; yerr_low := lo; yerr_high := hi |}.

End Aggregation.

(** The whole function up to the calls into matplotlib: the series of every
    scenario, or the exception that ends the run. *)
Definition plot_generic_line (t_ppf : R -> R -> R) (cfg : config) (fs : filesystem)
    (row_offset : nat) (column_offset : Z) (app_type : string)
    (calculate_percentage : option string) (divisor : R)
  : exn + list series :=
  match py_range (min_devices cfg) (max_devices cfg + 1) (step_devices cfg) with
  | None => inl ZeroStepError
  | Some device_counts =>
      let num_simulations := num_iterations cfg in
      let scenarios := scenario_types cfg in
      let st := read_loop fs (folder_path cfg) row_offset column_offset app_type
                  calculate_percentage num_simulations scenarios device_counts in
      mapM (plot_series t_ppf divisor num_simulations (length scenarios)
              (length device_counts) (all_results st))
           (seq 0 (length scenarios))
  end.

(** *** Vocabulary of the statements *)

(** The cell a position writes, and the cell at an index triple. *)
Definition index_of (p : position) : nat * nat * nat :=
  let '(s, (i, _), (j, _)) := p in (s - 1, i, j).

Definition cell_at (a : list (list (list dbl))) (q : nat * nat * nat) : option dbl :=
  let '(s, i, j) := q in get3 a s i j.

(** Logs whose fields are numbers (or empty). *)
Definition is_number (f : field) : Prop :=
  match f with FNum _ => True | FText _ => False end.

Definition numeric_logs (fs : filesystem) : Prop :=
  ∀ path rows, fs path = Some rows → Forall (Forall is_number) rows.

(** Sample inputs: two iterations, and one iteration with three device
    counts, of one scenario; logs that all hold the single value 5, no log at
    all, logs whose second row is 15;5; a linear stand-in for the quantile
    function and a table with the samples 1 and 3. *)
Definition cfg_two_runs : config :=
  {| folder_path := "sim_results"; num_iterations := 2;
     scenario_types := ["RANDOM_FIT"];
     min_devices := 100; step_devices := 100; max_devices := 100 |}.

Definition cfg_single_run : config :=
  {| folder_path := "sim_results"; num_iterations := 1;
     scenario_types := ["RANDOM_FIT"];
     min_devices := 100; step_devices := 100; max_devices := 300 |}.

Definition fs_all_five : filesystem := fun _ => Some [[FNum (Fin 5)]].

Definition fs_no_file : filesystem := fun _ => None.

Definition fs_fifteen_five : filesystem :=
  fun _ => Some [[FNum (Fin 0)]; [FNum (Fin 15); FNum (Fin 5)]].

Definition t_ppf_linear (q df : R) : R := (2 * q - 1)%R.

Definition table_one_three : list (list (list dbl)) := [[[Fin 1]]; [[Fin 3]]].

End PlotGenericLine.

(** ** data_convertor.py *)

Module DataConvertor.

(** *** Records, files and effects *)

(** One row of a [<vehicles>_learnerOutputFile.cvs]: the two text columns,
    the numeric columns by name (a [?] field is NaN) and the [VehicleCount]
    column that line 66 adds. *)
Record record : Type := {
  Decision : string;
  Result : string;
  VehicleCount : Z;
  metric : string -> dbl
}.

Definition set_vehicle (vehicle : Z) (r : record) : record :=
  {| Decision := Decision r; Result := Result r;
     VehicleCount := vehicle; metric := metric r |}.

Definition filesystem : Type := string -> option (list record).

Inductive exn : Type :=
  | FileNotFoundError
  | ValueError
  | UnboundLocalError.

(** A line of the written file, without its newline. *)
Inductive event : Type :=
  | ReadCsv (path : string)
  | WriteFile (path : string) (lines : list string).

(** File effects in order, and the value or the exception that ends the
    run. *)
Definition io (A : Type) : Type := list event * (exn + A).

#[global] Instance io_ret : MRet io := fun _ x => ([], inr x).
#[global] Instance io_bind : MBind io := fun _ _ f m =>
  match m with
  | (t, inl e) => (t, inl e)
  | (t, inr x) => let '(t', r) := f x in (t ++ t', r)
  end.

Definition raise {A} (e : exn) : io A := ([], inl e).

Definition lift_exn {A} (r : exn + A) : io A := ([], r).

(** [pd.read_csv(file_name, na_values="?", comment='\t', sep=",")] *)
Definition read_csv (fs : filesystem) (path : string) : io (list record) :=
  match fs path with
  | Some rows => ([ReadCsv path], inr rows)
  | None => raise FileNotFoundError
  end.

(** *** Configuration (config.json) *)

(** A JSON number as [json.load] returns it: an int, or for a literal with a
    fraction or an exponent the double nearest to it.  The doubles of this
    value are the binary64 numbers of the Standard Library's [SpecFloat],
    bit for bit; its operations round to nearest, ties to even, as Python's
    do. *)
Inductive number : Type :=
  | PyInt (z : Z)
  | PyFloat (x : spec_float).

Record config : Type := {
  sim_result_folder : string;
  num_iterations : Z;
  train_data_ratio : number;
  min_vehicle : Z;
  max_vehicle : Z;
  vehicle_step_size : Z
}.

(** *** Lines 26-51 *)

(** No branch assigns [COLUMN_NAME] for another target: the [return] then
    raises UnboundLocalError. *)
Definition getDecisionColumnName (target : string) : exn + string :=
  if decide (target = "edge") then inr "EDGE"
  else if decide (target = "cloud_rsu") then inr "CLOUD_VIA_RSU"
  else if decide (target = "cloud_gsm") then inr "CLOUD_VIA_GSM"
  else inl UnboundLocalError.

Definition getClassifierColumns (target : string) : exn + list string :=
  if decide (target = "edge") then
    inr ["NumOffloadedTask"; "TaskLength"; "WLANUploadDelay"; "WLANDownloadDelay";
         "AvgEdgeUtilization"; "Result"]
  else if decide (target = "cloud_rsu") then
    inr ["NumOffloadedTask"; "WANUploadDelay"; "WANDownloadDelay"; "Result"]
  else if decide (target = "cloud_gsm") then
    inr ["NumOffloadedTask"; "GSMUploadDelay"; "GSMDownloadDelay"; "Result"]
  else inl UnboundLocalError.

Definition getRegressionColumns (target : string) : exn + list string :=
  if decide (target = "edge") then
    inr ["TaskLength"; "AvgEdgeUtilization"; "ServiceTime"]
  else if decide (target = "cloud_rsu") then
    inr ["TaskLength"; "WANUploadDelay"; "WANDownloadDelay"; "ServiceTime"]
  else if decide (target = "cloud_gsm") then
    inr ["TaskLength"; "GSMUploadDelay"; "GSMDownloadDelay"; "ServiceTime"]
  else inl UnboundLocalError.

(** [column.mean()] and [column.std()] skip NaN; [std] divides by n - 1. *)
Definition pd_mean (column : list dbl) : dbl := nanmean column.

Definition pd_std (column : list dbl) : dbl :=
  np_std_ddof1 (Fin <$> finite_part column).

Definition znorm (column : list dbl) : list dbl :=
  (fun v => ddiv (dsub v (pd_mean column)) (pd_std column)) <$> column.

(** *** Lines 57-68: which files are read *)

(** [float(z)], the conversion Python applies to the int operand of a mixed
    product: the nearest double. *)
Definition to_double (z : Z) : spec_float := binary_normalize 53 1024 z 0 false.

(** An int as an operand of the true division of two ints, which rounds the
    exact quotient once: the mantissa is the int itself, of any length. *)
Definition exact_int (z : Z) : spec_float :=
  match z with
  | Z0 => S754_zero false
  | Zpos p => S754_finite false p 0
  | Zneg p => S754_finite true p 0
  end.

(** Line 59, [(train_data_ratio * num_iterations) / 100], as Python computes
    it.  For an int ratio the product is an exact int and the division rounds
    the quotient to the nearest double.  For a float ratio the number of
    iterations is converted, the product is rounded, and so is the quotient
    by 100.0. *)
Definition testDataStartIndex (cfg : config) : spec_float :=
  match train_data_ratio cfg with
  | PyInt ratio =>
      SFdiv 53 1024 (exact_int (ratio * num_iterations cfg)) (exact_int 100)
  | PyFloat ratio =>
      SFdiv 53 1024 (SFmul 53 1024 ratio (to_double (num_iterations cfg)))
        (to_double 100)
  end.

(** Where the quotient of the ints, or the conversion of the number of
    iterations, leaves the range of doubles (beyond 1.7e308) Python raises
    OverflowError at line 59 and [testDataStartIndex] above is an infinity.
    The loader below does not model that exception; the statements about the
    boundary take the configurations for which line 59 returns. *)
Definition is_infinity (x : spec_float) : bool :=
  match x with S754_infinity _ => true | _ => false end.

Definition line_59_overflows (cfg : config) : bool :=
  match train_data_ratio cfg with
  | PyInt _ => is_infinity (testDataStartIndex cfg)
  | PyFloat _ => is_infinity (to_double (num_iterations cfg))
  end.

(** The rational a finite double stands for: [m * 2^e] with its sign. *)
Definition double_value (x : spec_float) : option Q :=
  match x with
  | S754_zero _ => Some 0%Q
  | S754_finite negative m e =>
      let mantissa := if negative then Z.neg m else Z.pos m in
      Some (if (0 <=? e)%Z then inject_Z (mantissa * 2 ^ e)
            else Qmake mantissa (2 ^ Z.to_pos (- e)))
  | S754_infinity _ | S754_nan => None
  end.

(** [ite < x] and [ite >= x] for an int and a float.  Python compares the
    exact values; every comparison with NaN is false. *)
Definition int_lt_double (ite : Z) (x : spec_float) : bool :=
  match x with
  | S754_nan => false
  | S754_infinity negative => negb negative
  | S754_zero _ | S754_finite _ _ _ =>
      match double_value x with
      | Some q => negb (Qle_bool q (inject_Z ite))
      | None => false
      end
  end.

Definition int_ge_double (ite : Z) (x : spec_float) : bool :=
  match x with
  | S754_nan => false
  | S754_infinity negative => negative
  | S754_zero _ | S754_finite _ _ _ =>
      match double_value x with
      | Some q => Qle_bool q (inject_Z ite)
      | None => false
      end
  end.

(** The condition of line 63. *)
Definition selected (cfg : config) (datatype : string) (ite : Z) : bool :=
  (bool_decide (datatype = "train") && int_lt_double ite (testDataStartIndex cfg))
  || (bool_decide (datatype = "test") && int_ge_double ite (testDataStartIndex cfg)).

Definition file_name (cfg : config) (ite vehicle : Z) : string :=
  sim_result_folder cfg +:+ "/ite" +:+ pretty (ite + 1)%Z +:+ "/"
    +:+ pretty vehicle +:+ "_learnerOutputFile.cvs".

(** [range(num_iterations)] *)
Definition iterations (cfg : config) : list Z :=
  Z.of_nat <$> seq 0 (Z.to_nat (num_iterations cfg)).

(** The body of the inner loop: one frame more when the file is read. *)
Definition load_one (cfg : config) (fs : filesystem) (datatype : string)
    (ite vehicle : Z) (data_set : list (list record)) : io (list (list record)) :=
  if selected cfg datatype ite then
    rows ← read_csv fs (file_name cfg ite vehicle);
    mret (data_set ++ [set_vehicle vehicle <$> rows])
  else mret data_set.

Fixpoint for_each {A B} (f : A -> B -> io B) (l : list A) (acc : B) : io B :=
  match l with
  | [] => mret acc
  | x :: l => acc ← f x acc; for_each f l acc
  end.

(** Lines 61-68.  The inner [range] is built once per iteration; a zero
    step raises ValueError there. *)
Definition load (cfg : config) (fs : filesystem) (datatype : string)
  : io (list (list record)) :=
  for_each
    (fun ite data_set =>
       vehicles ← lift_exn
         (match py_range (min_vehicle cfg) (max_vehicle cfg + 1)
                  (vehicle_step_size cfg) with
          | Some l => inr l
          | None => inl ValueError
          end);
       for_each (load_one cfg fs datatype ite) vehicles data_set)
    (iterations cfg) [].

(** [pd.concat(frames, ignore_index=True)]: ValueError without frames. *)
Definition pd_concat (frames : list (list record)) : exn + list record :=
  match frames with
  | [] => inl ValueError
  | _ => inr (concat frames)
  end.

(** *** Lines 89-108: balancing *)

(** [df.groupby('VehicleCount')]: one group per key, keys ascending, rows in
    their original order. *)
Definition group_keys (df : list record) : list Z :=
  merge_sort Z.le (remove_dups (VehicleCount <$> df)).

Definition groupby (df : list record) : list (list record) :=
  (fun k => filter (fun r => VehicleCount r = k) df) <$> group_keys df.

(** [x.sample(size)] takes the rows at the first [size] indices of a
    permutation of [range(len(x))] drawn from numpy's global generator. *)
Definition sample (perm : list nat) (size : nat) (x : list record) : list record :=
  omap (fun i => x !! i) (take size perm).

Section Balancing.

(** [rng k len]: the permutation of [range(len)] that the [k]-th draw of the
    run returns. *)
Variable rng : nat -> nat -> list nat.

(** [lambda x: x if len(x) < size else x.sample(size)], with the number of
    draws made so far. *)
Definition balance_group (size : nat) (x : list record) (draws : nat)
  : list record * nat :=
  if decide (length x < size) then (x, draws)
  else (sample (rng draws (length x)) size x, S draws).

(** [.apply(f)]: the results of the groups, concatenated in key order. *)
Fixpoint apply_groups (f : list record -> nat -> list record * nat)
    (groups : list (list record)) (draws : nat) : list record * nat :=
  match groups with
  | [] => ([], draws)
  | g :: groups =>
      let '(out, draws) := f g draws in
      let '(rest, draws) := apply_groups f groups draws in
      (out ++ rest, draws)
  end.

Definition balance (cfg : config) (method : string) (data_set : list record)
  : list record :=
  if decide (method = "classifier") then
    let df0 := filter (fun r => Result r = "fail") data_set in
    let df1 := filter (fun r => Result r = "success") data_set in
    let size :=
      (length (filter (fun r => VehicleCount r = max_vehicle cfg) df0) / 2)%nat in
    let '(df1, draws) := apply_groups (balance_group size) (groupby df1) 0 in
    let '(df0, _) := apply_groups (balance_group size) (groupby df0) draws in
    df0 ++ df1
  else
    let data_set := filter (fun r => Result r = "success") data_set in
    let size :=
      (length (filter (fun r => VehicleCount r = max_vehicle cfg) data_set) / 3)%nat in
    (apply_groups (balance_group size) (groupby data_set) 0).1.

End Balancing.

(** *** Lines 110-116: extraction and normalisation *)

Inductive cell : Type :=
  | CStr (s : string)
  | CNum (x : dbl).

(** [data_set[column]] *)
Definition get_column (column : string) (data_set : list record) : list cell :=
  if decide (column = "Result") then (fun r => CStr (Result r)) <$> data_set
  else (fun r => CNum (metric r column)) <$> data_set.

(** The frame [df], column by column in the order of [targetColumns]. *)
Definition extract (targetColumns : list string) (data_set : list record)
  : list (string * list cell) :=
  (fun column =>
     (column,
      if decide (column = "Result" ∨ column = "ServiceTime")
      then get_column column data_set
      else CNum <$> znorm ((fun r => metric r column) <$> data_set)))
  <$> targetColumns.

(** *** Lines 118-127: the .arff file *)

Definition attribute_line (column : string) : string :=
  if decide (column = "Result") then "@attribute class {fail,success}"
  else "@attribute " +:+ column +:+ " REAL".

Section ArffExport.

(** How [to_csv] prints a finite double. *)
Variable float_repr : R -> string.

(** NaN is written as the empty field.  (Text with a comma or a quote would
    be quoted; the only text column is [Result].) *)
Definition csv_field (c : cell) : string :=
  match c with
  | CStr s => s
  | CNum (Fin r) => float_repr r
  | CNum NaN => ""
  end.

Definition row_cells (df : list (string * list cell)) (k : nat) : list cell :=
  omap (fun col => col.2 !! k) df.

Definition nrows (df : list (string * list cell)) : nat :=
  match df with
  | [] => 0
  | (_, col) :: _ => length col
  end.

(** [df.to_csv(f, header=False, index=False)], line by line. *)
Definition to_csv (df : list (string * list cell)) : list string :=
  (fun k => String.concat "," (csv_field <$> row_cells df k)) <$> seq 0 (nrows df).

Definition arff_lines (target : string) (targetColumns : list string)
    (df : list (string * list cell)) : list string :=
  ["@relation " +:+ target; ""] ++ (attribute_line <$> targetColumns)
    ++ [""; "@data"] ++ to_csv df.

(** The script from line 57 on, for a parsed configuration and the three
    command-line arguments.  The statistics of lines 78-85 only print.  The
    file of line 118 is taken to open; what [open] can refuse (a name with a
    slash under a folder that does not exist, a missing permission) is left
    out. *)
Definition main (rng : nat -> nat -> list nat) (cfg : config) (fs : filesystem)
    (target method datatype : string) : io unit :=
  frames ← load cfg fs datatype;
  data_set ← lift_exn (pd_concat frames);
  decision ← lift_exn (getDecisionColumnName target);
  let data_set := filter (fun r => Decision r = decision) data_set in
  targetColumns ← lift_exn
    (if decide (method = "classifier") then getClassifierColumns target
     else getRegressionColumns target);
  let data_set := balance rng cfg method data_set in
  let df := extract targetColumns data_set in
  ([WriteFile
      (sim_result_folder cfg +:+ "/" +:+ target +:+ "_" +:+ method +:+ "_"
         +:+ datatype +:+ ".arff")
      (arff_lines target targetColumns df)], inr tt).

End ArffExport.

(** *** Vocabulary of the statements *)

(** The (iteration, vehicle count) pairs whose files line 65 reads. *)
Definition split_plan (cfg : config) (datatype : string) (vehicles : list Z)
  : list (Z * Z) :=
  ite ← iterations cfg;
  vehicle ← vehicles;
  if selected cfg datatype ite then [(ite, vehicle)] else [].

(** The read of one planned file, and the frame it adds. *)
Definition read_event (cfg : config) (p : Z * Z) : event :=
  ReadCsv (file_name cfg p.1 p.2).

Definition frame_of (content : Z -> Z -> list record) (p : Z * Z) : list record :=
  set_vehicle p.2 <$> content p.1 p.2.

(** The records of one stratum. *)
Definition stratum (key : Z) (df : list record) : list record :=
  filter (fun r => VehicleCount r = key) df.

(** What the cap rule promises for one stratum. *)
Definition capped (cap : nat) (input output : list record) : Prop :=
  length output ≤ length input ∧
  (length input < cap → output = input) ∧
  (cap ≤ length input → length output = cap ∧ output ⊆+ input).

(** What [x.sample(cap)] returns for a stratum of at least [cap] rows: the
    rows at the first [cap] entries of a permutation the generator draws. *)
Definition sampled (rng : nat → nat → list nat) (cap : nat)
    (input output : list record) : Prop :=
  cap ≤ length input →
  ∃ draw, output = omap (fun i => input !! i) (take cap (rng draw (length input))).

(** The lists of [k] different entries of [l], each once; for [k = length l]
    the permutations of [l]. *)
Fixpoint arrangements (k : nat) (l : list nat) : list (list nat) :=
  match k with
  | 0 => [[]]
  | S k => x ← l; cons x <$> arrangements k (filter (fun y => y ≠ x) l)
  end.

(** The permutations of [range(len)] that numpy's [permutation] can return. *)
Definition permutations_of_range (len : nat) : list (list nat) :=
  arrangements len (seq 0 len).

(** The number of those permutations along which a sample of [size] rows
    takes the rows at [positions], in that order. *)
Definition draws_taking (len size : nat) (positions : list nat) : nat :=
  length (filter (fun perm => take size perm = positions) (permutations_of_range len)).

(** A permutation drawn uniformly gives a sample drawn uniformly: every
    permutation of the range is listed once, and every choice of [cap]
    different positions is taken along the same number of permutations. *)
Definition uniform_choice (len cap : nat) : Prop :=
  NoDup (permutations_of_range len) ∧
  length (permutations_of_range len) = fact len ∧
  (∀ perm, perm ∈ permutations_of_range len ↔ perm ≡ₚ seq 0 len) ∧
  ∀ positions,
    length positions = cap → NoDup positions → (∀ i, i ∈ positions → i < len) →
    draws_taking len cap positions = fact (len - cap).

(** The columns the method selects for a target (lines 73-76). *)
Definition target_columns (target method : string) : exn + list string :=
  if decide (method = "classifier") then getClassifierColumns target
  else getRegressionColumns target.

Definition arff_path (cfg : config) (target method datatype : string) : string :=
  sim_result_folder cfg +:+ "/" +:+ target +:+ "_" +:+ method +:+ "_"
    +:+ datatype +:+ ".arff".

(** The data set that reaches line 110. *)
Definition balanced_data_set (rng : nat → nat → list nat) (cfg : config)
    (method decision : string) (frames : list (list record)) : list record :=
  balance rng cfg method (filter (fun r => Decision r = decision)
    (concat frames)).

(** A cell of the normalised frame, as lines 112-116 compute it from the
    whole data set. *)
Definition normalised_cell (data_set : list record) (column : string) (r : record)
  : cell :=
  if decide (column = "Result") then CStr (Result r)
  else if decide (column = "ServiceTime") then CNum (metric r "ServiceTime")
  else
    let whole := (fun r' => metric r' column) <$> data_set in
    CNum (ddiv (dsub (metric r column) (pd_mean whole)) (pd_std whole)).

(** The values of a comma-separated line. *)
Fixpoint split_on (sep : ascii) (s : string) : list string :=
  match s with
  | EmptyString => [EmptyString]
  | String c s' =>
      if decide (c = sep) then EmptyString :: split_on sep s'
      else match split_on sep s' with
           | f :: fs => String c f :: fs
           | [] => [String c EmptyString]
           end
  end.

Definition free_of (sep : ascii) (s : string) : Prop :=
  sep ∉ String.list_ascii_of_string s.



(** Sample inputs: one iteration and one vehicle count, all of it training
    data; files that exist and are empty; six equal records per file; a
    generator that always returns the identity permutation. *)
Definition cfg_one_run : config :=
  {| sim_result_folder := "sim_results"; num_iterations := 1;
     train_data_ratio := PyInt 100; min_vehicle := 100; max_vehicle := 100;
     vehicle_step_size := 100 |}.


Definition fs_empty_files : filesystem := fun _ => Some [].

Definition record_all_two : record :=
  {| Decision := "EDGE"; Result := "success"; VehicleCount := 0;
     metric := fun _ => Fin 2 |}.

Definition fs_six_equal : filesystem := fun _ => Some (replicate 6 record_all_two).

Definition rng_identity (draw len : nat) : list nat := seq 0 len.

Definition six_at_hundred : list record := replicate 6 (set_vehicle 100 record_all_two).

(** Nine success records of vehicle count 100 that differ: record [i] holds
    the value [2 * i] in every numeric column.  A generator that always
    returns the reversed range. *)
Definition record_numbered (i : Z) : record :=
  {| Decision := "EDGE"; Result := "success"; VehicleCount := 100;
     metric := fun _ => Fin (IZR (2 * i)) |}.

Definition nine_numbered : list record :=
  (fun k => record_numbered (Z.of_nat k)) <$> seq 0 9.

Definition fs_nine_numbered : filesystem := fun _ => Some nine_numbered.

Definition rng_reverse (draw len : nat) : list nat := reverse (seq 0 len).

End DataConvertor.

(** * Further code places

    The rest of the two scripts and the scripts around them:

    - data_convertor.py, lines 5-24: the arguments and the configuration
      file (module [ConvertorStartup]);
    - plotGenericLine.py, lines 86-120: the plotting loop and the saved file
      (module [PlotFigure]), with the configuration of tutorial 1 and the
      calls of plotAvgFailedTask.py;
    - plotApDelay.py, plotLocation.py and the two versions of
      plotDelayReasonAsBar.py (modules [PlotApDelay], [PlotLocation] and
      [PlotDelayReasonAsBar] over [Frames]).

    For the last group [pd.read_csv] is a function from paths to the frame
    it returns or the exception it raises. *)

(** ** data_convertor.py: further vocabulary *)

Module ConvertorTerms.

Import DataConvertor.

(** The body of the loops of lines 61-68 for one selected file. *)
Definition read_planned (cfg : config) (fs : filesystem) (p : Z * Z)
    (data_set : list (list record)) : io (list (list record)) :=
  rows ← read_csv fs (file_name cfg p.1 p.2);
  mret (data_set ++ [set_vehicle p.2 <$> rows]).


(** The mean and the variance (n - 1 in the denominator) of a list of reals:
    what [column.mean()] and the square of [column.std()] are on the
    non-missing values. *)
Definition Rmean (xs : list R) : R := (Rsum xs / INR (length xs))%R.

Definition Rvar (xs : list R) : R :=
  (Rsum ((fun x => (x - Rmean xs) * (x - Rmean xs))%R <$> xs)
   / (INR (length xs) - 1))%R.

(** The entry of a normalised column for the mean [m] and the deviation
    [s]. *)
Definition zscore (m s : R) (v : dbl) : dbl :=
  match v with
  | Fin x => Fin ((x - m) / s)
  | NaN => NaN
  end.

End ConvertorTerms.

(** ** data_convertor.py, lines 5-24: arguments and configuration file *)

Module ConvertorStartup.

(** What [json.load] returns. *)
#[warnings="-register-all"]
Inductive json : Type :=
  | JNull
  | JBool (b : bool)
  | JInt (z : Z)
  | JFloat (q : Q)
  | JString (s : string)
  | JArray (items : list json)
  | JObject (members : list (string * json)).

(** The content of a path: [None] when there is no such file, [Some None]
    when the file is not a JSON document. *)
Definition files : Type := string -> option (option json).

Inductive exn : Type :=
  | FileNotFoundError
  | JSONDecodeError
  | TypeError
  | KeyError (key : string).

Inductive outcome (A : Type) : Type :=
  | Exit (code : Z)
  | Raise (e : exn)
  | Return (a : A).

Arguments Exit {A} code.
Arguments Raise {A} e.
Arguments Return {A} a.

(** The state the script threads: the lines printed and the paths opened. *)
Record world : Type := {
  printed : list string;
  opened : list string
}.

Definition run (A : Type) : Type := world -> world * outcome A.

#[global] Instance run_ret : MRet run := fun _ a w => (w, Return a).
#[global] Instance run_bind : MBind run := fun _ _ f m w =>
  match m w with
  | (w', Return a) => f a w'
  | (w', Exit code) => (w', Exit code)
  | (w', Raise e) => (w', Raise e)
  end.

Definition print (line : string) : run unit := fun w =>
  ({| printed := printed w ++ [line]; opened := opened w |}, Return tt).

Definition sys_exit {A} (code : Z) : run A := fun w => (w, Exit code).

Definition raise {A} (e : exn) : run A := fun w => (w, Raise e).

(** [with open(path) as f: data = json.load(f)] *)
Definition load_json (fs : files) (path : string) : run json := fun w =>
  match fs path with
  | None => (w, Raise FileNotFoundError)
  | Some content =>
      ({| printed := printed w; opened := opened w ++ [path] |},
       match content with
       | None => Raise JSONDecodeError
       | Some data => Return data
       end)
  end.

(** The dict [json.load] builds from an object keeps the last member of a
    repeated name. *)
Fixpoint dict_get (key : string) (members : list (string * json)) : option json :=
  match members with
  | [] => None
  | (k, v) :: members =>
      match dict_get key members with
      | Some v' => Some v'
      | None => if decide (k = key) then Some v else None
      end
  end.

(** [data[key]] for a string key: only a dict can be indexed by a string. *)
Definition subscript (data : json) (key : string) : run json :=
  match data with
  | JObject members =>
      match dict_get key members with
      | Some v => mret v
      | None => raise (KeyError key)
      end
  | _ => raise TypeError
  end.

(** What lines 13-24 bind. *)
Record settings : Type := {
  target : string;
  method : string;
  datatype : string;
  sim_result_folder : json;
  num_iterations : json;
  train_data_ratio : json;
  min_vehicle : json;
  max_vehicle : json;
  vehicle_step_size : json
}.

Definition usage : list string :=
  ["invalid arguments. Usage:";
   "python data_conventor.py config.json [edge|cloud_rsu|cloud_gsm] [classifier|regression] [train|test]"].

(** Lines 5-24.  [argv] is [sys.argv]: the script name and its arguments. *)
Definition startup (fs : files) (argv : list string) : run settings :=
  match argv with
  | [_; config_path; target; method; datatype] =>
      data ← load_json fs config_path;
      _ ← print ("conversion started with args " +:+ target +:+ ", " +:+ method
                   +:+ ", " +:+ datatype);
      sim_result_folder ← subscript data "sim_result_folder";
      num_iterations ← subscript data "num_iterations";
      train_data_ratio ← subscript data "train_data_ratio";
      min_vehicle ← subscript data "min_vehicle";
      max_vehicle ← subscript data "max_vehicle";
      vehicle_step_size ← subscript data "vehicle_step_size";
      mret {| target := target; method := method; datatype := datatype;
              sim_result_folder := sim_result_folder;
              num_iterations := num_iterations;
              train_data_ratio := train_data_ratio;
              min_vehicle := min_vehicle; max_vehicle := max_vehicle;
              vehicle_step_size := vehicle_step_size |}
  | _ =>
      _ ← print "invalid arguments. Usage:";
      _ ← print "python data_conventor.py config.json [edge|cloud_rsu|cloud_gsm] [classifier|regression] [train|test]";
      sys_exit 1
  end.

Definition start : world := {| printed := []; opened := [] |}.

(** The keys the script reads, in the order of lines 19-24. *)
Definition config_keys : list string :=
  ["sim_result_folder"; "num_iterations"; "train_data_ratio"; "min_vehicle";
   "max_vehicle"; "vehicle_step_size"].

(** Sample inputs: a complete configuration with one key more, and one
    without [max_vehicle]. *)
Definition sample_config : json :=
  JObject [("sim_result_folder", JString "sim_results"); ("num_iterations", JInt 10);
           ("train_data_ratio", JInt 80); ("min_vehicle", JInt 100);
           ("max_vehicle", JInt 1800); ("vehicle_step_size", JInt 100);
           ("comment", JNull)].

Definition members_without_max : list (string * json) :=
  [("sim_result_folder", JString "sim_results"); ("num_iterations", JInt 10);
   ("train_data_ratio", JInt 80); ("min_vehicle", JInt 100);
   ("vehicle_step_size", JInt 100)].

Definition config_without_max : json := JObject members_without_max.

End ConvertorStartup.

(** ** plotGenericLine.py, lines 86-120: drawing and saving *)

Module PlotFigure.

Import PlotGenericLine.

(** The entries of the configuration dictionary that the plotting loop and
    the saving step read. *)
Record style : Type := {
  legends : list string;
  colors : list (list Q);
  bw_markers : list string;
  color_markers : list string;
  use_color : bool;
  plot_confidence_interval : bool;
  save_figure_as_pdf : bool
}.

(** A colour: an RGB triple of the configuration, or the name ['k']. *)
Inductive colour : Type :=
  | Rgb (channels : list Q)
  | Black.

(** The two calls of the plotting loop, with the arguments that depend on
    the data and the configuration. *)
Inductive artist : Type :=
  | Errorbar (x : list Z) (y : list dbl) (yerr_low yerr_high : list dbl)
      (label : string) (color : colour) (fmt : string)
  | Plot (x : list Z) (y : list dbl) (fmt : string) (label : string)
      (color : colour).

(** [l[i]] on a Python list, for an index that is not negative. *)
Definition subscript {A} (l : list A) (i : nat) : exn + A :=
  match l !! i with
  | Some x => inr x
  | None => inl IndexError
  end.

(** One pass of the loop of lines 95-103. *)
Definition draw (st : style) (device_counts : list Z) (results : ndarray)
    (min_ci_vals max_ci_vals : list (list dbl)) (i : nat) : exn + artist :=
  color ← (if use_color st then c ← subscript (colors st) i; inr (Rgb c)
           else inr Black);
  marker_style ← (if use_color st then subscript (color_markers st) i
                  else subscript (bw_markers st) i);
  if plot_confidence_interval st then
    y ← nd_row results i;
    lo ← nd_row (Nd2 min_ci_vals) i;
    hi ← nd_row (Nd2 max_ci_vals) i;
    label ← subscript (legends st) i;
    inr (Errorbar device_counts y lo hi label color marker_style)
  else
    y ← nd_row results i;
    label ← subscript (legends st) i;
    inr (Plot device_counts y marker_style label color).

(** The loop: it stops at the first exception. *)
Definition draw_all (st : style) (num_scenarios : nat) (device_counts : list Z)
    (results : ndarray) (min_ci_vals max_ci_vals : list (list dbl))
  : exn + list artist :=
  mapM (draw st device_counts results min_ci_vals max_ci_vals)
       (seq 0 num_scenarios).

(** [app_type.replace(' ', '_')] *)
Fixpoint replace_char (old new : ascii) (s : string) : string :=
  match s with
  | EmptyString => EmptyString
  | String c s => String (if decide (c = old) then new else c) (replace_char old new s)
  end.

Definition safe_app_type (app_type : string) : string :=
  replace_char " " "_" app_type.

(** Lines 115-117. *)
Definition filename (row_offset : nat) (column_offset : Z) (app_type : string)
  : string :=
  pretty row_offset +:+ "_" +:+ pretty column_offset +:+ "_"
    +:+ safe_app_type app_type +:+ ".pdf".

Definition output_path (folder_path : string) (row_offset : nat)
    (column_offset : Z) (app_type : string) : string :=
  path_join folder_path (filename row_offset column_offset app_type).

(** What lines 113-120 do to the file system and the console. *)
Inductive effect : Type :=
  | MakeDirs (path : string)
  | SaveFig (path : string)
  | PrintLine (line : string).

(** A folder name that [os.makedirs] refuses whatever the file system
    holds: the empty name raises FileNotFoundError, a name with a NUL
    character ValueError. *)
Definition makedirs_refuses (folder_path : string) : option exn :=
  if decide (folder_path = "") then Some FileNotFoundError
  else if decide ("000"%char ∈ String.list_ascii_of_string folder_path)
       then Some ValueError
  else None.

(** Such a name ends the call before the figure is saved.  For another name
    the three calls are made; what the file system can refuse them
    (permission, space) is left out. *)
Definition save (st : style) (folder_path : string) (row_offset : nat)
    (column_offset : Z) (app_type : string) : exn + list effect :=
  if save_figure_as_pdf st then
    let path := output_path folder_path row_offset column_offset app_type in
    match makedirs_refuses folder_path with
    | Some e => inl e
    | None => inr [MakeDirs folder_path; SaveFig path;
                   PrintLine ("Figure saved to " +:+ path)]
    end
  else inr [].

(** The function from the aggregation on: the artists drawn and the file
    saved, or the exception that ends the call before anything is saved
    (the figure has been drawn when the exception is that of [save]). *)
Definition draw_and_save (t_ppf : R -> R -> R) (st : style) (cfg : config)
    (fs : filesystem) (row_offset : nat) (column_offset : Z) (app_type : string)
    (calculate_percentage : option string) (divisor : R)
  : exn + (list artist * list effect) :=
  match py_range (min_devices cfg) (max_devices cfg + 1) (step_devices cfg) with
  | None => inl ZeroStepError
  | Some device_counts =>
      let n := num_iterations cfg in
      let m := length (scenario_types cfg) in
      let d := length device_counts in
      let a := all_results
                 (read_loop fs (folder_path cfg) row_offset column_offset app_type
                    calculate_percentage n (scenario_types cfg) device_counts) in
      artists ← draw_all st m device_counts (results divisor n m d a)
                   (min_ci_vals t_ppf divisor n m d a)
                   (max_ci_vals t_ppf divisor n m d a);
      effects ← save st (folder_path cfg) row_offset column_offset app_type;
      inr (artists, effects)
  end.

(** The style lists are long enough for [m] scenarios. *)
Definition covers (st : style) (m : nat) : Prop :=
  m ≤ length (legends st) ∧
  if use_color st
  then m ≤ length (colors st) ∧ m ≤ length (color_markers st)
  else m ≤ length (bw_markers st).

(** The artist of a series. *)
Definition artist_of (st : style) (device_counts : list Z) (i : nat) (sr : series)
  : artist :=
  let color := if use_color st then Rgb (default [] (colors st !! i)) else Black in
  let fmt := default "" ((if use_color st then color_markers st else bw_markers st) !! i) in
  let label := default "" (legends st !! i) in
  if plot_confidence_interval st
  then Errorbar device_counts (ys sr) (yerr_low sr) (yerr_high sr) label color fmt
  else Plot device_counts (ys sr) fmt label color.

End PlotFigure.

(** ** tutorial1/python/config.py *)

Module Tutorial1.

Definition get_configuration : PlotGenericLine.config * PlotFigure.style :=
  ({| PlotGenericLine.folder_path := "../../../sim_results/tutorial1";
      PlotGenericLine.num_iterations := 10;
      PlotGenericLine.scenario_types :=
        ["RANDOM_FIT"; "WORST_FIT"; "BEST_FIT"; "FIRST_FIT"; "NEXT_FIT"];
      PlotGenericLine.min_devices := 200;
      PlotGenericLine.step_devices := 200;
      PlotGenericLine.max_devices := 2000 |},
   {| PlotFigure.legends := ["RND"; "WF"; "BF"; "FF"; "NF"];
      PlotFigure.colors :=
        [[55 # 100; 0; 0]; [0; 15 # 100; 6 # 10]; [0; 23 # 100; 0];
         [6 # 10; 0; 6 # 10]; [8 # 100; 8 # 100; 8 # 100]]%Q;
      PlotFigure.bw_markers := ["-k*"; "-ko"; "-ks"; "-kv"; "-kp"];
      PlotFigure.color_markers := ["-*"; "-o"; "-s"; "-v"; "-p"];
      PlotFigure.use_color := true;
      PlotFigure.plot_confidence_interval := true;
      PlotFigure.save_figure_as_pdf := true |}).

End Tutorial1.

(** ** tutorial3/python/plotAvgFailedTask.py *)

Module Tutorial3AvgFailedTask.

(** The arguments of one call of [plot_generic_line]. *)
Record call : Type := {
  row_offset : nat;
  column_offset : Z;
  y_label : string;
  app_type : string;
  calculate_percentage : option string;
  legend_pos : string
}.

Definition failed (row : nat) (y_label app_type : string) : call :=
  {| row_offset := row; column_offset := 2; y_label := y_label;
     app_type := app_type; calculate_percentage := Some "percentage_of_all";
     legend_pos := "upper left" |}.

(** Lines 6-17; [\n] stands for the line break in a label. *)
Definition calls : list call :=
  [failed 1 "Failed Tasks (%)" "ALL_APPS";
   failed 1 "Failed Tasks for\nAugmented Reality App (%)" "AUGMENTED_REALITY";
   failed 1 "Failed Tasks for Health App (%)" "HEALTH_APP";
   failed 1 "Failed Tasks for\nInfotainment App (%)" "INFOTAINMENT_APP";
   failed 2 "Failed Tasks on Edge (%)" "ALL_APPS";
   failed 2 "Failed Tasks on Edge\nfor Augmented Reality App (%)" "AUGMENTED_REALITY";
   failed 2 "Failed Tasks on Edge for Health App (%)" "HEALTH_APP";
   failed 2 "Failed Tasks on Edge for Infotainment App (%)" "INFOTAINMENT_APP";
   failed 3 "Failed Tasks on Cloud (%)" "ALL_APPS";
   failed 3 "Failed Tasks on Cloud for\nAugmented Reality App (%)" "AUGMENTED_REALITY";
   failed 3 "Failed Tasks on Cloud for Health App (%)" "HEALTH_APP";
   failed 3 "Failed Tasks on Cloud for Infotainment App (%)" "INFOTAINMENT_APP"].

End Tutorial3AvgFailedTask.

(** ** Printed integers *)

Module Numerals.

(** The characters of a printed integer. *)
Definition numeral (c : ascii) : Prop :=
  c ∈ String.list_ascii_of_string "-0123456789".

End Numerals.

(** ** Data frames of the other plotting scripts *)

Module Frames.

Export PlotGenericLine (field, FNum, FText).

(** The handlers of these scripts tell a missing file from every other
    exception; the latter carry the name of their class. *)
Inductive exn : Type :=
  | FileNotFoundError
  | Failure (class : string).

#[global] Instance frames_ret : MRet (sum exn) := fun _ x => inr x.
#[global] Instance frames_bind : MBind (sum exn) := fun _ _ f m =>
  match m with inl e => inl e | inr x => f x end.

(** A frame read with [header=None]: its rows, each with one field per
    column. *)
Definition frame : Type := list (list field).

(** What the [pd.read_csv] call of a script returns for a path, or the
    exception it raises. *)
Definition reader : Type := string -> exn + frame.

(** [data.iloc[r, c]] *)
Definition iloc (data : frame) (r c : nat) : exn + field :=
  match data !! r with
  | Some row =>
      match row !! c with
      | Some f => inr f
      | None => inl (Failure "IndexError")
      end
  | None => inl (Failure "IndexError")
  end.

Definition ncols (data : frame) : nat :=
  match data with
  | [] => 0
  | row :: _ => length row
  end.

(** [data.iloc[:, c]] *)
Definition column (data : frame) (c : nat) : exn + list field :=
  if decide (c < ncols data)
  then inr ((fun row => default (FNum NaN) (row !! c)) <$> data)
  else inl (Failure "IndexError").

(** [column.mean()]: NaN is skipped; a column that holds text has the dtype
    object and no mean. *)
Definition numbers (col : list field) : option (list dbl) :=
  mapM (fun f => match f with FNum x => Some x | FText _ => None end) col.

Definition mean (col : list field) : exn + dbl :=
  match numbers col with
  | Some xs => inr (nanmean xs)
  | None => inl (Failure "TypeError")
  end.

(** A value stored into a float array.  numpy converts text with Python's
    [float]: [py_float s] is the number [float(s)] returns ([float('1_000')]
    is 1000.0), [None] when it raises ValueError. *)
Definition to_float (py_float : string -> option dbl) (f : field) : exn + dbl :=
  match f with
  | FNum x => inr x
  | FText s =>
      match py_float s with
      | Some x => inr x
      | None => inl (Failure "ValueError")
      end
  end.

(** [os.path.join(folder_path, f'ite{s}', file_name)] *)
Definition log_path (folder : string) (s : nat) (file_name : string) : string :=
  path_join (path_join folder ("ite" +:+ pretty s)) file_name.

(** The loops [for s in range(1, num_simulations + 1)] and
    [for j, num_devices in enumerate(device_counts)]. *)
Definition positions (n : nat) (device_counts : list Z) : list (nat * (nat * Z)) :=
  s ← seq 1 n;
  dv ← enumerate device_counts;
  [(s, dv)].

End Frames.

(** ** tutorial4/python/plotApDelay.py *)

Module PlotApDelay.

Import Frames.
Import PlotGenericLine (set3, get3, nanmean_axis0).

Definition place_types : list string :=
  ["AP 1 (60 km/h)"; "AP 4 (40 km/h)"; "AP 6 (20 km/h)"].

Definition upload_path (folder : string) (s : nat) (num_devices : Z) : string :=
  log_path folder s
    ("SIMRESULT_TRAFFIC_HEURISTIC_DEFAULT_POLICY_" +:+ pretty num_devices
       +:+ "DEVICES_AP_UPLOAD_DELAY.log").

Definition download_path (folder : string) (s : nat) (num_devices : Z) : string :=
  log_path folder s
    ("SIMRESULT_TRAFFIC_HEURISTIC_DEFAULT_POLICY_" +:+ pretty num_devices
       +:+ "DEVICES_AP_DOWNLOAD_DELAY.log").

(** [np.full((n, m, d), np.nan)] *)
Definition full_nan (n m d : nat) : list (list (list dbl)) :=
  replicate n (replicate m (replicate d NaN)).

(** [results[s, i, j] = v]: IndexError outside the array. *)
Definition assign (results : list (list (list dbl))) (s i j : nat) (v : dbl)
  : exn + list (list (list dbl)) :=
  match get3 results s i j with
  | Some _ => inr (set3 results s i j v)
  | None => inl (Failure "IndexError")
  end.

(** Lines 31-32 for the place [i]. *)
Definition place (data1 data2 : frame) (s j i : nat)
    (results : list (list (list dbl))) : exn + list (list (list dbl)) :=
  up ← column data1 (i + 1) ≫= mean;
  down ← column data2 (i + 1) ≫= mean;
  assign results s i j (dadd up down).

(** The loop of line 30 inside the [try]: an exception ends it and leaves the
    array as the passes before it made it. *)
Fixpoint places (data1 data2 : frame) (s j : nat) (indices : list nat)
    (results : list (list (list dbl))) : list (list (list dbl)) :=
  match indices with
  | [] => results
  | i :: indices =>
      match place data1 data2 s j i results with
      | inr results' => places data1 data2 s j indices results'
      | inl _ => results
      end
  end.

(** Lines 20-34 for the iteration [s] (from 1) and the device count at
    [j]. *)
Definition body (read : reader) (folder : string)
    (results : list (list (list dbl))) (p : nat * (nat * Z))
  : list (list (list dbl)) :=
  let '(s, (j, num_devices)) := p in
  match read (upload_path folder s num_devices) with
  | inl _ => results
  | inr data1 =>
      match read (download_path folder s num_devices) with
      | inl _ => results
      | inr data2 => places data1 data2 s j (seq 0 (length place_types)) results
      end
  end.

(** Lines 16-34. *)
Definition results (read : reader) (folder : string) (n : nat)
    (device_counts : list Z) : list (list (list dbl)) :=
  foldl (body read folder)
    (full_nan n (length place_types) (length device_counts))
    (positions n device_counts).

(** Line 36. *)
Definition avg_results (read : reader) (folder : string) (n : nat)
    (device_counts : list Z) : list (list dbl) :=
  nanmean_axis0 (length place_types) (length device_counts)
    (results read folder n device_counts).

(** The sum of the two column means for the place [i], or the exception
    line 31 raises. *)
Definition delay_of (data1 data2 : frame) (i : nat) : exn + dbl :=
  up ← column data1 (i + 1) ≫= mean;
  down ← column data2 (i + 1) ≫= mean;
  inr (dadd up down).

(** What the pass of iteration [s] and device count [num_devices] can leave
    in the cell of the place [i]: the delay of that place when the two logs
    are read and no place up to [i] raises, NaN otherwise. *)
Definition stored (read : reader) (folder : string) (s : nat) (num_devices : Z)
    (i : nat) : dbl :=
  match read (upload_path folder s num_devices),
        read (download_path folder s num_devices) with
  | inr data1, inr data2 =>
      match mapM (delay_of data1 data2) (seq 0 (S i)) with
      | inr delays => default NaN (last delays)
      | inl _ => NaN
      end
  | _, _ => NaN
  end.

(** Sample readers: every log holds a time column and three delay columns
    with the values 1, 2 and 3; no log exists. *)
Definition read_one_two_three : reader :=
  fun _ => inr [[FNum (Fin 0); FNum (Fin 1); FNum (Fin 2); FNum (Fin 3)]].

Definition read_nothing : reader := fun _ => inl FileNotFoundError.

End PlotApDelay.

(** ** tutorial3/python/plotLocation.py *)

Module PlotLocation.

Import Frames.

Definition place_count : nat := 14.

Definition file_path (folder : string) (s : nat) (num_devices : Z) : string :=
  log_path folder s
    ("SIMRESULT_DEFAULT_SCENARIO_UTILIZATION_BASED_" +:+ pretty num_devices
       +:+ "DEVICES_LOCATION.log").

(** [data.mean(axis=0).values]: one mean per column. *)
Definition column_means (data : frame) : exn + list dbl :=
  mapM (fun c => column data c ≫= mean) (seq 0 (ncols data)).

(** [row += values]: the lengths have to agree, or [values] has a single
    entry that is added to every entry of the row. *)
Definition add_values (row values : list dbl) : exn + list dbl :=
  if decide (length values = length row) then inr (zip_with dadd row values)
  else
    match values with
    | [v] => inr ((fun x => dadd x v) <$> row)
    | _ => inl (Failure "ValueError")
    end.

Inductive message : Type :=
  | WarningFileNotFound (path : string)
  | ErrorReading (path : string) (class : string).

Record state : Type := {
  table : list (list dbl);
  console : list message
}.

(** [results[i, :] += values] on the table. *)
Definition add_to_row (i : nat) (f : list dbl -> list dbl) (t : list (list dbl))
  : list (list dbl) :=
  alter f i t.

(** Lines 32-48 for the iteration [s] and the device count at [i]. *)
Definition body (read : reader) (folder : string) (st : state)
    (p : nat * (nat * Z)) : state :=
  let '(s, (i, num_devices)) := p in
  let path := file_path folder s num_devices in
  let row := default [] (table st !! i) in
  match (data ← read path; values ← column_means data; add_values row values) with
  | inr row' =>
      {| table := add_to_row i (fun _ => row') (table st); console := console st |}
  | inl FileNotFoundError =>
      {| table := add_to_row i (fmap (M:=list) (fun x => dadd x NaN)) (table st);
         console := console st ++ [WarningFileNotFound path] |}
  | inl (Failure class) =>
      {| table := add_to_row i (fmap (M:=list) (fun x => dadd x NaN)) (table st);
         console := console st ++ [ErrorReading path class] |}
  end.

(** Lines 27-51: the sums, and the table after [results /= num_simulations]. *)
Definition sums (read : reader) (folder : string) (n : nat)
    (device_counts : list Z) : state :=
  foldl (body read folder)
    {| table := replicate (length device_counts) (replicate place_count (Fin 0));
       console := [] |}
    (positions n device_counts).

Definition results (read : reader) (folder : string) (n : nat)
    (device_counts : list Z) : list (list dbl) :=
  fmap (M:=list) (fmap (M:=list) (fun x => ddiv x (Fin (INR n))))
    (table (sums read folder n device_counts)).

(** What the [try] block of a pass has to add to a row of [place_count]
    entries, or the exception it raises. *)
Definition broadcast (values : list dbl) : exn + list dbl :=
  if decide (length values = place_count) then inr values
  else
    match values with
    | [v] => inr (replicate place_count v)
    | _ => inl (Failure "ValueError")
    end.

Definition attempt (read : reader) (folder : string) (s : nat) (num_devices : Z)
  : exn + list dbl :=
  data ← read (file_path folder s num_devices);
  values ← column_means data;
  broadcast values.

(** What a pass adds: the values of the [try] block, or NaN for every place
    from the handler. *)
Definition added (read : reader) (folder : string) (s : nat) (num_devices : Z)
  : list dbl :=
  match attempt read folder s num_devices with
  | inr values => values
  | inl _ => replicate place_count NaN
  end.

(** Sample readers: logs of one row that holds 7 for each of 14 places, and
    the same logs with the one of iteration 2 at 100 devices missing. *)
Definition read_sevens : reader :=
  fun _ => inr [replicate 14 (FNum (Fin 7))].

Definition read_sevens_but_one : reader :=
  fun path =>
    if decide (path = file_path "sim_results" 2 100) then inl FileNotFoundError
    else inr [replicate 14 (FNum (Fin 7))].

End PlotLocation.

(** ** plotDelayReasonAsBar.py of tutorial 1 and of tutorial 3 *)

Module PlotDelayReasonAsBar.

Import Frames.

(** The table [all_results]: per iteration and device count the pair of
    values. *)
Definition table : Type := list (list (dbl * dbl)).

(** [np.zeros((n, d, 2))] *)
Definition zeros (n d : nat) : table := replicate n (replicate d (Fin 0, Fin 0)).

(** [all_results[s, j, k] = v] for k = 0 and 1, and [all_results[s, j, :]]. *)
Definition set_first (t : table) (s j : nat) (v : dbl) : table :=
  alter (alter (fun p => (v, p.2)) j) s t.

Definition set_second (t : table) (s j : nat) (v : dbl) : table :=
  alter (alter (fun p => (p.1, v)) j) s t.

Definition set_both (t : table) (s j : nat) (v : dbl * dbl) : table :=
  alter (alter (fun _ => v) j) s t.

Definition get (t : table) (s j : nat) : option (dbl * dbl) :=
  row ← t !! s; row !! j.

(** The two fields the plot is made of: processing time and network delay, on
    the edge or on the cloud. *)
Definition pick (is_edge : bool) (data : frame) : exn + (field * field) :=
  value1 ← (if is_edge then iloc data 1 5 else iloc data 2 5);
  value2 ← (if is_edge then iloc data 4 0 else iloc data 4 2);
  inr (value1, value2).

(** [np.nanmean(all_results, axis=0)] *)
Definition nanmean_pairs (d : nat) (t : table) : list (dbl * dbl) :=
  (fun j =>
     let cells := omap (fun plane => plane !! j) t in
     (nanmean (cells.*1), nanmean (cells.*2)))
  <$> seq 0 d.

Module Tutorial1.

Definition file_path (folder : string) (s : nat) (num_devices : Z) : string :=
  log_path folder s
    ("SIMRESULT_DEFAULT_SCENARIO_WORST_FIT_" +:+ pretty num_devices
       +:+ "DEVICES_ALL_APPS_GENERIC.log").

Inductive message : Type :=
  | WarningFileNotFound (path : string)
  | ErrorReading (path : string) (class : string).

Record state : Type := {
  all_results : table;
  console : list message
}.

(** Lines 29-55.  The two entries are assigned one after the other; the
    handlers overwrite both. *)
Definition body (py_float : string -> option dbl) (read : reader) (folder : string)
    (is_edge : bool) (st : state) (p : nat * (nat * Z)) : state :=
  let '(s, (j, num_devices)) := p in
  let path := file_path folder s num_devices in
  let t := all_results st in
  match read path ≫= pick is_edge with
  | inr (value1, value2) =>
      match to_float py_float value1 with
      | inr v1 =>
          let t := set_first t (s - 1) j v1 in
          match to_float py_float value2 with
          | inr v2 =>
              {| all_results := set_second t (s - 1) j v2; console := console st |}
          | inl _ =>
              {| all_results := set_both t (s - 1) j (NaN, NaN);
                 console := console st ++ [ErrorReading path "ValueError"] |}
          end
      | inl _ =>
          {| all_results := set_both t (s - 1) j (NaN, NaN);
             console := console st ++ [ErrorReading path "ValueError"] |}
      end
  | inl FileNotFoundError =>
      {| all_results := set_both t (s - 1) j (NaN, NaN);
         console := console st ++ [WarningFileNotFound path] |}
  | inl (Failure class) =>
      {| all_results := set_both t (s - 1) j (NaN, NaN);
         console := console st ++ [ErrorReading path class] |}
  end.

Definition read_loop (py_float : string -> option dbl) (read : reader)
    (folder : string) (is_edge : bool) (n : nat) (device_counts : list Z) : state :=
  foldl (body py_float read folder is_edge)
    {| all_results := zeros n (length device_counts); console := [] |}
    (positions n device_counts).

(** Line 58. *)
Definition results (py_float : string -> option dbl) (read : reader)
    (folder : string) (is_edge : bool) (n : nat) (device_counts : list Z)
  : list (dbl * dbl) :=
  nanmean_pairs (length device_counts)
    (all_results (read_loop py_float read folder is_edge n device_counts)).

End Tutorial1.

Module Tutorial3.

Definition file_path (folder : string) (s : nat) (num_devices : Z) : string :=
  log_path folder s
    ("SIMRESULT_DEFAULT_SCENARIO_RANDOM_FIT_" +:+ pretty num_devices
       +:+ "DEVICES_ALL_APPS_GENERIC.log").

(** Lines 17-25.  The pair is assigned at once, each entry converted as
    above (a number next to text is printed and read back, which returns the
    same number); the handler prints nothing. *)
Definition body (py_float : string -> option dbl) (read : reader) (folder : string)
    (is_edge : bool) (t : table) (p : nat * (nat * Z)) : table :=
  let '(s, (j, num_devices)) := p in
  let path := file_path folder s num_devices in
  match (values ← read path ≫= pick is_edge;
         v1 ← to_float py_float values.1; v2 ← to_float py_float values.2;
         inr (v1, v2)) with
  | inr v => set_both t (s - 1) j v
  | inl _ => set_both t (s - 1) j (NaN, NaN)
  end.

Definition read_loop (py_float : string -> option dbl) (read : reader)
    (folder : string) (is_edge : bool) (n : nat) (device_counts : list Z) : table :=
  foldl (body py_float read folder is_edge) (zeros n (length device_counts))
    (positions n device_counts).

(** Line 27. *)
Definition results (py_float : string -> option dbl) (read : reader)
    (folder : string) (is_edge : bool) (n : nat) (device_counts : list Z)
  : list (dbl * dbl) :=
  nanmean_pairs (length device_counts)
    (read_loop py_float read folder is_edge n device_counts).

End Tutorial3.

(** The pair a position contributes: the two fields as numbers (text as
    the number [float] makes of it), or NaN twice. *)
Definition pair_of (py_float : string -> option dbl) (is_edge : bool)
    (outcome : exn + frame) : dbl * dbl :=
  match outcome with
  | inr data =>
      match pick is_edge data with
      | inr (value1, value2) =>
          match to_float py_float value1, to_float py_float value2 with
          | inr x1, inr x2 => (x1, x2)
          | _, _ => (NaN, NaN)
          end
      | inl _ => (NaN, NaN)
      end
  | inl _ => (NaN, NaN)
  end.

(** A pass that stores the pair of its position, for the logs named by
    [path_of]. *)
Definition store_pair (py_float : string -> option dbl) (path_of : nat -> Z -> string)
    (read : reader) (is_edge : bool) (t : table) (p : nat * (nat * Z)) : table :=
  set_both t (p.1 - 1) p.2.1 (pair_of py_float is_edge (read (path_of p.1 p.2.2))).

(** A sample log block of five rows and six columns, with 3 as the edge
    processing time and the text 1_000 as the WLAN delay; a stand-in for
    [float] that makes 1000 of that text and rejects every other. *)
Definition block : frame :=
  [replicate 6 (FNum (Fin 0));
   [FNum (Fin 0); FNum (Fin 0); FNum (Fin 0); FNum (Fin 0); FNum (Fin 0); FNum (Fin 3)];
   replicate 6 (FNum (Fin 0));
   replicate 6 (FNum (Fin 0));
   [FText "1_000"; FNum (Fin 0); FNum (Fin 0); FNum (Fin 0); FNum (Fin 0);
    FNum (Fin 0)]].

Definition read_block : reader := fun _ => inr block.

Definition float_of_sample (s : string) : option dbl :=
  if decide (s = "1_000") then Some (Fin 1000) else None.

End PlotDelayReasonAsBar.

(** * Properties *)

(** ** Arithmetic on doubles *)

Module DblFacts.

Lemma dsum_fin (xs : list R) : dsum (Fin <$> xs) = Fin (Rsum xs).
Proof.
  unfold dsum. induction xs as [|x xs IH]; [done|].
  rewrite fmap_cons. cbn [foldr]. by rewrite IH.
Qed.

Lemma dsum_nan xs : dsum (NaN :: xs) = NaN.
Proof. done. Qed.

Lemma Rsum_replicate k c : Rsum (replicate k c) = (INR k * c)%R.
Proof.
  induction k as [|k IH]; [simpl; lra|].
  rewrite S_INR. simpl. rewrite IH. lra.
Qed.

Lemma INR_ge_2 k : 2 ≤ k → (2 <= INR k)%R.
Proof. intros H. apply (le_INR 2 k) in H. simpl in H. lra. Qed.

Lemma np_std_fin (xs : list R) :
  2 ≤ length xs →
  let mean := (Rsum xs / INR (length xs))%R in
  let var := (Rsum ((fun x => (x - mean) * (x - mean))%R <$> xs)
              / (INR (length xs) - 1))%R in
  np_std_ddof1 (Fin <$> xs) = if Rlt_dec var 0 then NaN else Fin (sqrt var).
Proof.
  intros Hlen mean var. unfold np_std_ddof1. cbv zeta.
  pose proof (INR_ge_2 _ Hlen) as Hn.
  set (m := ddiv (dsum (Fin <$> xs)) (Fin (INR (length (Fin <$> xs))))).
  assert (m = Fin mean) as ->.
  { unfold m. rewrite length_fmap, dsum_fin. unfold ddiv.
    destruct (Req_dec_T (INR (length xs)) 0) as [?|_]; [lra|done]. }
  rewrite length_fmap, <- list_fmap_compose.
  rewrite minus_INR by lia. change (INR 1) with 1%R.
  change ((fun x => dmul (dsub x (Fin mean)) (dsub x (Fin mean))) ∘ Fin)
    with (Fin ∘ (fun x => (x - mean) * (x - mean))%R).
  rewrite list_fmap_compose, dsum_fin. unfold ddiv.
  destruct (Req_dec_T (INR (length xs) - 1) 0) as [?|_]; [lra|].
  done.
Qed.

Lemma np_std_constant k c :
  2 ≤ k → np_std_ddof1 (replicate k (Fin c)) = Fin 0.
Proof.
  intros Hk. rewrite <- (fmap_replicate Fin).
  rewrite np_std_fin by (by rewrite length_replicate).
  rewrite length_replicate, Rsum_replicate, fmap_replicate, Rsum_replicate.
  pose proof (INR_ge_2 _ Hk) as Hn.
  replace (INR k * c / INR k)%R with c by (field; lra).
  replace (INR k * ((c - c) * (c - c)) / (INR k - 1))%R with 0%R by (field; lra).
  destruct (Rlt_dec 0 0); [lra|]. by rewrite sqrt_0.
Qed.

Lemma np_std_nan k : 1 ≤ k → np_std_ddof1 (replicate k NaN) = NaN.
Proof.
  intros Hk. destruct k as [|k]; [lia|]. unfold np_std_ddof1. simpl. done.
Qed.

Lemma finite_part_all_nan (xs : list dbl) :
  Forall (fun x => x = NaN) xs → finite_part xs = [].
Proof. induction 1 as [|x xs -> _ IH]; [done|]. simpl. apply IH. Qed.

Lemma ddiv_nan_l y : ddiv NaN y = NaN.
Proof. done. Qed.

Lemma nanmean_no_sample xs : finite_part xs = [] → nanmean xs = NaN.
Proof. unfold nanmean. by intros ->. Qed.

Lemma dsub_nan_r x : dsub x NaN = NaN.
Proof. by destruct x. Qed.

Lemma Rsum_squares_nonneg (m : R) xs :
  (0 <= Rsum ((fun x => (x - m) * (x - m))%R <$> xs))%R.
Proof.
  unfold Rsum. induction xs as [|x xs IH]; [simpl; lra|].
  rewrite fmap_cons. cbn [foldr].
  pose proof (Rle_0_sqr (x - m)) as Hsq. unfold Rsqr in Hsq. lra.
Qed.

Lemma Rsum_squares_zero (m : R) xs :
  Rsum ((fun x => (x - m) * (x - m))%R <$> xs) = 0%R → ∀ x, x ∈ xs → x = m.
Proof.
  induction xs as [|y xs IH]; intros Hsum x Hx; [by apply elem_of_nil in Hx|].
  rewrite fmap_cons in Hsum. unfold Rsum in Hsum. cbn [foldr] in Hsum.
  fold (Rsum ((fun x => (x - m) * (x - m))%R <$> xs)) in Hsum.
  pose proof (Rsum_squares_nonneg m xs) as Hnn.
  pose proof (Rle_0_sqr (y - m)) as Hsq. unfold Rsqr in Hsq.
  assert ((y - m) * (y - m) = 0)%R as Hy by lra.
  apply elem_of_cons in Hx as [->|Hx].
  - apply Rmult_integral in Hy. lra.
  - apply IH; [lra|done].
Qed.

Lemma np_std_short (xs : list R) : length xs ≤ 1 → np_std_ddof1 (Fin <$> xs) = NaN.
Proof.
  intros Hlen. unfold np_std_ddof1. cbv zeta. rewrite length_fmap.
  assert (INR (length xs - 1) = 0%R) as ->.
  { replace (length xs - 1) with 0 by lia. done. }
  destruct (dsum _) as [s|]; simpl; [|done].
  destruct (Req_dec_T 0 0); [done|lra].
Qed.

Lemma nanmean_fin xs :
  finite_part xs ≠ [] →
  nanmean xs = Fin (Rsum (finite_part xs) / INR (length (finite_part xs))).
Proof. unfold nanmean. by destruct (finite_part xs). Qed.

Lemma fmap_constant {A B} (f : A → B) (b : B) (l : list A) :
  (∀ a, f a = b) → f <$> l = replicate (length l) b.
Proof.
  intros Hf. induction l as [|a l IH]; [done|].
  rewrite fmap_cons, Hf, IH. done.
Qed.

Lemma ddiv_zero x : ddiv x (Fin 0) = NaN.
Proof.
  destruct x; simpl; [|done]. destruct (Req_dec_T 0 0); [done|lra].
Qed.

End DblFacts.

(** ** plotGenericLine.py *)

Module PlotGenericLineFacts.

Import PlotGenericLine DblFacts.

Lemma get2_alter_insert (plane : list (list dbl)) i j v i' j' :
  get2 (alter (<[j := v]>) i plane) i' j' =
  if decide (i = i' ∧ j = j') then get2 plane i j ≫= (fun _ => Some v)
  else get2 plane i' j'.
Proof.
  unfold get2. rewrite list_lookup_alter.
  destruct (decide (i = i')) as [<-|Hi].
  - destruct (plane !! i) as [row|] eqn:Hrow; simpl.
    + rewrite list_lookup_insert.
      destruct (decide (j = j')) as [<-|Hj].
      * destruct (row !! j) eqn:Hj; simpl.
        -- apply lookup_lt_Some in Hj.
           rewrite !decide_True by auto. done.
        -- apply lookup_ge_None in Hj.
           rewrite decide_False by lia. rewrite decide_True by auto. done.
      * rewrite decide_False by tauto. rewrite decide_False by tauto. done.
    + by repeat case_decide.
  - rewrite decide_False by tauto. done.
Qed.

Lemma get3_set3 (a : list (list (list dbl))) s i j v s' i' j' :
  get3 (set3 a s i j v) s' i' j' =
  if decide (s = s' ∧ i = i' ∧ j = j') then get3 a s i j ≫= (fun _ => Some v)
  else get3 a s' i' j'.
Proof.
  unfold get3, set3. rewrite list_lookup_alter.
  destruct (decide (s = s')) as [<-|Hs].
  - destruct (a !! s) as [plane|]; simpl.
    + rewrite get2_alter_insert. repeat case_decide; try tauto; done.
    + by repeat case_decide.
  - rewrite decide_False by tauto. done.
Qed.

Lemma get3_zeros3 n m d s i j :
  s < n -> i < m -> j < d -> get3 (zeros3 n m d) s i j = Some (Fin 0).
Proof.
  intros Hs Hi Hj. unfold get3, get2, zeros3.
  rewrite lookup_replicate_2 by done. simpl.
  rewrite lookup_replicate_2 by done. simpl.
  by rewrite lookup_replicate_2.
Qed.

Lemma enumerate_lookup {A} (l : list A) k :
  enumerate l !! k = (fun x => (k, x)) <$> l !! k.
Proof.
  unfold enumerate. rewrite lookup_zip_with.
  destruct (l !! k) as [x|] eqn:Hk; simpl.
  - rewrite lookup_seq_lt by (by eapply lookup_lt_Some). done.
  - by destruct (seq 0 (length l) !! k).
Qed.

Lemma elem_of_enumerate {A} (l : list A) k x :
  (k, x) ∈ enumerate l ↔ l !! k = Some x.
Proof.
  rewrite list_elem_of_lookup. split.
  - intros [k' Hk']. rewrite enumerate_lookup in Hk'.
    destruct (l !! k') eqn:E; simplify_eq/=. done.
  - intros Hk. exists k. rewrite enumerate_lookup, Hk. done.
Qed.

Lemma elem_of_positions n scs devs (p : position) :
  p ∈ positions n scs devs ↔
  ∃ s i sc j nd, p = (s, (i, sc), (j, nd)) ∧ 1 ≤ s ≤ n ∧
                 scs !! i = Some sc ∧ devs !! j = Some nd.
Proof.
  unfold positions. rewrite list_elem_of_bind. split.
  - intros (s & Hp & Hs). apply list_elem_of_bind in Hp as ([i sc] & Hp & Hi).
    apply list_elem_of_bind in Hp as ([j nd] & Hp & Hj).
    apply list_elem_of_singleton in Hp. subst p.
    apply elem_of_seq in Hs. apply elem_of_enumerate in Hi, Hj.
    exists s, i, sc, j, nd. repeat split; auto; lia.
  - intros (s & i & sc & j & nd & -> & Hs & Hi & Hj).
    exists s. split; [|apply elem_of_seq; lia].
    apply list_elem_of_bind. exists (i, sc). split; [|by apply elem_of_enumerate].
    apply list_elem_of_bind. exists (j, nd). split; [|by apply elem_of_enumerate].
    by apply list_elem_of_singleton.
Qed.

Section LoopFacts.

Variable fs : filesystem.
Variable folder : string.
Variable row_offset : nat.
Variable column_offset : Z.
Variable app_type : string.
Variable calculate_percentage : option string.

#[local] Abbreviation step' := (step fs folder row_offset column_offset app_type calculate_percentage).
#[local] Abbreviation try_body' := (try_body fs row_offset column_offset calculate_percentage).
#[local] Abbreviation path' := (position_path folder app_type).

Lemma step_cell st p q :
  cell_at (all_results (step' st p)) q =
  if decide (index_of p = q)
  then cell_at (all_results st) q ≫= (fun _ => Some (cell_value (try_body' (path' p))))
  else cell_at (all_results st) q.
Proof.
  destruct p as [[s [i sc]] [j nd]], q as [[s' i'] j']. simpl.
  rewrite get3_set3.
  destruct (decide (s - 1 = s' ∧ i = i' ∧ j = j')) as [(<- & <- & <-)|Hn].
  - by rewrite decide_True.
  - rewrite decide_False; [done|]. intros [= <- <- <-]. tauto.
Qed.

Lemma step_opened st p : opened (step' st p) = opened st ++ [path' p].
Proof. by destruct p as [[s [i sc]] [j nd]]. Qed.

Lemma foldl_step_opened ps st :
  opened (foldl step' st ps) = opened st ++ (path' <$> ps).
Proof.
  revert st. induction ps as [|p ps IH]; intros st; simpl.
  - by rewrite app_nil_r.
  - rewrite IH, step_opened, <- app_assoc. done.
Qed.

Lemma foldl_step_unchanged ps st q :
  (∀ p, p ∈ ps → index_of p ≠ q) →
  cell_at (all_results (foldl step' st ps)) q = cell_at (all_results st) q.
Proof.
  revert st. induction ps as [|p ps IH]; intros st Hq; simpl; [done|].
  rewrite IH by (intros; apply Hq; by right).
  rewrite step_cell, decide_False; [done|]. apply Hq. by left.
Qed.

Lemma foldl_step_defined ps st q :
  is_Some (cell_at (all_results st) q) →
  is_Some (cell_at (all_results (foldl step' st ps)) q).
Proof.
  revert st. induction ps as [|p ps IH]; intros st Hq; simpl; [done|].
  apply IH. rewrite step_cell. case_decide; [|done].
  destruct Hq as [v ->]. by eexists.
Qed.

Lemma foldl_step_cell ps st p :
  (∀ p1 p2, p1 ∈ ps → p2 ∈ ps → index_of p1 = index_of p2 → path' p1 = path' p2) →
  p ∈ ps →
  is_Some (cell_at (all_results st) (index_of p)) →
  cell_at (all_results (foldl step' st ps)) (index_of p)
  = Some (cell_value (try_body' (path' p))).
Proof.
  induction ps as [|p0 ps IH] using rev_ind; intros Hfun Hp Hdef.
  - by apply elem_of_nil in Hp.
  - rewrite foldl_app. simpl. rewrite step_cell.
    destruct (decide (index_of p0 = index_of p)) as [Heq|Hne].
    + rewrite (Hfun p p0); [| done | apply elem_of_app; right; by left | done].
      destruct (foldl_step_defined ps st _ Hdef) as [v ->]. done.
    + apply IH; [| |done].
      * intros p1 p2 H1 H2. apply Hfun; apply elem_of_app; by left.
      * apply elem_of_app in Hp as [Hp|Hp]; [done|].
        apply list_elem_of_singleton in Hp. congruence.
Qed.

Lemma read_loop_opened n scs devs :
  opened (read_loop fs folder row_offset column_offset app_type
            calculate_percentage n scs devs)
  = path' <$> positions n scs devs.
Proof. unfold read_loop. by rewrite foldl_step_opened. Qed.

Lemma read_loop_cell n scs devs s i sc j nd :
  1 ≤ s ≤ n → scs !! i = Some sc → devs !! j = Some nd →
  get3 (all_results (read_loop fs folder row_offset column_offset app_type
                       calculate_percentage n scs devs)) (s - 1) i j
  = Some (cell_value (try_body' (file_path folder app_type s sc nd))).
Proof.
  intros Hs Hi Hj. unfold read_loop.
  apply (foldl_step_cell _ _ (s, (i, sc), (j, nd))).
  - intros p1 p2 H1 H2 Heq.
    apply elem_of_positions in H1 as (s1 & i1 & sc1 & j1 & nd1 & -> & ? & ? & ?).
    apply elem_of_positions in H2 as (s2 & i2 & sc2 & j2 & nd2 & -> & ? & ? & ?).
    simpl in Heq. injection Heq as Hs12 <- <-.
    assert (s1 = s2) as <- by lia.
    assert (sc1 = sc2) as <- by congruence.
    assert (nd1 = nd2) as <- by congruence. done.
  - apply elem_of_positions. by exists s, i, sc, j, nd.
  - simpl. rewrite get3_zeros3; [done | lia | |].
    + by eapply lookup_lt_Some.
    + by eapply lookup_lt_Some.
Qed.

Lemma foldl_step_length ps st :
  length (all_results (foldl step' st ps)) = length (all_results st).
Proof.
  revert st. induction ps as [|p ps IH]; intros st; simpl; [done|].
  rewrite IH. destruct p as [[s [i sc]] [j nd]]. simpl.
  unfold set3. by rewrite length_alter.
Qed.

Lemma read_loop_length n scs devs :
  length (all_results (read_loop fs folder row_offset column_offset app_type
                         calculate_percentage n scs devs)) = n.
Proof.
  unfold read_loop. rewrite foldl_step_length. simpl.
  unfold zeros3. by rewrite length_replicate.
Qed.

End LoopFacts.

Lemma cell_column_tabulate (a : list (list (list dbl))) i j (f : nat → dbl) :
  (∀ k, k < length a → get3 a k i j = Some (f k)) →
  cell_column a i j = f <$> seq 0 (length a).
Proof.
  revert f. induction a as [|plane a IH]; intros f Hf; [done|].
  unfold cell_column in *. simpl.
  pose proof (Hf 0 ltac:(simpl; lia)) as H0. unfold get3 in H0. simpl in H0.
  rewrite H0. f_equal.
  rewrite <- fmap_S_seq, <- list_fmap_compose.
  apply IH. intros k Hk. apply (Hf (S k)). simpl. lia.
Qed.

Lemma mapM_inr_lookup {A B} (f : A → exn + B) l out i x :
  mapM f l = inr out → l !! i = Some x →
  ∃ y, out !! i = Some y ∧ f x = inr y.
Proof.
  revert out i. induction l as [|x0 l IH]; intros out i Hm Hi; [done|].
  simpl in Hm. destruct (f x0) as [e|y0] eqn:Hx0; [done|]. simpl in Hm.
  destruct (mapM f l) as [e|k] eqn:Hl; [done|]. simpl in Hm.
  injection Hm as <-. destruct i as [|i]; simpl in *.
  - injection Hi as <-. eauto.
  - eapply IH; eauto.
Qed.

Lemma mapM_inr_intro {A B} (f : A → exn + B) (g : A → B) l :
  (∀ x, x ∈ l → f x = inr (g x)) → mapM f l = inr (g <$> l).
Proof.
  induction l as [|x0 l IH]; intros Hf; [done|].
  simpl. rewrite (Hf x0) by left. simpl.
  rewrite IH by (intros; apply Hf; by right). done.
Qed.

Lemma mapM_inl {A B} (f : A → exn + B) l x e :
  x ∈ l → f x = inl e → ∃ e', mapM f l = inl e'.
Proof.
  induction l as [|x0 l IH]; intros Hx Hf; [by apply elem_of_nil in Hx|].
  simpl. apply elem_of_cons in Hx as [<-|Hx].
  - rewrite Hf. by eexists.
  - destruct (f x0); [by eexists|]. simpl.
    destruct (IH Hx Hf) as [e' ->]. by eexists.
Qed.

Lemma set3_planes (a : list (list (list dbl))) m s i j v :
  Forall (fun plane => length plane = m) a →
  Forall (fun plane => length plane = m) (set3 a s i j v).
Proof.
  intros Ha. unfold set3. apply Forall_alter; [done|].
  intros plane _ Hp. by rewrite length_alter.
Qed.

Lemma read_loop_planes fs folder row_offset column_offset app_type calc n scs devs :
  Forall (fun plane => length plane = length scs)
    (all_results (read_loop fs folder row_offset column_offset app_type calc n scs devs)).
Proof.
  unfold read_loop.
  generalize (positions n scs devs). intros ps.
  assert (Forall (fun plane : list (list dbl) => length plane = length scs)
            (zeros3 n (length scs) (length devs))) as H0.
  { unfold zeros3. apply Forall_replicate. by rewrite length_replicate. }
  revert H0. generalize (zeros3 n (length scs) (length devs)) as a0.
  generalize (@nil message) as c0. generalize (@nil string) as o0.
  induction ps as [|p ps IH]; intros o0 c0 a0 H0; simpl; [done|].
  destruct p as [[s [i sc]] [j nd]]. simpl. apply IH. by apply set3_planes.
Qed.

Lemma mapM_is_inr {A B} (f : A → exn + B) l :
  (∀ x, x ∈ l → ∃ y, f x = inr y) → ∃ out, mapM f l = inr out.
Proof.
  induction l as [|x0 l IH]; intros Hf; [by eexists|].
  simpl. destruct (Hf x0) as [y ->]; [by left|]. simpl.
  destruct IH as [out ->]; [intros; apply Hf; by right|]. by eexists.
Qed.

Section AggFacts.

Variable t_ppf : R → R → R.
Variable divisor : R.
Variable n m d : nat.
Variable a : list (list (list dbl)).

Lemma nd_row_ci_low i :
  i < m →
  nd_row (Nd2 (min_ci_vals t_ppf divisor n m d a)) i
  = inr ((fun j => (ci_vals t_ppf divisor n a i j).1) <$> seq 0 d).
Proof.
  intros Hi. unfold nd_row, min_ci_vals.
  rewrite list_lookup_fmap, lookup_seq_lt by done. done.
Qed.

Lemma nd_row_ci_high i :
  i < m →
  nd_row (Nd2 (max_ci_vals t_ppf divisor n m d a)) i
  = inr ((fun j => (ci_vals t_ppf divisor n a i j).2) <$> seq 0 d).
Proof.
  intros Hi. unfold nd_row, max_ci_vals.
  rewrite list_lookup_fmap, lookup_seq_lt by done. done.
Qed.

Lemma ci_vals_few_samples i j :
  length (finite_part (cell_column a i j)) < 2 →
  ci_vals t_ppf divisor n a i j = (Fin 0, Fin 0).
Proof.
  intros Hlen. unfold ci_vals, data_slice.
  case_decide; [|done]. rewrite length_fmap.
  rewrite decide_False by lia. done.
Qed.

Lemma results_row_mean i :
  n ≠ 1 → i < m →
  nd_row (results divisor n m d a) i
  = inr ((fun j => ddiv (nanmean (cell_column a i j)) (Fin divisor)) <$> seq 0 d).
Proof.
  intros Hn Hi. unfold results. rewrite decide_False by done.
  unfold nanmean_axis0. simpl.
  rewrite !list_lookup_fmap, lookup_seq_lt by done. simpl.
  by rewrite <- list_fmap_compose.
Qed.

Lemma results_row_single i y :
  n = 1 →
  nd_row (results divisor n m d a) i = inr y →
  m ≠ 1 ∧ d ≠ 1 ∧
  ∃ row, default [] (a !! 0) !! i = Some row ∧ y = (fun x => ddiv x (Fin divisor)) <$> row.
Proof.
  intros Hn. unfold results. rewrite decide_True by done. unfold squeeze.
  destruct (decide (m = 1)), (decide (d = 1)); simpl; try done.
  rewrite list_lookup_fmap.
  destruct (default [] (a !! 0) !! i) as [row|]; simpl; [|done].
  intros [= <-]. eauto.
Qed.

Lemma results_row_single_ok i plane :
  n = 1 → m ≠ 1 → d ≠ 1 → a !! 0 = Some plane → i < length plane →
  ∃ y, nd_row (results divisor n m d a) i = inr y.
Proof.
  intros Hn Hm Hd Ha Hi. unfold results. rewrite decide_True by done.
  unfold squeeze. rewrite Ha. simpl.
  destruct (decide (m = 1)), (decide (d = 1)); try done. simpl.
  rewrite list_lookup_fmap.
  destruct (lookup_lt_is_Some_2 plane i Hi) as [row ->]. by eexists.
Qed.

Lemma results_row_degenerate i :
  n = 1 → m = 1 ∨ d = 1 →
  nd_row (results divisor n m d a) i = inl IndexError.
Proof.
  intros Hn Hdeg. unfold results. rewrite decide_True by done. unfold squeeze.
  destruct (decide (m = 1)), (decide (d = 1)); simpl; try done. lia.
Qed.

End AggFacts.

Lemma length_positions n (scs : list string) (devs : list Z) :
  length (positions n scs devs) = n * length scs * length devs.
Proof.
  unfold positions.
  assert (∀ {A B} (l : list A) (f : A → list B) k,
            (∀ x, length (f x) = k) → length (l ≫= f) = length l * k) as Hb.
  { intros A B l f k Hf. induction l as [|x l IH]; [done|].
    rewrite bind_cons, length_app, Hf, IH. simpl. lia. }
  rewrite (Hb _ _ _ _ (length scs * length devs)).
  - rewrite length_seq. lia.
  - intros s. rewrite (Hb _ _ _ _ (length devs)).
    + unfold enumerate. rewrite length_zip_with, length_seq. lia.
    + intros sc. rewrite (Hb _ _ _ _ 1).
      * unfold enumerate. rewrite length_zip_with, length_seq. lia.
      * done.
Qed.

Lemma percentage_of_all_pos (v ta tb : R) :
  (0 < ta + tb)%R →
  percentage_of_all (FNum (Fin v)) (FNum (Fin ta)) (FNum (Fin tb))
  = inr (FNum (Fin (100 * v / (ta + tb)))).
Proof.
  intros Hpos. unfold percentage_of_all. simpl.
  destruct (Rlt_dec 0 (ta + tb)) as [_|Hn]; [|done].
  destruct (Req_dec_T (ta + tb) 0) as [Hz|_]; [lra|done].
Qed.

Lemma percentage_of_all_zero (value : field) (ta tb : R) :
  (ta + tb <= 0)%R →
  percentage_of_all value (FNum (Fin ta)) (FNum (Fin tb)) = inr (FNum (Fin 0)).
Proof.
  intros Hz. unfold percentage_of_all. simpl.
  destruct (Rlt_dec 0 (ta + tb)) as [Hp|_]; [lra|done].
Qed.

(** C7.  When the read of one position fails, with FileNotFoundError or any
    other exception, the loop body writes NaN into that position's cell and
    changes no other cell.  After the whole loop that cell is NaN, every cell
    holds the value of its own read only, and the paths handed to
    [pd.read_csv] are those of all positions in loop order: a failure never
    ends the loop. *)
Theorem read_failure_is_local
    (fs : filesystem) (folder : string) (row_offset : nat) (column_offset : Z)
    (app_type : string) (calculate_percentage : option string)
    (n : nat) (scenarios : list string) (device_counts : list Z)
    (s i : nat) (scenario : string) (j : nat) (num_devices : Z) (e : exn) :
  1 ≤ s ≤ n →
  scenarios !! i = Some scenario →
  device_counts !! j = Some num_devices →
  try_body fs row_offset column_offset calculate_percentage
    (file_path folder app_type s scenario num_devices) = inl e →
  let body := step fs folder row_offset column_offset app_type calculate_percentage in
  let final := read_loop fs folder row_offset column_offset app_type
                 calculate_percentage n scenarios device_counts in
  (∀ st s' i' j', (s', i', j') ≠ (s - 1, i, j) →
     get3 (all_results (body st (s, (i, scenario), (j, num_devices)))) s' i' j'
     = get3 (all_results st) s' i' j') ∧
  (∀ st, is_Some (get3 (all_results st) (s - 1) i j) →
     get3 (all_results (body st (s, (i, scenario), (j, num_devices)))) (s - 1) i j
     = Some NaN) ∧
  get3 (all_results final) (s - 1) i j = Some NaN ∧
  (∀ s' i' scenario' j' num_devices',
     1 ≤ s' ≤ n → scenarios !! i' = Some scenario' →
     device_counts !! j' = Some num_devices' →
     get3 (all_results final) (s' - 1) i' j'
     = Some (cell_value (try_body fs row_offset column_offset calculate_percentage
                           (file_path folder app_type s' scenario' num_devices')))) ∧
  opened final = position_path folder app_type <$> positions n scenarios device_counts ∧
  length (opened final) = n * length scenarios * length device_counts.
Proof.
  intros Hs Hi Hj Hfail body final.
  split; [|split; [|split; [|split; [|split]]]].
  - intros st s' i' j' Hne.
    change (cell_at (all_results (body st (s, (i, scenario), (j, num_devices))))
              (s', i', j') = cell_at (all_results st) (s', i', j')).
    unfold body. rewrite step_cell. rewrite decide_False; [done|].
    intros Heq. apply Hne. simpl in Heq. by injection Heq as <- <- <-.
  - intros st [v Hv].
    change (cell_at (all_results (body st (s, (i, scenario), (j, num_devices))))
              (s - 1, i, j) = Some NaN).
    unfold body. rewrite step_cell. rewrite decide_True by done.
    simpl. rewrite Hv. simpl. by rewrite Hfail.
  - unfold final. rewrite (read_loop_cell _ _ _ _ _ _ _ _ _ s i scenario j num_devices)
      by done. by rewrite Hfail.
  - intros s' i' sc' j' nd' Hs' Hi' Hj'. unfold final. by apply read_loop_cell.
  - apply read_loop_opened.
  - unfold final. rewrite read_loop_opened, length_fmap. apply length_positions.
Qed.

#[local] Arguments percentage_of_all : simpl never.

(** C4.  In percentage mode a value [v] read with the totals [ta] and [tb]
    of the same file is stored as [100 * v / (ta + tb)] when the total is
    positive and as 0 when it is zero (5 with totals 15 and 5 gives 25).  The
    transform is applied to the cell of each iteration, and with more than one
    iteration the mean that is reported is the NaN-skipping mean of those
    transformed cells, over the (non-zero) divisor. *)
Theorem percentage_of_all_per_iteration
    (fs : filesystem) (folder : string) (row_offset : nat) (column_offset : Z)
    (app_type : string) (n : nat) (scenarios : list string) (device_counts : list Z)
    (s i : nat) (scenario : string) (j : nat) (num_devices : Z)
    (row totals : list field) (v ta tb : R) :
  1 ≤ s ≤ n →
  scenarios !! i = Some scenario →
  device_counts !! j = Some num_devices →
  let path := file_path folder app_type s scenario num_devices in
  read_csv_row fs path row_offset = inr row →
  iloc row (column_offset - 1) = inr (FNum (Fin v)) →
  read_csv_row fs path 1 = inr totals →
  iloc totals 0 = inr (FNum (Fin ta)) →
  iloc totals 1 = inr (FNum (Fin tb)) →
  let cell s' := cell_value (try_body fs row_offset column_offset
                   (Some "percentage_of_all")
                   (file_path folder app_type s' scenario num_devices)) in
  let a := all_results (read_loop fs folder row_offset column_offset app_type
             (Some "percentage_of_all") n scenarios device_counts) in
  ((0 < ta + tb)%R →
     percentage_of_all (FNum (Fin v)) (FNum (Fin ta)) (FNum (Fin tb))
       = inr (FNum (Fin (100 * v / (ta + tb)))) ∧
     get3 a (s - 1) i j = Some (Fin (100 * v / (ta + tb)))) ∧
  ((ta + tb)%R = 0%R →
     percentage_of_all (FNum (Fin v)) (FNum (Fin ta)) (FNum (Fin tb))
       = inr (FNum (Fin 0)) ∧
     get3 a (s - 1) i j = Some (Fin 0)) ∧
  percentage_of_all (FNum (Fin 5)) (FNum (Fin 15)) (FNum (Fin 5))
    = inr (FNum (Fin 25)) ∧
  get3 a (s - 1) i j = Some (cell s) ∧
  (∀ t_ppf divisor, divisor ≠ 0%R → n ≠ 1 →
     ∃ sr, plot_series t_ppf divisor n (length scenarios) (length device_counts) a i
             = inr sr ∧
           ys sr !! j = Some (ddiv (nanmean (cell <$> seq 1 n)) (Fin divisor))).
Proof.
  intros Hs Hi Hj path Hrow Hv Htot Hta Htb cell a.
  assert (get3 a (s - 1) i j = Some (cell s)) as Hcell.
  { unfold a, cell. by apply read_loop_cell. }
  assert (cell s = cell_value (v' ← percentage_of_all (FNum (Fin v)) (FNum (Fin ta))
                                     (FNum (Fin tb)); store v')) as Hpct.
  { unfold cell, try_body. fold path. rewrite Hrow. simpl. rewrite Hv. simpl.
    rewrite Htot. simpl. rewrite Hta. simpl. rewrite Htb. done. }
  split; [|split; [|split; [|split]]].
  - intros Hpos. split; [by apply percentage_of_all_pos|].
    rewrite Hcell, Hpct, percentage_of_all_pos by done. done.
  - intros Hz. split; [apply percentage_of_all_zero; lra|].
    rewrite Hcell, Hpct, percentage_of_all_zero by lra. done.
  - rewrite percentage_of_all_pos by lra. do 3 f_equal. lra.
  - done.
  - intros t_ppf divisor _ Hn.
    assert (i < length scenarios) as Hi' by (by eapply lookup_lt_Some).
    assert (j < length device_counts) as Hj' by (by eapply lookup_lt_Some).
    unfold plot_series.
    rewrite results_row_mean, nd_row_ci_low, nd_row_ci_high by done. simpl.
    eexists. split; [done|]. simpl.
    rewrite list_lookup_fmap, lookup_seq_lt by done. simpl.
    do 3 f_equal.
    rewrite (cell_column_tabulate a i j (fun k => cell (S k))).
    + unfold a. rewrite read_loop_length.
      rewrite <- fmap_S_seq, <- list_fmap_compose. done.
    + intros k Hk. unfold a in *. rewrite read_loop_length in Hk.
      replace k with (S k - 1) at 1 by lia.
      apply read_loop_cell; [lia|done|done].
Qed.

(** C3.  A cell with fewer than two non-missing samples has both error-bar
    offsets equal to 0, and a cell that is NaN in every iteration has the
    reported mean NaN, in every series the function hands to the plot.  The
    function does hand over its series unless the run has a single iteration
    and exactly one scenario or one device count. *)
Theorem missing_cell_mean_and_margin
    (t_ppf : R → R → R) (cfg : config) (fs : filesystem) (row_offset : nat)
    (column_offset : Z) (app_type : string) (calculate_percentage : option string)
    (divisor : R) (device_counts : list Z) (i j : nat) :
  py_range (min_devices cfg) (max_devices cfg + 1) (step_devices cfg)
    = Some device_counts →
  i < length (scenario_types cfg) →
  j < length device_counts →
  let a := all_results (read_loop fs (folder_path cfg) row_offset column_offset
             app_type calculate_percentage (num_iterations cfg)
             (scenario_types cfg) device_counts) in
  let out := plot_generic_line t_ppf cfg fs row_offset column_offset app_type
               calculate_percentage divisor in
  length (finite_part (cell_column a i j)) < 2 →
  (∀ l, out = inr l →
     ∃ sr, l !! i = Some sr ∧
           yerr_low sr !! j = Some (Fin 0) ∧ yerr_high sr !! j = Some (Fin 0) ∧
           ((∀ s, s < num_iterations cfg → get3 a s i j = Some NaN) →
            ys sr !! j = Some NaN)) ∧
  (num_iterations cfg ≠ 1 ∨
   (length (scenario_types cfg) ≠ 1 ∧ length device_counts ≠ 1) →
   ∃ l, out = inr l).
Proof.
  intros Hrange Hi Hj a out Hfew. subst out.
  unfold plot_generic_line. rewrite Hrange. fold a.
  set (n := num_iterations cfg) in *.
  set (m := length (scenario_types cfg)) in *.
  set (d := length device_counts) in *.
  assert (length a = n) as Hlen by apply read_loop_length.
  split.
  - intros l Hl.
    destruct (mapM_inr_lookup _ _ _ i i Hl) as (sr & Hsr & Hplot).
    { by apply lookup_seq_lt. }
    exists sr. split; [done|].
    unfold plot_series in Hplot.
    rewrite nd_row_ci_low, nd_row_ci_high in Hplot by done.
    destruct (nd_row (results divisor n m d a) i) as [e|y] eqn:Hy; [done|].
    simpl in Hplot.
    injection Hplot as <-. simpl.
    rewrite !list_lookup_fmap, lookup_seq_lt by done. simpl.
    rewrite ci_vals_few_samples by done. simpl.
    split; [done|]. split; [done|].
    intros Hall.
    destruct (decide (n = 1)) as [Hn|Hn].
    + apply results_row_single in Hy as (Hm & Hd & row & Hrow & ->); [|done].
      pose proof (Hall 0 ltac:(lia)) as H0. unfold get3, get2 in H0.
      destruct (a !! 0) as [plane|]; [|done]. simpl in *.
      rewrite Hrow in H0. simpl in H0.
      rewrite list_lookup_fmap, H0. done.
    + rewrite results_row_mean in Hy by done. injection Hy as <-.
      rewrite list_lookup_fmap, lookup_seq_lt by done. simpl.
      rewrite nanmean_no_sample; [done|].
      apply finite_part_all_nan.
      rewrite (cell_column_tabulate a i j (fun _ => NaN)).
      * apply Forall_fmap, Forall_forall. done.
      * intros k Hk. apply Hall. lia.
  - intros Hshape.
    apply mapM_is_inr. intros i' Hi'. apply elem_of_seq in Hi'.
    unfold plot_series.
    assert (∃ y, nd_row (results divisor n m d a) i' = inr y) as [y ->].
    { destruct (decide (n = 1)) as [Hn|Hn].
      - destruct Hshape as [?|[Hm Hd]]; [done|].
        destruct (lookup_lt_is_Some_2 a 0 ltac:(lia)) as [plane Hplane].
        eapply results_row_single_ok; eauto.
        pose proof (read_loop_planes fs (folder_path cfg) row_offset column_offset
                      app_type calculate_percentage n (scenario_types cfg)
                      device_counts) as Hpl.
        rewrite Forall_lookup in Hpl. rewrite (Hpl 0 plane Hplane). lia.
      - rewrite results_row_mean by (done || lia). by eexists. }
    rewrite nd_row_ci_low, nd_row_ci_high by lia. simpl. by eexists.
Qed.

Section Interval.

Variable t_ppf : R → R → R.

Lemma t_interval_zero_scale conf df loc :
  t_interval t_ppf conf df loc (Fin 0) = (NaN, NaN).
Proof.
  unfold t_interval. destruct loc; [|done].
  destruct (Rlt_dec 0 df); [|done]. destruct (Rlt_dec 0 0); [lra|done].
Qed.

Lemma t_interval_nan_scale conf df loc :
  t_interval t_ppf conf df loc NaN = (NaN, NaN).
Proof. unfold t_interval. by destruct loc. Qed.

(** A cell whose non-missing samples all coincide gets NaN offsets. *)
Lemma ci_vals_constant_cell divisor n a i j k c :
  1 < n → 2 ≤ k →
  finite_part (cell_column a i j) = replicate k c →
  ci_vals t_ppf divisor n a i j = (NaN, NaN).
Proof.
  intros Hn Hk Hcol. unfold ci_vals, data_slice.
  rewrite decide_True by done. rewrite Hcol, fmap_replicate, length_replicate.
  rewrite decide_True by lia.
  assert (ddiv (np_std_ddof1 (replicate k (ddiv (Fin c) (Fin divisor))))
               (dsqrt (Fin (INR k))) = Fin 0
          ∨ ddiv (np_std_ddof1 (replicate k (ddiv (Fin c) (Fin divisor))))
               (dsqrt (Fin (INR k))) = NaN) as [-> | ->].
  { destruct (ddiv (Fin c) (Fin divisor)) as [r|].
    - left. rewrite np_std_constant by done. unfold dsqrt, ddiv.
      pose proof (INR_ge_2 _ Hk) as Hk'.
      destruct (Rlt_dec (INR k) 0); [lra|].
      destruct (Req_dec_T (sqrt (INR k)) 0) as [Hz|_].
      + apply sqrt_eq_0 in Hz; lra.
      + f_equal. field. intros Hz. apply sqrt_eq_0 in Hz; lra.
    - right. by rewrite np_std_nan by lia. }
  - rewrite t_interval_zero_scale. simpl. by rewrite dsub_nan_r.
  - rewrite t_interval_nan_scale. simpl. by rewrite dsub_nan_r.
Qed.

End Interval.

Section Symmetric.

Variable t_ppf : R → R → R.
Hypothesis t_ppf_symmetric : ∀ q df, t_ppf (1 - q) df = (- t_ppf q df)%R.

(** X1.  Away from that input the formula of C1 holds: for a non-zero
    divisor and at least two non-missing samples whose sample standard
    deviation is positive, both offsets equal
    [t_ppf 0.975 (n - 1) * std / sqrt n]. *)
Lemma ci_vals_positive_std divisor n a i j :
  1 < n → divisor ≠ 0%R →
  let xs := (fun r => r / divisor)%R <$> finite_part (cell_column a i j) in
  2 ≤ length xs →
  let mean := (Rsum xs / INR (length xs))%R in
  let std := sqrt (Rsum ((fun x => (x - mean) * (x - mean))%R <$> xs)
                   / (INR (length xs) - 1)) in
  (0 < std)%R →
  let margin := (t_ppf (975 / 1000) (INR (length xs - 1))
                 * (std / sqrt (INR (length xs))))%R in
  ci_vals t_ppf divisor n a i j = (Fin margin, Fin margin).
Proof.
  intros Hn Hd xs Hlen mean std Hstd margin.
  unfold ci_vals, data_slice. rewrite decide_True by done.
  assert ((fun r => ddiv (Fin r) (Fin divisor)) <$> finite_part (cell_column a i j)
          = Fin <$> xs) as ->.
  { unfold xs. rewrite <- list_fmap_compose. apply list_fmap_ext.
    intros _ r _. simpl. unfold ddiv. by destruct (Req_dec_T divisor 0). }
  rewrite length_fmap. rewrite decide_True by lia.
  rewrite np_std_fin by done. fold mean.
  set (var := (Rsum ((fun x => (x - mean) * (x - mean))%R <$> xs)
               / (INR (length xs) - 1))%R) in *.
  pose proof (INR_ge_2 _ Hlen) as Hk.
  assert (0 < sqrt (INR (length xs)))%R as Hsq by (apply sqrt_lt_R0; lra).
  assert (ddiv (if Rlt_dec var 0 then NaN else Fin (sqrt var))
               (dsqrt (Fin (INR (length xs))))
          = Fin (std / sqrt (INR (length xs)))) as ->.
  { destruct (Rlt_dec var 0) as [Hneg|_].
    { unfold std in Hstd. rewrite sqrt_neg_0 in Hstd by lra. lra. }
    unfold dsqrt. destruct (Rlt_dec (INR (length xs)) 0) as [?|_]; [lra|].
    unfold ddiv. by destruct (Req_dec_T (sqrt (INR (length xs))) 0) as [?|_]; [lra|]. }
  assert (finite_part (cell_column a i j) ≠ []) as Hne.
  { intros Hnil. unfold xs in Hlen. rewrite Hnil in Hlen. simpl in Hlen. lia. }
  assert (∃ l, mean_results divisor a i j = Fin l) as [l ->].
  { unfold mean_results. rewrite nanmean_fin by done.
    unfold ddiv. destruct (Req_dec_T divisor 0) as [?|_]; [done|]. by eexists. }
  unfold t_interval.
  assert (1 <= INR (length xs - 1))%R as Hdf.
  { rewrite minus_INR by lia. simpl. lra. }
  destruct (Rlt_dec 0 (INR (length xs - 1))) as [_|?]; [|lra].
  assert (0 < std / sqrt (INR (length xs)))%R as Hse by (by apply Rdiv_lt_0_compat).
  destruct (Rlt_dec 0 (std / sqrt (INR (length xs)))) as [_|?]; [|done].
  cbn [fst snd dsub lift2].
  replace ((1 + 95 / 100) / 2)%R with (975 / 1000)%R by lra.
  replace ((1 - 95 / 100) / 2)%R with (1 - 975 / 1000)%R by lra.
  rewrite t_ppf_symmetric. unfold margin. f_equal; f_equal; lra.
Qed.

End Symmetric.

(** C1, at an input where it fails.  Two iterations, one scenario, one device
    count and the value 5 in both logs: the sample standard deviation is 0,
    [t.interval] is called with [scale=0] and answers NaN bounds, and both
    offsets are NaN, where t * std / sqrt n is 0. *)
Theorem equal_samples_margin_is_nan (t_ppf : R → R → R) :
  plot_generic_line t_ppf cfg_two_runs fs_all_five 0 1 "ALL_APPS" None 1
  = inr [ {| ys := [Fin 5]; yerr_low := [NaN]; yerr_high := [NaN] |} ] ∧
  np_std_ddof1 [Fin 5; Fin 5] = Fin 0.
Proof.
  split; [|apply (np_std_constant 2 5); lia].
  unfold plot_generic_line.
  change (py_range (min_devices cfg_two_runs) (max_devices cfg_two_runs + 1)
            (step_devices cfg_two_runs)) with (Some [100%Z]).
  cbv beta iota. simpl num_iterations. simpl scenario_types. simpl folder_path.
  set (a := all_results _).
  assert (cell_column a 0 0 = [Fin 5; Fin 5]) as Hcol.
  { rewrite (cell_column_tabulate a 0 0 (fun _ => Fin 5)).
    - unfold a. by rewrite read_loop_length.
    - intros k Hk. unfold a in *. rewrite read_loop_length in Hk.
      replace k with (S k - 1) at 1 by lia.
      rewrite (read_loop_cell _ _ _ _ _ _ _ _ _ (S k) 0 "RANDOM_FIT" 0 100%Z);
        [done | lia | done | done]. }
  change (length ["RANDOM_FIT"]) with 1. change (length [100%Z]) with 1.
  change (seq 0 1) with [0].
  rewrite (mapM_inr_intro _
             (fun _ => {| ys := [Fin 5]; yerr_low := [NaN]; yerr_high := [NaN] |}));
    [done|].
  intros x Hx. apply list_elem_of_singleton in Hx as ->.
  unfold plot_series.
  rewrite results_row_mean, nd_row_ci_low, nd_row_ci_high by lia.
  change (seq 0 1) with [0]. cbn [fmap list_fmap mbind exn_bind].
  rewrite (ci_vals_constant_cell t_ppf 1 2 a 0 0 2 5); [|lia|lia|by rewrite Hcol].
  rewrite Hcol. unfold nanmean, ddiv. cbn [finite_part omap list_omap fst snd].
  destruct (Req_dec_T 1 0) as [?|_]; [lra|].
  do 4 f_equal. simpl. lra.
Qed.

(** X1 at the samples 1 and 3, with a linear stand-in for the quantile. *)
Lemma ci_vals_positive_std_witness :
  (∀ q df, t_ppf_linear (1 - q) df = (- t_ppf_linear q df)%R) ∧
  (ci_vals t_ppf_linear 1 2 table_one_three 0 0).1
  = (ci_vals t_ppf_linear 1 2 table_one_three 0 0).2.
Proof.
  assert (∀ q df, t_ppf_linear (1 - q) df = (- t_ppf_linear q df)%R) as Hsym.
  { intros q df. unfold t_ppf_linear. lra. }
  split; [exact Hsym|].
  rewrite (ci_vals_positive_std t_ppf_linear Hsym 1 2 table_one_three 0 0).
  - reflexivity.
  - lia.
  - lra.
  - simpl. lia.
  - apply sqrt_lt_R0. simpl. lra.
Defined.

(** C7 with every file missing: the first cell of two iterations. *)
Lemma read_failure_is_local_witness :
  try_body fs_no_file 0 1 None (file_path "sim_results" "ALL_APPS" 1 "RANDOM_FIT" 100)
    = inl FileNotFoundError ∧
  get3 (all_results (read_loop fs_no_file "sim_results" 0 1 "ALL_APPS" None 2
                       ["RANDOM_FIT"] [100%Z])) (1 - 1) 0 0 = Some NaN.
Proof.
  split; [reflexivity|].
  refine (proj1 (proj2 (proj2 (read_failure_is_local fs_no_file "sim_results" 0 1
            "ALL_APPS" None 2 ["RANDOM_FIT"] [100%Z] 1 0 "RANDOM_FIT" 0 100
            FileNotFoundError _ _ _ _)))).
  - lia.
  - reflexivity.
  - reflexivity.
  - reflexivity.
Defined.

(** C3 with every file missing, over two iterations. *)
Lemma missing_cell_mean_and_margin_witness :
  length (finite_part (cell_column
            (all_results (read_loop fs_no_file "sim_results" 0 1 "ALL_APPS" None 2
                            ["RANDOM_FIT"] [100%Z])) 0 0)) < 2 ∧
  ∃ l, plot_generic_line (fun _ _ => 0%R) cfg_two_runs fs_no_file 0 1 "ALL_APPS"
         None 1 = inr l.
Proof.
  assert (length (finite_part (cell_column
            (all_results (read_loop fs_no_file "sim_results" 0 1 "ALL_APPS" None 2
                            ["RANDOM_FIT"] [100%Z])) 0 0)) < 2) as Hfew.
  { cbn. lia. }
  split; [exact Hfew|].
  refine (proj2 (missing_cell_mean_and_margin (fun _ _ => 0%R) cfg_two_runs
            fs_no_file 0 1 "ALL_APPS" None 1 [100%Z] 0 0 _ _ _ Hfew) _).
  - reflexivity.
  - simpl. lia.
  - simpl. lia.
  - left. simpl. lia.
Defined.

(** C4 on logs whose second row is 15;5. *)
Lemma percentage_of_all_per_iteration_witness :
  (0 < 15 + 5)%R ∧
  get3 (all_results (read_loop fs_fifteen_five "sim_results" 1 2 "ALL_APPS"
                       (Some "percentage_of_all") 2 ["RANDOM_FIT"] [100%Z]))
    (1 - 1) 0 0 = Some (Fin (100 * 5 / (15 + 5))).
Proof.
  assert (0 < 15 + 5)%R as Hpos by lra.
  split; [exact Hpos|].
  refine (proj2 (proj1 (percentage_of_all_per_iteration fs_fifteen_five "sim_results"
            1 2 "ALL_APPS" 2 ["RANDOM_FIT"] [100%Z] 1 0 "RANDOM_FIT" 0 100
            [FNum (Fin 15); FNum (Fin 5)] [FNum (Fin 15); FNum (Fin 5)] 5 15 5
            _ _ _ _ _ _ _ _) Hpos)).
  - lia.
  - reflexivity.
  - reflexivity.
  - reflexivity.
  - reflexivity.
  - reflexivity.
  - reflexivity.
  - reflexivity.
Defined.

Lemma mapM_head_inl {A B} (f : A → exn + B) x l e :
  f x = inl e → mapM f (x :: l) = inl e.
Proof. intros Hf. simpl. by rewrite Hf. Qed.

(** X2.  With a single iteration and exactly one scenario, or exactly one
    device count, [np.squeeze] also drops that axis and the first
    [results[i, :]] of the plotting loop raises IndexError. *)
Theorem single_iteration_vector_raises
    (t_ppf : R → R → R) (cfg : config) (fs : filesystem) (row_offset : nat)
    (column_offset : Z) (app_type : string) (calculate_percentage : option string)
    (divisor : R) (device_counts : list Z) :
  py_range (min_devices cfg) (max_devices cfg + 1) (step_devices cfg)
    = Some device_counts →
  num_iterations cfg = 1 →
  length (scenario_types cfg) = 1 ∨
    (scenario_types cfg ≠ [] ∧ length device_counts = 1) →
  plot_generic_line t_ppf cfg fs row_offset column_offset app_type
    calculate_percentage divisor = inl IndexError.
Proof.
  intros Hrange Hn Hshape. unfold plot_generic_line. rewrite Hrange.
  destruct (scenario_types cfg) as [|sc scs] eqn:Hsc.
  { destruct Hshape as [?|[? _]]; done. }
  change (seq 0 (length (sc :: scs))) with (0 :: seq 1 (length scs)).
  apply mapM_head_inl. unfold plot_series.
  rewrite results_row_degenerate; [done|done|].
  destruct Hshape as [H|[_ H]]; [by left|by right].
Qed.

(** X2 for one iteration, one scenario and three device counts. *)
Lemma single_iteration_vector_raises_witness :
  num_iterations cfg_single_run = 1 ∧
  plot_generic_line (fun _ _ => 0%R) cfg_single_run fs_no_file 0 1 "ALL_APPS"
    None 1 = inl IndexError.
Proof.
  split; [reflexivity|].
  refine (single_iteration_vector_raises (fun _ _ => 0%R) cfg_single_run fs_no_file
            0 1 "ALL_APPS" None 1 [100%Z; 200%Z; 300%Z] _ _ _).
  - reflexivity.
  - reflexivity.
  - left. reflexivity.
Defined.

End PlotGenericLineFacts.

(** ** data_convertor.py *)

Module DataConvertorFacts.

Import DataConvertor DblFacts.

Lemma io_bind_inr {A B} (t : list event) (x : A) (f : A → io B) :
  (t, inr x) ≫= f = (t ++ (f x).1, (f x).2).
Proof. unfold mbind, io_bind. by destruct (f x). Qed.

Lemma io_bind_inl {A B} (t : list event) (e : exn) (f : A → io B) :
  (t, inl e) ≫= f = (t, inl e).
Proof. done. Qed.

Section Load.

Variable cfg : config.
Variable fs : filesystem.
Variable datatype : string.

Lemma load_one_trace ite vehicle acc ev :
  ev ∈ (load_one cfg fs datatype ite vehicle acc).1 → ∃ p, ev = ReadCsv p.
Proof.
  unfold load_one, read_csv. destruct (selected cfg datatype ite); simpl.
  - destruct (fs (file_name cfg ite vehicle)); simpl.
    + intros H. apply list_elem_of_singleton in H. eauto.
    + intros H. by apply elem_of_nil in H.
  - intros H. by apply elem_of_nil in H.
Qed.

Lemma for_each_trace {A B} (P : event → Prop) (f : A → B → io B) l acc ev :
  (∀ x acc ev, ev ∈ (f x acc).1 → P ev) →
  ev ∈ (for_each f l acc).1 → P ev.
Proof.
  intros Hf. revert acc. induction l as [|x l IH]; intros acc; simpl.
  - intros H. by apply elem_of_nil in H.
  - destruct (f x acc) as [t [e|acc']] eqn:Hx.
    + simpl. intros H. apply (Hf x acc). by rewrite Hx.
    + rewrite io_bind_inr. simpl. intros H. apply elem_of_app in H as [H|H].
      * apply (Hf x acc). by rewrite Hx.
      * by apply (IH acc').
Qed.

Lemma load_trace ev : ev ∈ (load cfg fs datatype).1 → ∃ p, ev = ReadCsv p.
Proof.
  unfold load. apply (for_each_trace (fun ev => ∃ p, ev = ReadCsv p)).
  intros ite acc ev'.
  destruct (py_range _ _ _) as [vehicles|].
  - unfold lift_exn. rewrite io_bind_inr. cbn [fst app].
    apply (for_each_trace (fun ev => ∃ p, ev = ReadCsv p)).
    intros v acc'. apply load_one_trace.
  - simpl. intros H. by apply elem_of_nil in H.
Qed.

Variable content : Z → Z → list record.
Hypothesis files_exist : ∀ ite vehicle, fs (file_name cfg ite vehicle) = Some (content ite vehicle).

Lemma load_one_exists ite vehicle acc :
  load_one cfg fs datatype ite vehicle acc
  = if selected cfg datatype ite
    then ([read_event cfg (ite, vehicle)], inr (acc ++ [frame_of content (ite, vehicle)]))
    else ([], inr acc).
Proof.
  unfold load_one, read_csv. rewrite files_exist.
  destruct (selected cfg datatype ite); [|done].
  rewrite io_bind_inr. cbn [mret io_ret fst snd]. by rewrite app_nil_r.
Qed.

Lemma load_inner ite vehicles acc :
  let plan := vehicle ← vehicles; if selected cfg datatype ite then [(ite, vehicle)] else [] in
  for_each (load_one cfg fs datatype ite) vehicles acc
  = (read_event cfg <$> plan, inr (acc ++ (frame_of content <$> plan))).
Proof.
  cbv zeta. revert acc. induction vehicles as [|v vs IH]; intros acc.
  - simpl. by rewrite app_nil_r.
  - cbn [for_each]. rewrite bind_cons, !fmap_app, load_one_exists.
    destruct (selected cfg datatype ite) eqn:Hsel.
    + rewrite io_bind_inr, IH. cbn [fst snd]. by rewrite <- app_assoc.
    + rewrite io_bind_inr, IH. done.
Qed.

Lemma load_outer vehicles its acc :
  py_range (min_vehicle cfg) (max_vehicle cfg + 1) (vehicle_step_size cfg) = Some vehicles →
  let plan := ite ← its; vehicle ← vehicles;
              if selected cfg datatype ite then [(ite, vehicle)] else [] in
  for_each
    (fun ite data_set =>
       vehicles ← lift_exn
         (match py_range (min_vehicle cfg) (max_vehicle cfg + 1)
                  (vehicle_step_size cfg) with
          | Some l => inr l
          | None => inl ValueError
          end);
       for_each (load_one cfg fs datatype ite) vehicles data_set) its acc
  = (read_event cfg <$> plan, inr (acc ++ (frame_of content <$> plan))).
Proof.
  intros Hr. cbv zeta. rewrite Hr. unfold lift_exn.
  revert acc. induction its as [|ite its IH]; intros acc.
  - simpl. by rewrite app_nil_r.
  - cbn [for_each]. rewrite io_bind_inr.
    rewrite load_inner. cbn [fst snd]. rewrite io_bind_inr. rewrite IH.
    cbn [fst snd]. rewrite bind_cons, !fmap_app, <- !app_assoc. done.
Qed.

Lemma load_all vehicles :
  py_range (min_vehicle cfg) (max_vehicle cfg + 1) (vehicle_step_size cfg) = Some vehicles →
  load cfg fs datatype
  = (read_event cfg <$> split_plan cfg datatype vehicles,
     inr (frame_of content <$> split_plan cfg datatype vehicles)).
Proof. intros Hr. unfold load. by rewrite (load_outer vehicles). Qed.

End Load.

Lemma elem_of_iterations cfg ite :
  ite ∈ iterations cfg ↔ (0 ≤ ite < num_iterations cfg)%Z.
Proof.
  unfold iterations. rewrite list_elem_of_fmap. split.
  - intros (k & -> & Hk). apply elem_of_seq in Hk. lia.
  - intros H. exists (Z.to_nat ite). split; [lia|]. apply elem_of_seq. lia.
Qed.

Lemma elem_of_split_plan cfg datatype vehicles ite vehicle :
  (ite, vehicle) ∈ split_plan cfg datatype vehicles ↔
  (0 ≤ ite < num_iterations cfg)%Z ∧ vehicle ∈ vehicles ∧ selected cfg datatype ite = true.
Proof.
  unfold split_plan. rewrite list_elem_of_bind. split.
  - intros (ite' & H & Hite). apply list_elem_of_bind in H as (v' & H & Hv).
    destruct (selected cfg datatype ite') eqn:Hsel.
    + apply list_elem_of_singleton in H. injection H as -> ->.
      by rewrite <- elem_of_iterations.
    + by apply elem_of_nil in H.
  - intros (Hite & Hv & Hsel). exists ite. split; [|by apply elem_of_iterations].
    apply list_elem_of_bind. exists vehicle. split; [|done].
    rewrite Hsel. by apply list_elem_of_singleton.
Qed.

Lemma int_lt_double_value z x q :
  double_value x = Some q → int_lt_double z x = true ↔ (inject_Z z < q)%Q.
Proof.
  intros Hq. unfold int_lt_double.
  destruct x; try discriminate Hq; rewrite Hq;
    rewrite negb_true_iff, <- not_true_iff_false, Qle_bool_iff;
    (split; [apply Qnot_le_lt | intros Hlt Hle; by apply (Qlt_not_le _ _ Hlt)]).
Qed.

Lemma int_ge_double_value z x q :
  double_value x = Some q → int_ge_double z x = true ↔ (q <= inject_Z z)%Q.
Proof.
  intros Hq. unfold int_ge_double.
  destruct x; try discriminate Hq; rewrite Hq; apply Qle_bool_iff.
Qed.



(** Both comparisons are monotone in the int. *)
Lemma int_lt_double_mono z z' x :
  (z ≤ z')%Z → int_lt_double z' x = true → int_lt_double z x = true.
Proof.
  intros Hz. destruct (double_value x) as [q|] eqn:Hq.
  - rewrite !(int_lt_double_value _ x q Hq). intros Hlt.
    apply Qle_lt_trans with (y := inject_Z z'); [|done]. by rewrite <- Zle_Qle.
  - by destruct x.
Qed.

Lemma int_ge_double_mono z z' x :
  (z ≤ z')%Z → int_ge_double z x = true → int_ge_double z' x = true.
Proof.
  intros Hz. destruct (double_value x) as [q|] eqn:Hq.
  - rewrite !(int_ge_double_value _ x q Hq). intros Hle.
    apply Qle_trans with (y := inject_Z z); [done|]. by rewrite <- Zle_Qle.
  - by destruct x.
Qed.

Lemma selected_train cfg ite :
  selected cfg "train" ite = int_lt_double ite (testDataStartIndex cfg).
Proof. unfold selected. simpl. by rewrite orb_false_r. Qed.

Lemma selected_test cfg ite :
  selected cfg "test" ite = int_ge_double ite (testDataStartIndex cfg).
Proof. done. Qed.


Section UnknownTarget.

Variable float_repr : R → string.
Variable rng : nat → nat → list nat.

(** C6, as amended.  A target other than edge, cloud_rsu and cloud_gsm is
    not rejected up front: the run ends with an exception and writes nothing,
    but what it did before were reads.  When the files of the split exist and
    there is at least one, all of them are read, and the exception is the
    UnboundLocalError of [getDecisionColumnName]. *)
Theorem unknown_target_fails_after_reading
    (cfg : config) (fs : filesystem) (target method datatype : string) :
  target ≠ "edge" → target ≠ "cloud_rsu" → target ≠ "cloud_gsm" →
  (∃ trace e,
     main float_repr rng cfg fs target method datatype = (trace, inl e) ∧
     ∀ ev, ev ∈ trace → ∃ p, ev = ReadCsv p) ∧
  (∀ vehicles content,
     py_range (min_vehicle cfg) (max_vehicle cfg + 1) (vehicle_step_size cfg)
       = Some vehicles →
     (∀ ite vehicle, fs (file_name cfg ite vehicle) = Some (content ite vehicle)) →
     split_plan cfg datatype vehicles ≠ [] →
     main float_repr rng cfg fs target method datatype
     = (read_event cfg <$> split_plan cfg datatype vehicles, inl UnboundLocalError)).
Proof.
  intros H1 H2 H3.
  assert (getDecisionColumnName target = inl UnboundLocalError) as Hdec.
  { unfold getDecisionColumnName. by rewrite !decide_False. }
  split.
  - unfold main. pose proof (load_trace cfg fs datatype) as Htr.
    destruct (load cfg fs datatype) as [t [e|frames]].
    + exists t, e. split; [done|]. apply Htr.
    + rewrite io_bind_inr. unfold lift_exn.
      destruct (pd_concat frames) as [e|data_set].
      * exists t, e. rewrite io_bind_inl. cbn [fst snd]. rewrite app_nil_r.
        split; [done|]. apply Htr.
      * rewrite io_bind_inr, Hdec, io_bind_inl. cbn [fst snd].
        exists t, UnboundLocalError. rewrite !app_nil_r. split; [done|]. apply Htr.
  - intros vehicles content Hr Hfs Hplan. unfold main.
    rewrite (load_all cfg fs datatype content Hfs vehicles Hr).
    rewrite io_bind_inr. unfold lift_exn.
    assert (∃ data_set, pd_concat (frame_of content <$> split_plan cfg datatype vehicles)
                        = inr data_set) as [data_set ->].
    { destruct (split_plan cfg datatype vehicles); [done|]. by eexists. }
    rewrite io_bind_inr, Hdec, io_bind_inl. cbn [fst snd]. by rewrite !app_nil_r.
Qed.

End UnknownTarget.

(** C6 fails: for the target [cloud] a record file is read before the run
    ends with UnboundLocalError. *)
Lemma unknown_target_reads_first :
  main (fun _ => "0") (fun _ len => seq 0 len) cfg_one_run fs_empty_files
    "cloud" "classifier" "train"
  = ([ReadCsv "sim_results/ite1/100_learnerOutputFile.cvs"], inl UnboundLocalError).
Proof. vm_compute. reflexivity. Qed.


Lemma omap_lookup_seq_app {A} (pre x : list A) :
  omap (fun i => (pre ++ x) !! i) (seq (length pre) (length x)) = x.
Proof.
  revert pre. induction x as [|a x IH]; intros pre; [done|].
  simpl. rewrite list_lookup_middle by done. f_equal.
  specialize (IH (pre ++ [a])). rewrite length_app, Nat.add_1_r, <- app_assoc in IH.
  exact IH.
Qed.

Lemma omap_lookup_seq {A} (x : list A) :
  omap (fun i => x !! i) (seq 0 (length x)) = x.
Proof. apply (omap_lookup_seq_app []). Qed.

Lemma length_omap_total {A B} (f : A → option B) l :
  Forall (fun a => is_Some (f a)) l → length (omap f l) = length l.
Proof.
  induction 1 as [|a l [b Hb] _ IH]; [done|]. simpl. rewrite Hb. simpl.
  f_equal. exact IH.
Qed.

Lemma sample_elem_of perm size x r : r ∈ sample perm size x → r ∈ x.
Proof.
  unfold sample. rewrite list_elem_of_omap. intros (i & _ & Hi).
  by eapply list_elem_of_lookup_2.
Qed.

Lemma sample_submseteq perm size (x : list record) :
  perm ≡ₚ seq 0 (length x) → sample perm size x ⊆+ x.
Proof.
  intros Hperm. unfold sample.
  assert (omap (fun i => x !! i) (take size perm) ⊆+ omap (fun i => x !! i) perm) as H1.
  { rewrite <- (take_drop size perm) at 2. rewrite omap_app.
    by apply submseteq_inserts_r. }
  pose proof (omap_Permutation (fun i => x !! i) _ _ Hperm) as H2.
  rewrite omap_lookup_seq in H2. by rewrite H2 in H1.
Qed.

Lemma sample_length perm size (x : list record) :
  perm ≡ₚ seq 0 (length x) → size ≤ length x → length (sample perm size x) = size.
Proof.
  intros Hperm Hsize. unfold sample. rewrite length_omap_total.
  - rewrite length_take_le; [done|]. rewrite Hperm, length_seq. done.
  - apply Forall_forall. intros i Hi.
    apply lookup_lt_is_Some_2.
    assert (i ∈ perm) as Hin
      by (eapply elem_of_submseteq; [exact Hi | apply submseteq_take]).
    rewrite Hperm in Hin. apply elem_of_seq in Hin. lia.
Qed.

Section Balance.

Variable rng : nat → nat → list nat.

Lemma balance_group_elem_of size x draws r :
  r ∈ (balance_group rng size x draws).1 → r ∈ x.
Proof.
  unfold balance_group. case_decide; simpl; [done|]. apply sample_elem_of.
Qed.

Lemma balance_group_nil size draws : (balance_group rng size [] draws).1 = [].
Proof.
  unfold balance_group. case_decide; simpl; [done|].
  unfold sample. simpl in *. assert (size = 0) as -> by lia. done.
Qed.

Lemma balance_group_sampled size x draws :
  sampled rng size x (balance_group rng size x draws).1.
Proof.
  unfold sampled, balance_group. intros Hle. rewrite decide_False by lia.
  by exists draws.
Qed.

Hypothesis rng_permutation : ∀ k len, rng k len ≡ₚ seq 0 len.

Lemma balance_group_capped size x draws :
  capped size x (balance_group rng size x draws).1.
Proof.
  unfold capped, balance_group. case_decide as Hlt; simpl.
  - split; [done|]. split; [done|]. lia.
  - assert (length (sample (rng draws (length x)) size x) = size) as Hlen
      by (apply sample_length; [done|lia]).
    split; [lia|]. split; [lia|]. intros _. split; [done|].
    by apply sample_submseteq.
Qed.

End Balance.

Lemma stratum_sub key key' (out g : list record) :
  (∀ r, r ∈ out → r ∈ g) → (∀ r, r ∈ g → VehicleCount r = key') →
  stratum key out = if decide (key = key') then out else [].
Proof.
  intros Hsub Hg. unfold stratum. case_decide as Hk.
  - subst. induction out as [|r out IH]; [done|].
    rewrite filter_cons, decide_True.
    + f_equal. apply IH. intros r' Hr'. apply Hsub. by right.
    + apply Hg, Hsub. by left.
  - induction out as [|r out IH]; [done|].
    rewrite filter_cons, decide_False.
    + apply IH. intros r' Hr'. apply Hsub. by right.
    + intros Heq. apply Hk. rewrite <- Heq. apply Hg, Hsub. by left.
Qed.

Lemma elem_of_group_keys df k :
  k ∈ group_keys df ↔ ∃ r, r ∈ df ∧ VehicleCount r = k.
Proof.
  unfold group_keys. rewrite merge_sort_Permutation, elem_of_remove_dups.
  rewrite list_elem_of_fmap.
  split; intros (r & H1 & H2); exists r; by split.
Qed.

Lemma NoDup_group_keys df : NoDup (group_keys df).
Proof.
  unfold group_keys. rewrite merge_sort_Permutation. apply NoDup_remove_dups.
Qed.

Lemma stratum_absent key (df : list record) :
  key ∉ group_keys df → stratum key df = [].
Proof.
  intros Hk. unfold stratum. induction df as [|r df IH]; [done|].
  rewrite filter_cons, decide_False.
  - apply IH. intros Hin. apply Hk. apply elem_of_group_keys.
    apply elem_of_group_keys in Hin as (r' & Hr' & Hv). exists r'. split; [by right|done].
  - intros Heq. apply Hk. apply elem_of_group_keys. exists r. split; [by left|done].
Qed.

Section Groups.

Variable rng : nat → nat → list nat.

Lemma apply_groups_stratum size (df : list record) keys draws key :
  NoDup keys →
  ∃ draws',
    stratum key
      (apply_groups (balance_group rng size) ((fun k => stratum k df) <$> keys) draws).1
    = if decide (key ∈ keys)
      then (balance_group rng size (stratum key df) draws').1
      else [].
Proof.
  intros Hnd. revert draws. induction Hnd as [|k0 ks Hk0 Hnd IH]; intros draws.
  - exists draws. rewrite decide_False by apply not_elem_of_nil. done.
  - cbn [fmap list_fmap apply_groups].
    destruct (balance_group rng size (stratum k0 df) draws) as [out d1] eqn:Hout.
    destruct (IH d1) as [d' Hrest].
    destruct (apply_groups (balance_group rng size)
                ((fun k => stratum k df) <$> ks) d1) as [rest d2].
    cbn [fst] in *. unfold stratum at 1. rewrite filter_app. fold (stratum key out).
    fold (stratum key rest). rewrite Hrest.
    rewrite (stratum_sub key k0 out (stratum k0 df)).
    + destruct (decide (key = k0)) as [->|Hne].
      * exists draws. destruct (decide (k0 ∈ ks)); [done|].
        destruct (decide (k0 ∈ k0 :: ks)) as [_|Hn]; [|exfalso; apply Hn; left].
        rewrite app_nil_r. by rewrite Hout.
      * exists d'. simpl. destruct (decide (key ∈ ks)) as [Hin|Hnin].
        -- destruct (decide (key ∈ k0 :: ks)) as [_|Hn]; [done|].
           exfalso. apply Hn. by right.
        -- destruct (decide (key ∈ k0 :: ks)) as [Hin|_]; [|done].
           apply elem_of_cons in Hin as [?|?]; done.
    + intros r Hr. apply (balance_group_elem_of rng size _ draws). by rewrite Hout.
    + intros r Hr. unfold stratum in Hr. by apply list_elem_of_filter in Hr as [? _].
Qed.

Lemma groupby_apply_stratum size (df : list record) draws key :
  ∃ draws',
    stratum key (apply_groups (balance_group rng size) (groupby df) draws).1
    = (balance_group rng size (stratum key df) draws').1.
Proof.
  destruct (apply_groups_stratum size df (group_keys df) draws key
              (NoDup_group_keys df)) as [d' Hd'].
  change (groupby df) with ((fun k => stratum k df) <$> group_keys df).
  rewrite Hd'. case_decide as Hk.
  - by exists d'.
  - exists 0. by rewrite (stratum_absent key df Hk), balance_group_nil.
Qed.

Lemma groupby_apply_elem_of size (df : list record) draws r :
  r ∈ (apply_groups (balance_group rng size) (groupby df) draws).1 → r ∈ df.
Proof.
  unfold groupby. generalize (group_keys df) as keys. intros keys. revert draws.
  induction keys as [|k ks IH]; intros draws; simpl.
  - intros H. by apply elem_of_nil in H.
  - destruct (balance_group rng size (filter (fun r => VehicleCount r = k) df) draws)
      as [out d1] eqn:Hout.
    specialize (IH d1).
    destruct (apply_groups _ _ d1) as [rest d2]. simpl in *.
    intros H. apply elem_of_app in H as [H|H]; [|by apply IH].
    assert (r ∈ filter (fun r => VehicleCount r = k) df) as Hr.
    { apply (balance_group_elem_of rng size _ draws). by rewrite Hout. }
    by apply list_elem_of_filter in Hr as [_ ?].
Qed.

End Groups.

Lemma filter_all {A} (P : A → Prop) `{∀ x, base.Decision (P x)} (l : list A) :
  (∀ x, x ∈ l → P x) → filter P l = l.
Proof.
  induction l as [|x l IH]; intros HP; [done|].
  rewrite filter_cons, decide_True by (apply HP; by left).
  f_equal. apply IH. intros y Hy. apply HP. by right.
Qed.

Lemma filter_none {A} (P : A → Prop) `{∀ x, base.Decision (P x)} (l : list A) :
  (∀ x, x ∈ l → ¬ P x) → filter P l = [].
Proof.
  induction l as [|x l IH]; intros HP; [done|].
  rewrite filter_cons, decide_False by (apply HP; by left).
  apply IH. intros y Hy. apply HP. by right.
Qed.

Lemma stratum_filter key (P : record → Prop) `{∀ x, base.Decision (P x)} df :
  stratum key (filter P df) = filter P (stratum key df).
Proof.
  unfold stratum. rewrite !list_filter_filter. apply list_filter_iff. intros r. tauto.
Qed.

Lemma length_two_classes (l : list record) :
  length (filter (fun r => Result r = "fail") l)
  + length (filter (fun r => Result r = "success") l) ≤ length l.
Proof.
  induction l as [|r l IH]; [done|].
  rewrite !filter_cons. destruct (decide (Result r = "fail")) as [Hf|Hf].
  - rewrite decide_False by (rewrite Hf; done). simpl. lia.
  - case_decide; simpl; lia.
Qed.

Lemma capped_length cap input output :
  capped cap input output → length output ≤ length input.
Proof. by intros [? _]. Qed.

Lemma elem_of_arrangements k l perm :
  perm ∈ arrangements k l ↔
  length perm = k ∧ NoDup perm ∧ ∀ x, x ∈ perm → x ∈ l.
Proof.
  revert l perm. induction k as [|k IH]; intros l perm; cbn [arrangements].
  - rewrite list_elem_of_singleton. split.
    + intros ->. split; [done|]. split; [constructor|]. intros x Hx.
      by apply elem_of_nil in Hx.
    + intros (Hlen & _). by destruct perm.
  - rewrite list_elem_of_bind. split.
    + intros (x & Hperm & Hx). apply list_elem_of_fmap in Hperm as (rest & -> & Hrest).
      apply IH in Hrest as (Hlen & Hnd & Hsub). split; [by rewrite <- Hlen|]. split.
      * constructor; [|done]. intros Hin. apply Hsub in Hin.
        apply list_elem_of_filter in Hin as [Hne _]. done.
      * intros y Hy. apply elem_of_cons in Hy as [->|Hy]; [done|].
        apply Hsub in Hy. by apply list_elem_of_filter in Hy as [_ ?].
    + intros (Hlen & Hnd & Hsub). destruct perm as [|x rest]; [done|].
      apply NoDup_cons in Hnd as [Hx Hnd]. exists x. split; [|apply Hsub; left].
      apply list_elem_of_fmap. exists rest. split; [done|]. apply IH.
      split; [by injection Hlen|]. split; [done|]. intros y Hy.
      apply list_elem_of_filter. split; [by intros ->|]. apply Hsub. by right.
Qed.

Lemma NoDup_arrangements k l : NoDup l → NoDup (arrangements k l).
Proof.
  revert l. induction k as [|k IH]; intros l Hl; cbn [arrangements].
  - apply NoDup_singleton.
  - apply NoDup_bind; [| |done].
    + intros x1 x2 perm _ _ H1 H2.
      apply list_elem_of_fmap in H1 as (r1 & -> & _).
      apply list_elem_of_fmap in H2 as (r2 & Heq & _). by injection Heq.
    + intros x _. apply NoDup_fmap_2; [|apply IH, NoDup_filter, Hl].
      by intros r1 r2 [= ->].
Qed.

Lemma length_bind_constant {A B} (f : A → list B) (l : list A) (c : nat) :
  (∀ x, x ∈ l → length (f x) = c) → length (l ≫= f) = length l * c.
Proof.
  induction l as [|x l IH]; intros Hc; [done|].
  rewrite bind_cons, length_app, IH, Hc; [simpl; lia|left|].
  intros y Hy. apply Hc. by right.
Qed.

Lemma length_filter_other (l : list nat) (x : nat) :
  NoDup l → x ∈ l → S (length (filter (fun y => y ≠ x) l)) = length l.
Proof.
  induction 1 as [|y l Hy Hnd IH]; intros Hx; [by apply elem_of_nil in Hx|].
  rewrite filter_cons. destruct (decide (y = x)) as [->|Hne].
  - rewrite decide_False by (intros H; by apply H).
    rewrite filter_all; [done|]. intros z Hz ->. done.
  - rewrite decide_True by done. cbn [length]. f_equal. apply IH.
    apply elem_of_cons in Hx as [?|?]; [by subst|done].
Qed.

Lemma length_permutations (l : list nat) :
  NoDup l → length (arrangements (length l) l) = fact (length l).
Proof.
  remember (length l) as n eqn:Hn. revert l Hn.
  induction n as [|n IH]; intros l Hn Hl; [done|].
  cbn [arrangements].
  rewrite (length_bind_constant _ l (fact n)); [rewrite <- Hn; done|].
  intros x Hx. rewrite length_fmap. apply IH; [|by apply NoDup_filter].
  pose proof (length_filter_other l x Hl Hx). lia.
Qed.

Lemma filter_bind {A B} (P : B → Prop) `{∀ y, base.Decision (P y)}
    (f : A → list B) (l : list A) :
  filter P (l ≫= f) = l ≫= (fun x => filter P (f x)).
Proof.
  induction l as [|x l IH]; [done|]. by rewrite !bind_cons, filter_app, IH.
Qed.

Lemma length_bind_single {B} (g : nat → list B) (l : list nat) (j : nat) :
  NoDup l → j ∈ l → (∀ x, x ≠ j → g x = []) → length (l ≫= g) = length (g j).
Proof.
  intros Hl Hj Hg. induction Hl as [|y l Hy Hnd IH]; [by apply elem_of_nil in Hj|].
  rewrite bind_cons, length_app. destruct (decide (y = j)) as [->|Hne].
  - rewrite (length_bind_constant g l 0); [lia|].
    intros x Hx. rewrite Hg; [done|]. by intros ->.
  - rewrite (Hg y Hne), IH; [done|]. apply elem_of_cons in Hj as [?|?]; [by subst|done].
Qed.

Lemma filter_take_cons k j positions x (perms : list (list nat)) :
  filter (fun perm => take (S k) perm = j :: positions) (cons x <$> perms)
  = if decide (x = j)
    then cons x <$> filter (fun perm => take k perm = positions) perms
    else [].
Proof.
  induction perms as [|perm perms IH]; [by case_decide|].
  rewrite fmap_cons, !filter_cons, IH. cbn [take].
  destruct (decide (x = j)) as [->|Hne].
  - destruct (decide (take k perm = positions)) as [->|Hn].
    + by rewrite decide_True.
    + rewrite decide_False; [done|]. by intros [= ?].
  - rewrite decide_False; [done|]. by intros [= ?].
Qed.

Lemma count_permutations_taking (l positions : list nat) :
  NoDup l → NoDup positions → (∀ i, i ∈ positions → i ∈ l) →
  length (filter (fun perm => take (length positions) perm = positions)
            (arrangements (length l) l))
  = fact (length l - length positions).
Proof.
  intros Hl Hp. revert l Hl. induction Hp as [|j positions Hj Hp IH]; intros l Hl Hsub.
  - rewrite filter_all by done. rewrite Nat.sub_0_r. by apply length_permutations.
  - assert (j ∈ l) as Hjl by (apply Hsub; left).
    pose proof (length_filter_other l j Hl Hjl) as Hlen.
    rewrite <- Hlen. cbn [arrangements length]. rewrite filter_bind.
    rewrite (length_bind_single _ l j Hl Hjl).
    + rewrite filter_take_cons, decide_True, length_fmap by done.
      change (S (length (filter (λ y, y ≠ j) l)) - S (length positions))
        with (length (filter (λ y, y ≠ j) l) - length positions).
      apply IH; [by apply NoDup_filter|].
      intros i Hi. apply list_elem_of_filter. split; [by intros ->|].
      apply Hsub. by right.
    + intros x Hx. by rewrite filter_take_cons, decide_False.
Qed.

Lemma uniform_choice_holds len cap : uniform_choice len cap.
Proof.
  unfold uniform_choice, draws_taking, permutations_of_range.
  pose proof (NoDup_seq 0 len) as Hnd.
  split; [by apply NoDup_arrangements|].
  split.
  { pose proof (length_permutations (seq 0 len) Hnd) as H.
    by rewrite length_seq in H. }
  split.
  - intros perm. rewrite elem_of_arrangements. split.
    + intros (Hlen & Hp & Hsub). apply submseteq_length_Permutation.
      * by apply NoDup_submseteq.
      * by rewrite Hlen, length_seq.
    + intros Hperm. split; [by rewrite Hperm, length_seq|].
      split; [by rewrite Hperm|]. intros x. by rewrite Hperm.
  - intros positions <- Hp Hsub.
    pose proof (count_permutations_taking (seq 0 len) positions Hnd Hp) as H.
    rewrite length_seq in H. apply H.
    intros i Hi. apply elem_of_seq. specialize (Hsub i Hi). lia.
Qed.

(** C2.  For every vehicle count, in classifier mode for the fail and the
    success records separately and otherwise for the success records: the
    stratum of the output is no larger than that of the input and equals it
    when it is shorter than the cap.  Otherwise it holds exactly cap records
    of the input stratum, none twice: the rows at the first cap entries of a
    permutation the generator draws.  Every choice of cap positions is taken
    along the same number of the permutations of the stratum's positions, so
    a uniformly drawn permutation draws the sample uniformly.  The stratum of
    the whole output is no larger than that of the whole input. *)
Theorem balance_caps_every_stratum
    (rng : nat → nat → list nat) (cfg : config) (method : string)
    (data_set : list record) (key : Z) :
  (∀ k len, rng k len ≡ₚ seq 0 len) →
  let out := balance rng cfg method data_set in
  let fails := filter (fun r => Result r = "fail") data_set in
  let successes := filter (fun r => Result r = "success") data_set in
  (method = "classifier" →
     let cap := length (stratum (max_vehicle cfg) fails) / 2 in
     capped cap (stratum key fails)
       (stratum key (filter (fun r => Result r = "fail") out)) ∧
     capped cap (stratum key successes)
       (stratum key (filter (fun r => Result r = "success") out)) ∧
     sampled rng cap (stratum key fails)
       (stratum key (filter (fun r => Result r = "fail") out)) ∧
     sampled rng cap (stratum key successes)
       (stratum key (filter (fun r => Result r = "success") out)) ∧
     uniform_choice (length (stratum key fails)) cap ∧
     uniform_choice (length (stratum key successes)) cap ∧
     length (stratum key out) ≤ length (stratum key data_set)) ∧
  (method ≠ "classifier" →
     let cap := length (stratum (max_vehicle cfg) successes) / 3 in
     capped cap (stratum key successes) (stratum key out) ∧
     sampled rng cap (stratum key successes) (stratum key out) ∧
     uniform_choice (length (stratum key successes)) cap ∧
     length (stratum key out) ≤ length (stratum key data_set)).
Proof.
  intros Hrng out fails successes. split.
  - intros Hm cap. subst out. unfold balance. rewrite decide_True by done.
    fold fails. fold successes. fold (stratum (max_vehicle cfg) fails). fold cap.
    destruct (groupby_apply_stratum rng cap successes 0 key) as [d1 H1].
    pose proof (groupby_apply_elem_of rng cap successes 0) as E1.
    destruct (apply_groups (balance_group rng cap) (groupby successes) 0)
      as [df1 draws].
    destruct (groupby_apply_stratum rng cap fails draws key) as [d0 H0].
    pose proof (groupby_apply_elem_of rng cap fails draws) as E0.
    destruct (apply_groups (balance_group rng cap) (groupby fails) draws)
      as [df0 draws'].
    cbn [fst] in *.
    assert (∀ r, r ∈ df0 → Result r = "fail") as F0.
    { intros r Hr. apply E0 in Hr. by apply list_elem_of_filter in Hr as [? _]. }
    assert (∀ r, r ∈ df1 → Result r = "success") as F1.
    { intros r Hr. apply E1 in Hr. by apply list_elem_of_filter in Hr as [? _]. }
    assert (filter (fun r => Result r = "fail") (df0 ++ df1) = df0) as ->.
    { rewrite filter_app, filter_all, filter_none, app_nil_r; [done| |done].
      intros r Hr. rewrite (F1 r Hr). done. }
    assert (filter (fun r => Result r = "success") (df0 ++ df1) = df1) as ->.
    { rewrite filter_app, filter_none, filter_all; [done|done|].
      intros r Hr. rewrite (F0 r Hr). done. }
    pose proof (balance_group_capped rng Hrng cap (stratum key fails) d0) as C0.
    pose proof (balance_group_capped rng Hrng cap (stratum key successes) d1) as C1.
    pose proof (balance_group_sampled rng cap (stratum key fails) d0) as S0.
    pose proof (balance_group_sampled rng cap (stratum key successes) d1) as S1.
    rewrite <- H0 in C0, S0. rewrite <- H1 in C1, S1.
    split; [done|]. split; [done|]. split; [done|]. split; [done|].
    split; [apply uniform_choice_holds|]. split; [apply uniform_choice_holds|].
    unfold stratum at 1. rewrite filter_app, length_app.
    fold (stratum key df0). fold (stratum key df1).
    apply capped_length in C0, C1.
    pose proof (length_two_classes (stratum key data_set)) as Hsum.
    unfold fails, successes in C0, C1. rewrite stratum_filter in C0, C1. lia.
  - intros Hm cap. subst out. unfold balance. rewrite decide_False by done.
    fold successes. fold (stratum (max_vehicle cfg) successes). fold cap.
    destruct (groupby_apply_stratum rng cap successes 0 key) as [d1 H1].
    rewrite H1.
    pose proof (balance_group_capped rng Hrng cap (stratum key successes) d1) as C1.
    pose proof (balance_group_sampled rng cap (stratum key successes) d1) as S1.
    split; [done|]. split; [done|]. split; [apply uniform_choice_holds|].
    apply capped_length in C1.
    transitivity (length (stratum key successes)); [done|].
    unfold successes. rewrite stratum_filter. apply length_filter.
Qed.

Section MainFacts.

Variable float_repr : R → string.
Variable rng : nat → nat → list nat.

Lemma main_writes cfg fs target method datatype reads frames decision cols :
  load cfg fs datatype = (reads, inr frames) →
  frames ≠ [] →
  getDecisionColumnName target = inr decision →
  target_columns target method = inr cols →
  main float_repr rng cfg fs target method datatype
  = (reads ++ [WriteFile (arff_path cfg target method datatype)
                 (arff_lines float_repr target cols
                    (extract cols (balanced_data_set rng cfg method decision frames)))],
     inr tt).
Proof.
  intros Hload Hne Hdec Hcols. unfold main. rewrite Hload, io_bind_inr.
  unfold lift_exn.
  assert (pd_concat frames = inr (concat frames)) as -> by (by destruct frames).
  rewrite io_bind_inr, Hdec, io_bind_inr.
  fold (target_columns target method). rewrite Hcols, io_bind_inr.
  cbn [fst snd app]. done.
Qed.

End MainFacts.

Lemma extract_columns cols data_set : (extract cols data_set).*1 = cols.
Proof.
  unfold extract. induction cols as [|c cols IH]; [done|].
  rewrite !fmap_cons. cbn [fst]. by f_equal.
Qed.

Lemma extract_cell cols data_set ci column k r :
  cols !! ci = Some column → data_set !! k = Some r →
  ∃ col, extract cols data_set !! ci = Some (column, col) ∧
         length col = length data_set ∧
         col !! k = Some (normalised_cell data_set column r).
Proof.
  intros Hc Hr. unfold extract. rewrite list_lookup_fmap, Hc.
  cbn [fmap option_fmap option_map].
  eexists. split; [done|]. unfold normalised_cell.
  destruct (decide (column = "Result" ∨ column = "ServiceTime")) as [Hp|Hn].
  - unfold get_column. destruct (decide (column = "Result")) as [HR|HnR].
    + rewrite length_fmap, list_lookup_fmap, Hr. done.
    + destruct Hp as [?|HS]; [done|]. rewrite (decide_True _ _ HS).
      rewrite length_fmap, list_lookup_fmap, Hr. by rewrite HS.
  - rewrite decide_False by tauto. rewrite decide_False by tauto.
    unfold znorm. rewrite !length_fmap, !list_lookup_fmap, Hr. done.
Qed.

(** A zero standard deviation means every non-missing value is the mean. *)
Lemma pd_std_zero_all_equal column :
  pd_std column = Fin 0 →
  2 ≤ length (finite_part column) ∧
  ∀ x, x ∈ finite_part column → pd_mean column = Fin x.
Proof.
  unfold pd_std, pd_mean. intros Hstd.
  destruct (decide (2 ≤ length (finite_part column))) as [Hlen|Hlen].
  2: { rewrite np_std_short in Hstd by lia. done. }
  split; [done|]. intros x Hx. rewrite np_std_fin in Hstd by done.
  set (ys := finite_part column) in *.
  set (m := (Rsum ys / INR (length ys))%R) in *.
  destruct (Rlt_dec _ 0) as [?|Hnn]; [done|].
  injection Hstd as Hsq. apply sqrt_eq_0 in Hsq; [|lra].
  pose proof (INR_ge_2 _ Hlen) as Hk.
  assert (Rsum ((fun x => (x - m) * (x - m))%R <$> ys) = 0%R) as Hsum.
  { apply Rmult_eq_compat_r with (r := (INR (length ys) - 1)%R) in Hsq.
    field_simplify in Hsq; lra. }
  rewrite (Rsum_squares_zero m ys Hsum x Hx).
  rewrite nanmean_fin; [done|].
  intros E. fold ys in E. rewrite E in Hx. by apply elem_of_nil in Hx.
Qed.

Lemma znorm_zero_std column :
  pd_std column = Fin 0 → znorm column = replicate (length column) NaN.
Proof.
  intros Hstd. unfold znorm. rewrite Hstd. apply fmap_constant.
  intros v. apply ddiv_zero.
Qed.

(** A column whose non-missing values, at least two, are all the number [c]
    has mean [c] and standard deviation 0. *)
Lemma constant_column_statistics column c :
  2 ≤ length (finite_part column) →
  (∀ x, x ∈ finite_part column → x = c) →
  pd_mean column = Fin c ∧ pd_std column = Fin 0.
Proof.
  intros Hlen Hall.
  assert (finite_part column = replicate (length (finite_part column)) c) as Heq.
  { symmetry. apply replicate_as_Forall. split; [done|].
    apply Forall_forall. intros x Hx. symmetry. by apply Hall. }
  split.
  - unfold pd_mean. rewrite nanmean_fin
      by (intros E; rewrite E in Hlen; simpl in Hlen; lia).
    rewrite Heq, length_replicate, Rsum_replicate. f_equal.
    pose proof (INR_ge_2 _ Hlen). field. lra.
  - unfold pd_std. rewrite Heq, fmap_replicate. by apply np_std_constant.
Qed.

(** C5, as amended.  Take a normalised column that is constant over the
    balanced data set: its non-missing values, at least two, are one integer
    [c], small enough for pandas to add them up without rounding, so that the
    mean is [c] and the standard deviation is 0 in the script as well.  Then
    the column becomes NaN in every row, NaN is written as an empty field,
    and the run still ends normally with the file written. *)
Theorem zero_std_column_is_silently_undefined
    (float_repr : R → string) (rng : nat → nat → list nat) (cfg : config)
    (fs : filesystem) (target method datatype : string) (reads : list event)
    (frames : list (list record)) (decision : string) (cols : list string)
    (ci : nat) (column : string) (c : Z) :
  load cfg fs datatype = (reads, inr frames) →
  frames ≠ [] →
  getDecisionColumnName target = inr decision →
  target_columns target method = inr cols →
  cols !! ci = Some column →
  column ≠ "Result" → column ≠ "ServiceTime" →
  let balanced := balanced_data_set rng cfg method decision frames in
  let whole := (fun r => metric r column) <$> balanced in
  2 ≤ length (finite_part whole) →
  (∀ x, x ∈ finite_part whole → x = IZR c) →
  (Z.abs c * Z.of_nat (length whole) ≤ 2 ^ 53)%Z →
  main float_repr rng cfg fs target method datatype
  = (reads ++ [WriteFile (arff_path cfg target method datatype)
                 (arff_lines float_repr target cols (extract cols balanced))],
     inr tt) ∧
  pd_mean whole = Fin (IZR c) ∧
  pd_std whole = Fin 0 ∧
  (∀ x, x ∈ finite_part whole → pd_mean whole = Fin x) ∧
  extract cols balanced !! ci
  = Some (column, replicate (length balanced) (CNum NaN)) ∧
  csv_field float_repr (CNum NaN) = EmptyString.
Proof.
  intros Hload Hne Hdec Hcols Hc HR HS balanced whole Hlen Hall _.
  destruct (constant_column_statistics whole (IZR c) Hlen Hall) as [Hmean Hstd].
  split; [by apply main_writes|].
  split; [done|]. split; [done|].
  split; [by apply pd_std_zero_all_equal|].
  split; [|done].
  unfold extract. rewrite list_lookup_fmap, Hc. cbn [fmap option_fmap option_map].
  rewrite decide_False by tauto. fold whole.
  rewrite znorm_zero_std by done. unfold whole.
  by rewrite length_fmap, fmap_replicate.
Qed.

(** C5 fails: six equal records give two balanced rows with constant
    features; the run ends normally and writes rows with empty fields. *)
Lemma zero_std_run_succeeds :
  main (fun _ => "2.0") (fun _ len => seq 0 len) cfg_one_run fs_six_equal
    "edge" "regression" "train"
  = ([ReadCsv "sim_results/ite1/100_learnerOutputFile.cvs";
      WriteFile "sim_results/edge_regression_train.arff"
        ["@relation edge"; EmptyString;
         "@attribute TaskLength REAL"; "@attribute AvgEdgeUtilization REAL";
         "@attribute ServiceTime REAL"; EmptyString; "@data";
         ",,2.0"; ",,2.0"]],
     inr tt).
Proof.
  rewrite (main_writes _ _ cfg_one_run fs_six_equal "edge" "regression" "train"
             [ReadCsv "sim_results/ite1/100_learnerOutputFile.cvs"]
             [set_vehicle 100 <$> replicate 6 record_all_two] "EDGE"
             ["TaskLength"; "AvgEdgeUtilization"; "ServiceTime"]);
    [|reflexivity|done|reflexivity|reflexivity].
  assert (balanced_data_set (fun _ len => seq 0 len) cfg_one_run "regression" "EDGE"
            [set_vehicle 100 <$> replicate 6 record_all_two]
          = replicate 2 (set_vehicle 100 record_all_two)) as -> by reflexivity.
  unfold extract. cbn [fmap list_fmap].
  rewrite !decide_False by (intros [?|?]; done).
  rewrite decide_True by (by right).
  rewrite !znorm_zero_std by (apply (np_std_constant 2 2); lia).
  reflexivity.
Qed.

Lemma split_on_free sep s : free_of sep s → split_on sep s = [s].
Proof.
  unfold free_of. induction s as [|c s IH]; intros Hs; [done|].
  simpl in *. rewrite decide_False.
  - rewrite IH; [done|]. intros H. apply Hs. by right.
  - intros ->. apply Hs. by left.
Qed.

Lemma split_on_app sep s1 s2 :
  free_of sep s1 → split_on sep (s1 +:+ String sep s2) = s1 :: split_on sep s2.
Proof.
  unfold free_of. induction s1 as [|c s1 IH]; intros Hs; simpl.
  - by rewrite decide_True.
  - simpl in Hs. rewrite decide_False.
    + rewrite IH; [done|]. intros H. apply Hs. by right.
    + intros ->. apply Hs. by left.
Qed.

Lemma split_on_concat fields :
  fields ≠ [] → Forall (free_of ",") fields →
  split_on "," (String.concat "," fields) = fields.
Proof.
  intros Hne Hfree. induction Hfree as [|x l Hx Hl IH]; [done|].
  destruct l as [|y l].
  - simpl. by apply split_on_free.
  - change (String.concat "," (x :: y :: l))
      with (x +:+ String "," (String.concat "," (y :: l))).
    rewrite split_on_app by done. f_equal. by apply IH.
Qed.

Lemma target_columns_cases target method cols :
  target_columns target method = inr cols →
  cols ≠ [] ∧ ("Result" ∈ cols → method = "classifier").
Proof.
  unfold target_columns, getClassifierColumns, getRegressionColumns.
  destruct (decide (method = "classifier")) as [Hm|Hm].
  - intros H. split; [|done]. repeat case_decide; by simplify_eq.
  - intros H. split.
    + repeat case_decide; by simplify_eq.
    + intros Hin. exfalso.
      repeat case_decide; simplify_eq;
        repeat (apply elem_of_cons in Hin as [Hin|Hin]; [done|]);
        by apply elem_of_nil in Hin.
Qed.

Lemma balance_classifier_results rng cfg data_set r :
  r ∈ balance rng cfg "classifier" data_set →
  Result r = "fail" ∨ Result r = "success".
Proof.
  unfold balance. rewrite decide_True by done.
  set (fails := filter (fun r => Result r = "fail") data_set).
  set (successes := filter (fun r => Result r = "success") data_set).
  set (cap := (length _ / 2)).
  pose proof (groupby_apply_elem_of rng cap successes 0) as E1.
  destruct (apply_groups (balance_group rng cap) (groupby successes) 0)
    as [df1 draws].
  pose proof (groupby_apply_elem_of rng cap fails draws) as E0.
  destruct (apply_groups (balance_group rng cap) (groupby fails) draws)
    as [df0 draws'].
  cbn [fst] in *. intros Hr. apply elem_of_app in Hr as [Hr|Hr].
  - left. apply E0 in Hr. by apply list_elem_of_filter in Hr as [? _].
  - right. apply E1 in Hr. by apply list_elem_of_filter in Hr as [? _].
Qed.

Lemma column_lookup data_set column k r :
  data_set !! k = Some r →
  (if decide (column = "Result" ∨ column = "ServiceTime")
   then get_column column data_set
   else CNum <$> znorm ((fun r => metric r column) <$> data_set)) !! k
  = Some (normalised_cell data_set column r).
Proof.
  intros Hr. unfold normalised_cell.
  destruct (decide (column = "Result" ∨ column = "ServiceTime")) as [Hp|Hn].
  - unfold get_column. destruct (decide (column = "Result")) as [HR|HnR].
    + by rewrite list_lookup_fmap, Hr.
    + destruct Hp as [?|HS]; [done|]. rewrite (decide_True _ _ HS).
      rewrite list_lookup_fmap, Hr. by rewrite HS.
  - rewrite decide_False by tauto. rewrite decide_False by tauto.
    unfold znorm. by rewrite !list_lookup_fmap, Hr.
Qed.

Lemma row_cells_extract cols data_set k r :
  data_set !! k = Some r →
  row_cells (extract cols data_set) k
  = (fun column => normalised_cell data_set column r) <$> cols.
Proof.
  intros Hr. unfold row_cells, extract.
  induction cols as [|c cols IH]; [done|].
  rewrite !fmap_cons. cbn [omap list_omap snd].
  rewrite (column_lookup data_set c k r Hr). by rewrite <- IH.
Qed.

Lemma nrows_extract cols data_set :
  cols ≠ [] → nrows (extract cols data_set) = length data_set.
Proof.
  destruct cols as [|c cols]; [done|]. intros _. unfold extract. simpl.
  case_decide.
  - unfold get_column. case_decide; by rewrite length_fmap.
  - unfold znorm. by rewrite !length_fmap.
Qed.

Lemma csv_field_free float_repr data_set column r :
  (∀ x, free_of "," (float_repr x)) →
  (column = "Result" → Result r = "fail" ∨ Result r = "success") →
  free_of "," (csv_field float_repr (normalised_cell data_set column r)).
Proof.
  intros Hrepr Hres. unfold normalised_cell.
  assert (free_of "," EmptyString) as Hempty by apply not_elem_of_nil.
  assert (∀ x, free_of "," (csv_field float_repr (CNum x))) as Hnum.
  { intros [x|]; simpl; [apply Hrepr|done]. }
  destruct (decide (column = "Result")) as [HR|_]; [|case_decide; apply Hnum].
  simpl. destruct (Hres HR) as [-> | ->]; unfold free_of; simpl;
    intros Hin; repeat (apply elem_of_cons in Hin as [Hin|Hin]; [done|]);
    by apply elem_of_nil in Hin.
Qed.

(** C9.  The file holds the relation line, one attribute line per selected
    column ([class {fail,success}] for [Result], [REAL] for the others), the
    data marker, and one line per balanced record and nothing else.  A line is
    the record's fields joined by commas in column order; it splits at commas
    back into as many fields as there are columns, and the [Result] field is
    fail or success. *)
Theorem arff_attributes_and_rows
    (float_repr : R → string) (rng : nat → nat → list nat) (cfg : config)
    (fs : filesystem) (target method datatype : string) (reads : list event)
    (frames : list (list record)) (decision : string) (cols : list string) :
  (∀ x, free_of "," (float_repr x)) →
  load cfg fs datatype = (reads, inr frames) →
  frames ≠ [] →
  getDecisionColumnName target = inr decision →
  target_columns target method = inr cols →
  let balanced := balanced_data_set rng cfg method decision frames in
  ∃ rows,
    main float_repr rng cfg fs target method datatype
    = (reads ++ [WriteFile (arff_path cfg target method datatype)
                   (["@relation " +:+ target; EmptyString]
                      ++ (attribute_line <$> cols)
                      ++ [EmptyString; "@data"] ++ rows)], inr tt) ∧
    (∀ ci column, cols !! ci = Some column →
       (attribute_line <$> cols) !! ci
       = Some (if decide (column = "Result") then "@attribute class {fail,success}"
               else "@attribute " +:+ column +:+ " REAL")) ∧
    length rows = length balanced ∧
    ∀ k r, balanced !! k = Some r →
      ∃ fields,
        rows !! k = Some (String.concat "," fields) ∧
        split_on "," (String.concat "," fields) = fields ∧
        length fields = length cols ∧
        ∀ ci column, cols !! ci = Some column →
          fields !! ci
          = Some (csv_field float_repr (normalised_cell balanced column r)) ∧
          (column = "Result" →
           fields !! ci = Some "fail" ∨ fields !! ci = Some "success").
Proof.
  intros Hrepr Hload Hne Hdec Hcols balanced.
  destruct (target_columns_cases target method cols Hcols) as [Hcne Hcls].
  exists (to_csv float_repr (extract cols balanced)).
  split; [by apply main_writes|].
  split. { intros ci column Hc. by rewrite list_lookup_fmap, Hc. }
  split. { unfold to_csv. by rewrite length_fmap, length_seq, nrows_extract. }
  intros k r Hr.
  assert (∀ column, column ∈ cols → column = "Result" →
                    Result r = "fail" ∨ Result r = "success") as Hres.
  { intros column Hin ->. specialize (Hcls Hin). subst method.
    apply (balance_classifier_results rng cfg
             (filter (fun r => Decision r = decision) (concat frames))).
    by eapply list_elem_of_lookup_2. }
  exists (csv_field float_repr <$> row_cells (extract cols balanced) k).
  rewrite (row_cells_extract cols balanced k r Hr).
  split; [|split; [|split]].
  - unfold to_csv. rewrite list_lookup_fmap, lookup_seq_lt.
    + simpl. by rewrite (row_cells_extract cols balanced k r Hr).
    + rewrite nrows_extract by done. by eapply lookup_lt_Some.
  - apply split_on_concat.
    + destruct cols; [done|]. by rewrite !fmap_cons.
    + rewrite <- list_fmap_compose. apply Forall_fmap, Forall_forall.
      intros column Hin. simpl. apply csv_field_free; [done|]. by apply Hres.
  - by rewrite !length_fmap.
  - intros ci column Hc. rewrite !list_lookup_fmap, Hc. split; [done|].
    intros ->. cbn [fmap option_fmap option_map].
    unfold normalised_cell. rewrite decide_True by done. cbn [csv_field].
    destruct (Hres "Result") as [-> | ->]; [by eapply list_elem_of_lookup_2|done| |];
      auto.
Qed.

Lemma rng_reverse_permutation k len : rng_reverse k len ≡ₚ seq 0 len.
Proof. apply reverse_Permutation. Qed.

(** C2 for nine different success records of one vehicle count, regression
    mode, and the generator that returns the reversed range: the cap is 3 and
    the stratum holds the last three records, the last one first. *)
Lemma balance_caps_every_stratum_witness :
  (∀ k len, rng_reverse k len ≡ₚ seq 0 len) ∧
  stratum 100 (balance rng_reverse cfg_one_run "regression" nine_numbered)
  = [record_numbered 8; record_numbered 7; record_numbered 6] ∧
  draws_taking 9 3 [8; 7; 6] = fact 6.
Proof.
  split; [exact rng_reverse_permutation|].
  destruct (proj2 (balance_caps_every_stratum rng_reverse cfg_one_run "regression"
              nine_numbered 100 rng_reverse_permutation) ltac:(done))
    as (_ & Hsampled & (_ & _ & _ & Huniform) & _).
  split.
  - destruct Hsampled as [draw ->]; [simpl; lia|]. reflexivity.
  - apply (Huniform [8; 7; 6]); [reflexivity| |].
    + repeat (apply NoDup_cons; split;
                [intros Hin; repeat (apply elem_of_cons in Hin as [Hin|Hin]; [lia|]);
                 by apply elem_of_nil in Hin|]).
      apply NoDup_nil_2.
    + intros i Hin. repeat (apply elem_of_cons in Hin as [->|Hin]; [simpl; lia|]).
      by apply elem_of_nil in Hin.
Defined.

Lemma load_six_equal :
  load cfg_one_run fs_six_equal "train"
  = ([ReadCsv "sim_results/ite1/100_learnerOutputFile.cvs"], inr [six_at_hundred]).
Proof. reflexivity. Qed.

Lemma free_of_two : ∀ x : R, free_of "," ((fun _ : R => "2.0") x).
Proof.
  intros x. unfold free_of. simpl. intros Hin.
  repeat (apply elem_of_cons in Hin as [Hin|Hin]; [done|]).
  by apply elem_of_nil in Hin.
Qed.

(** C9 on the same run, every number printed as 2.0. *)
Lemma arff_attributes_and_rows_witness :
  (∀ x : R, free_of "," ((fun _ : R => "2.0") x)) ∧
  ∃ lines,
    main (fun _ => "2.0") rng_identity cfg_one_run fs_six_equal "edge" "regression"
      "train"
    = ([ReadCsv "sim_results/ite1/100_learnerOutputFile.cvs";
        WriteFile "sim_results/edge_regression_train.arff" lines], inr tt).
Proof.
  split; [exact free_of_two|].
  destruct (arff_attributes_and_rows (fun _ => "2.0") rng_identity cfg_one_run
              fs_six_equal "edge" "regression" "train"
              [ReadCsv "sim_results/ite1/100_learnerOutputFile.cvs"] [six_at_hundred]
              "EDGE" ["TaskLength"; "AvgEdgeUtilization"; "ServiceTime"]
              free_of_two load_six_equal ltac:(done) eq_refl eq_refl)
    as (rows & Hmain & _).
  eexists. exact Hmain.
Defined.

(** C5 amended, on the same run: the TaskLength column holds the integer 2
    in both balanced rows. *)
Lemma zero_std_column_is_silently_undefined_witness :
  pd_std ((fun r => metric r "TaskLength")
            <$> balanced_data_set rng_identity cfg_one_run "regression" "EDGE"
                  [six_at_hundred]) = Fin 0 ∧
  extract ["TaskLength"; "AvgEdgeUtilization"; "ServiceTime"]
    (balanced_data_set rng_identity cfg_one_run "regression" "EDGE" [six_at_hundred])
    !! 0
  = Some ("TaskLength", [CNum NaN; CNum NaN]).
Proof.
  destruct (zero_std_column_is_silently_undefined (fun _ => "2.0")
              rng_identity cfg_one_run fs_six_equal "edge" "regression" "train"
              [ReadCsv "sim_results/ite1/100_learnerOutputFile.cvs"] [six_at_hundred]
              "EDGE" ["TaskLength"; "AvgEdgeUtilization"; "ServiceTime"] 0 "TaskLength"
              2 load_six_equal ltac:(done) eq_refl eq_refl eq_refl ltac:(done)
              ltac:(done))
    as (_ & _ & Hstd & _ & Hcol & _).
  - simpl. lia.
  - intros x Hx.
    change (x ∈ [2%R; 2%R]) in Hx.
    repeat (apply elem_of_cons in Hx as [->|Hx]; [reflexivity|]).
    by apply elem_of_nil in Hx.
  - simpl. lia.
  - split; [exact Hstd|exact Hcol].
Defined.

(** C6 amended, for the target [cloud]. *)
Lemma unknown_target_fails_after_reading_witness :
  "cloud" ≠ "edge" ∧
  ∃ trace e,
    main (fun _ => "2.0") rng_identity cfg_one_run fs_empty_files
      "cloud" "classifier" "train" = (trace, inl e) ∧
    ∀ ev, ev ∈ trace → ∃ p, ev = ReadCsv p.
Proof.
  split; [done|].
  refine (proj1 (unknown_target_fails_after_reading (fun _ => "2.0") rng_identity
            cfg_one_run fs_empty_files "cloud" "classifier" "train" _ _ _)); done.
Defined.

End DataConvertorFacts.

(** ** Strings and printed integers *)

Module StringFacts.

Import DataConvertor Numerals.

#[local] Abbreviation chars := String.list_ascii_of_string.

Lemma chars_app (s1 s2 : string) : chars (s1 +:+ s2) = chars s1 ++ chars s2.
Proof. induction s1 as [|c s1 IH]; [done|]. simpl. by rewrite IH. Qed.

Lemma chars_inj (s1 s2 : string) : chars s1 = chars s2 → s1 = s2.
Proof.
  intros H. rewrite <- (String.string_of_list_ascii_of_string s1).
  rewrite <- (String.string_of_list_ascii_of_string s2). by rewrite H.
Qed.

Lemma free_of_app sep s1 s2 : free_of sep s1 → free_of sep s2 → free_of sep (s1 +:+ s2).
Proof. unfold free_of. rewrite chars_app, elem_of_app. tauto. Qed.

(** A list is cut in one way only at the first occurrence of a separator. *)
Lemma first_separator {A} (c : A) (l1 l1' r r' : list A) :
  c ∉ l1 → c ∉ l1' → l1 ++ c :: r = l1' ++ c :: r' → l1 = l1' ∧ r = r'.
Proof.
  revert l1'. induction l1 as [|a l1 IH]; intros [|a' l1'] H1 H2 Heq.
  - by injection Heq as ->.
  - injection Heq as <- _. exfalso. apply H2. by left.
  - injection Heq as -> _. exfalso. apply H1. by left.
  - injection Heq as -> Heq.
    destruct (IH l1') as [-> ->]; [| |done|done].
    + intros H. apply H1. by right.
    + intros H. apply H2. by right.
Qed.

Lemma append_cut (sep : ascii) (a a' b b' : string) :
  free_of sep a → free_of sep a' →
  a +:+ String sep b = a' +:+ String sep b' → a = a' ∧ b = b'.
Proof.
  intros Ha Ha' Heq. apply (f_equal chars) in Heq. rewrite !chars_app in Heq.
  cbn [String.list_ascii_of_string] in Heq.
  apply first_separator in Heq as [H1 H2]; [|done..].
  split; by apply chars_inj.
Qed.

Lemma append_inv_tail (a a' suffix : string) :
  a +:+ suffix = a' +:+ suffix → a = a'.
Proof.
  intros Heq. apply (f_equal chars) in Heq. rewrite !chars_app in Heq.
  apply app_inv_tail in Heq. by apply chars_inj.
Qed.

Lemma pretty_N_char_numeral x : numeral (pretty_N_char x).
Proof.
  unfold numeral, pretty_N_char.
  repeat case_match; cbn [String.list_ascii_of_string];
    repeat (first [by left | right]).
Qed.

Lemma pretty_N_go_numeral x s :
  Forall numeral (chars s) → Forall numeral (chars (pretty_N_go x s)).
Proof.
  revert s. induction (N.lt_wf_0 x) as [x _ IH]; intros s Hs.
  assert (x = 0 ∨ 0 < x)%N as [->|Hx] by lia.
  - by rewrite pretty_N_go_0.
  - rewrite pretty_N_go_step by done. apply IH.
    + by apply N.div_lt.
    + cbn [String.list_ascii_of_string]. constructor; [|done].
      apply pretty_N_char_numeral.
Qed.

Lemma pretty_N_numeral (x : N) : Forall numeral (chars (pretty x)).
Proof.
  unfold pretty, pretty_N. case_decide.
  - repeat constructor.
  - apply pretty_N_go_numeral. constructor.
Qed.

Lemma pretty_Z_numeral (z : Z) : Forall numeral (chars (pretty z)).
Proof.
  destruct z as [|p|p]; unfold pretty, pretty_Z.
  - repeat constructor.
  - apply (pretty_N_numeral (N.pos p)).
  - cbn [String.append String.list_ascii_of_string]. constructor.
    + unfold numeral. cbn [String.list_ascii_of_string]. by left.
    + apply (pretty_N_numeral (N.pos p)).
Qed.

Lemma pretty_nat_numeral (n : nat) : Forall numeral (chars (pretty n)).
Proof. apply (pretty_N_numeral (N.of_nat n)). Qed.

Lemma numeral_free_of (sep : ascii) (s : string) :
  ¬ numeral sep → Forall numeral (chars s) → free_of sep s.
Proof.
  intros Hsep Hs Hin. rewrite Forall_forall in Hs. by apply Hsep, Hs.
Qed.

Lemma slash_not_numeral : ¬ numeral "/".
Proof.
  unfold numeral. cbn [String.list_ascii_of_string].
  rewrite !elem_of_cons, elem_of_nil. intros H.
  repeat (destruct H as [H|H]; [discriminate H|]). done.
Qed.

Lemma underscore_not_numeral : ¬ numeral "_".
Proof.
  unfold numeral. cbn [String.list_ascii_of_string].
  rewrite !elem_of_cons, elem_of_nil. intros H.
  repeat (destruct H as [H|H]; [discriminate H|]). done.
Qed.

End StringFacts.

(** ** [range] *)

Module RangeFacts.

(** ** The counts a range visits *)

Lemma py_range_pos start stop step :
  (0 < step)%Z →
  py_range start stop step
  = Some ((fun k => (start + Z.of_nat k * step)%Z)
            <$> seq 0 (Z.to_nat ((stop - start + step - 1) / step))).
Proof.
  intros Hs. unfold py_range.
  destruct (step =? 0)%Z eqn:H0; [lia|].
  destruct (0 <? step)%Z eqn:H1; [done|lia].
Qed.

Lemma range_index_bound start stop step (k : nat) :
  (0 < step)%Z →
  k < Z.to_nat ((stop - start + step - 1) / step) ↔ (start + Z.of_nat k * step < stop)%Z.
Proof.
  intros Hs. split.
  - intros Hk.
    assert (Z.of_nat k + 1 <= (stop - start + step - 1) / step)%Z as H by lia.
    assert ((Z.of_nat k + 1) * step <= stop - start + step - 1)%Z; [|lia].
    etransitivity; [apply Z.mul_le_mono_nonneg_r; [lia|exact H]|].
    rewrite Z.mul_comm. apply Z.mul_div_le. done.
  - intros Hk.
    assert (Z.of_nat k + 1 <= (stop - start + step - 1) / step)%Z; [|lia].
    apply Z.div_le_lower_bound; [done|]. lia.
Qed.

Lemma elem_of_py_range start stop step l x :
  (0 < step)%Z →
  py_range start stop step = Some l →
  x ∈ l ↔ (start ≤ x < stop)%Z ∧ ((x - start) mod step = 0)%Z.
Proof.
  intros Hs Hr. rewrite py_range_pos in Hr by done. injection Hr as <-.
  rewrite list_elem_of_fmap. split.
  - intros (k & -> & Hk). apply elem_of_seq in Hk.
    assert (k < Z.to_nat ((stop - start + step - 1) / step)) as Hk' by lia.
    apply range_index_bound in Hk'; [|done].
    split; [nia|].
    replace (start + Z.of_nat k * step - start)%Z with (Z.of_nat k * step)%Z by lia.
    apply Z.mod_mul. lia.
  - intros ([Hlo Hhi] & Hmod).
    apply Z.mod_divide in Hmod; [|lia]. destruct Hmod as [q Hq].
    assert (0 <= q)%Z as Hq0 by nia.
    exists (Z.to_nat q). split; [lia|].
    apply elem_of_seq. split; [lia|]. cbn [plus].
    apply range_index_bound; [done|]. lia.
Qed.

Lemma py_range_increasing start stop step l :
  (0 < step)%Z → py_range start stop step = Some l → StronglySorted Z.lt l.
Proof.
  intros Hs Hr. rewrite py_range_pos in Hr by done. injection Hr as <-.
  generalize (Z.to_nat ((stop - start + step - 1) / step)) as n. intros n.
  generalize 0 at 1 as b. revert n.
  induction n as [|n IH]; intros b; [constructor|].
  cbn [seq fmap list_fmap]. constructor; [apply IH|].
  apply Forall_forall. intros y Hy.
  apply list_elem_of_fmap in Hy as (k & -> & Hk). apply elem_of_seq in Hk. nia.
Qed.

(** X10.  With a positive step, [range(min, max + 1, step)], the vehicle
    counts of line 62 of data_convertor.py, visits exactly the counts between
    [min] and [max] that lie a multiple of the step above [min], in strictly
    increasing order.  The lower end is visited whenever the range is not
    empty; the upper end only when the step divides [max - min]. *)
Theorem counts_of_a_positive_step (min max step : Z) (counts : list Z) :
  (0 < step)%Z →
  py_range min (max + 1) step = Some counts →
  (∀ x, x ∈ counts ↔ (min ≤ x ≤ max)%Z ∧ ((x - min) mod step = 0)%Z) ∧
  StronglySorted Z.lt counts ∧
  (min ∈ counts ↔ (min ≤ max)%Z) ∧
  (max ∈ counts ↔ (min ≤ max)%Z ∧ ((max - min) mod step = 0)%Z).
Proof.
  intros Hs Hr.
  assert (∀ x, x ∈ counts ↔ (min ≤ x ≤ max)%Z ∧ ((x - min) mod step = 0)%Z) as Hin.
  { intros x. rewrite (elem_of_py_range min (max + 1) step counts x Hs Hr). lia. }
  split; [exact Hin|]. split; [by eapply py_range_increasing|]. split.
  - rewrite Hin, Z.sub_diag, Z.mod_0_l by lia. lia.
  - rewrite Hin. lia.
Qed.

(** X10 for the vehicle counts 100 to 1800 in steps of 100. *)
Lemma counts_of_a_positive_step_witness :
  (1800%Z ∈ (fun k => (100 + Z.of_nat k * 100)%Z) <$> seq 0 18
     ↔ (100 ≤ 1800)%Z ∧ ((1800 - 100) mod 100 = 0)%Z).
Proof.
  refine (proj2 (proj2 (proj2 (counts_of_a_positive_step 100 1800 100 _ _ _)))).
  - lia.
  - reflexivity.
Defined.

End RangeFacts.

(** ** data_convertor.py: further properties *)

Module DataConvertorMoreFacts.

Import DataConvertor ConvertorTerms DblFacts DataConvertorFacts StringFacts RangeFacts.

(** *** The loader without the assumption that every file exists *)

Lemma io_ret_bind {A B} (x : A) (f : A → io B) : mret x ≫= f = f x.
Proof. unfold mret, io_ret. rewrite io_bind_inr. by destruct (f x). Qed.

Lemma io_bind_assoc {A B C} (m : io A) (f : A → io B) (g : B → io C) :
  (m ≫= f) ≫= g = m ≫= (fun x => f x ≫= g).
Proof.
  destruct m as [t [e|x]]; [done|].
  rewrite !io_bind_inr. destruct (f x) as [t' [e|y]]; [done|].
  cbn [fst snd]. rewrite !io_bind_inr. cbn [fst snd]. by rewrite app_assoc.
Qed.

Lemma for_each_app {A B} (f : A → B → io B) l1 l2 acc :
  for_each f (l1 ++ l2) acc = for_each f l1 acc ≫= for_each f l2.
Proof.
  revert acc. induction l1 as [|x l1 IH]; intros acc.
  - cbn [app for_each]. by rewrite io_ret_bind.
  - cbn [app for_each]. rewrite io_bind_assoc.
    destruct (f x acc) as [t [e|acc']]; [done|].
    rewrite !io_bind_inr. by rewrite IH.
Qed.

Section Plan.

Variable cfg : config.
Variable fs : filesystem.
Variable datatype : string.

Lemma load_one_planned ite v acc :
  load_one cfg fs datatype ite v acc
  = if selected cfg datatype ite then read_planned cfg fs (ite, v) acc else mret acc.
Proof. done. Qed.

Lemma load_inner_plan ite vehicles acc :
  for_each (load_one cfg fs datatype ite) vehicles acc
  = for_each (read_planned cfg fs)
      (vehicle ← vehicles; if selected cfg datatype ite then [(ite, vehicle)] else [])
      acc.
Proof.
  revert acc. induction vehicles as [|v vs IH]; intros acc; [done|].
  rewrite bind_cons, for_each_app. cbn [for_each]. rewrite load_one_planned.
  destruct (selected cfg datatype ite) eqn:Hsel.
  - cbn [for_each]. rewrite io_bind_assoc.
    destruct (read_planned cfg fs (ite, v) acc) as [t [e|acc']]; [done|].
    rewrite !io_bind_inr, io_ret_bind. by rewrite IH.
  - cbn [for_each]. rewrite !io_ret_bind. by rewrite IH.
Qed.

Lemma load_plan vehicles :
  py_range (min_vehicle cfg) (max_vehicle cfg + 1) (vehicle_step_size cfg) = Some vehicles →
  load cfg fs datatype
  = for_each (read_planned cfg fs) (split_plan cfg datatype vehicles) [].
Proof.
  intros Hr. unfold load, split_plan. rewrite Hr. unfold lift_exn.
  generalize (@nil (list record)).
  induction (iterations cfg) as [|ite its IH]; intros acc; [done|].
  rewrite bind_cons, for_each_app. cbn [for_each].
  rewrite io_bind_inr. cbn [fst snd app].
  rewrite load_inner_plan.
  destruct (for_each (read_planned cfg fs) _ acc) as [t [e|acc']] eqn:Hin.
  - by rewrite !io_bind_inl.
  - cbn [fst snd]. rewrite !io_bind_inr. by rewrite IH.
Qed.

Lemma read_planned_exists p rows acc :
  fs (file_name cfg p.1 p.2) = Some rows →
  read_planned cfg fs p acc
  = ([read_event cfg p], inr (acc ++ [set_vehicle p.2 <$> rows])).
Proof.
  intros H. unfold read_planned, read_csv. rewrite H, io_bind_inr.
  cbn [mret io_ret fst snd]. by rewrite app_nil_r.
Qed.

Lemma read_planned_missing p acc :
  fs (file_name cfg p.1 p.2) = None →
  read_planned cfg fs p acc = ([], inl FileNotFoundError).
Proof. intros H. unfold read_planned, read_csv. by rewrite H. Qed.

Lemma for_each_read_prefix (content : Z → Z → list record) plan acc :
  (∀ p, p ∈ plan → fs (file_name cfg p.1 p.2) = Some (content p.1 p.2)) →
  for_each (read_planned cfg fs) plan acc
  = (read_event cfg <$> plan, inr (acc ++ (frame_of content <$> plan))).
Proof.
  revert acc. induction plan as [|p plan IH]; intros acc Hfs.
  - simpl. by rewrite app_nil_r.
  - cbn [for_each].
    rewrite (read_planned_exists p (content p.1 p.2)) by (apply Hfs; left).
    rewrite io_bind_inr, IH by (intros q Hq; apply Hfs; by right).
    cbn [fst snd]. rewrite !fmap_cons, <- app_assoc. done.
Qed.

Lemma split_plan_nil vehicles :
  (∀ ite, (0 ≤ ite < num_iterations cfg)%Z → selected cfg datatype ite = false) →
  split_plan cfg datatype vehicles = [].
Proof.
  intros Hno. destruct (split_plan cfg datatype vehicles) as [|[ite v] l] eqn:Hp; [done|].
  assert ((ite, v) ∈ split_plan cfg datatype vehicles) as Hin by (rewrite Hp; left).
  apply elem_of_split_plan in Hin as (Hite & _ & Hsel).
  by rewrite (Hno ite Hite) in Hsel.
Qed.

Lemma load_nothing_selected :
  (∀ ite, (0 ≤ ite < num_iterations cfg)%Z → selected cfg datatype ite = false) →
  load cfg fs datatype = ([], inr []) ∨ load cfg fs datatype = ([], inl ValueError).
Proof.
  intros Hno.
  destruct (py_range (min_vehicle cfg) (max_vehicle cfg + 1) (vehicle_step_size cfg))
    as [vehicles|] eqn:Hr.
  - left. rewrite (load_plan vehicles Hr), split_plan_nil by done. done.
  - unfold load. rewrite Hr. destruct (iterations cfg) as [|ite its]; [by left|by right].
Qed.

End Plan.

Section Main.

Variable float_repr : R → string.
Variable rng : nat → nat → list nat.

Lemma main_nothing_selected cfg fs target method datatype :
  (∀ ite, (0 ≤ ite < num_iterations cfg)%Z → selected cfg datatype ite = false) →
  main float_repr rng cfg fs target method datatype = ([], inl ValueError).
Proof.
  intros Hno. unfold main.
  destruct (load_nothing_selected cfg fs datatype Hno) as [-> | ->]; done.
Qed.

(** X3.  A data type other than train and test selects no iteration: no file
    is read, [pd.concat] of the empty list (or [range] with a zero step)
    raises ValueError, and nothing is written. *)
Theorem unknown_datatype_reads_nothing
    (cfg : config) (fs : filesystem) (target method datatype : string) :
  datatype ≠ "train" → datatype ≠ "test" →
  main float_repr rng cfg fs target method datatype = ([], inl ValueError).
Proof.
  intros Htrain Htest. apply main_nothing_selected. intros ite _.
  unfold selected. by rewrite !bool_decide_eq_false_2.
Qed.

(** The quotient of a negative int by 100 is not above 0: rounding keeps
    the sign. *)
Lemma binary_round_aux_negative mx ex lx :
  int_lt_double 0 (binary_round_aux 53 1024 true mx ex lx) = false.
Proof.
  unfold binary_round_aux.
  destruct (shr_fexp 53 1024 mx ex lx) as [mrs' e'].
  destruct (shr_fexp 53 1024 _ e' loc_Exact) as [mrs'' e''].
  destruct (shr_m mrs'') as [|m|m]; [done| |done].
  destruct (e'' <=? 1024 - 53)%Z; [|done].
  unfold int_lt_double. cbn [double_value].
  apply negb_false_iff, Qle_bool_iff. unfold Qle.
  destruct (0 <=? e'')%Z eqn:He; cbn [Qnum Qden inject_Z]; [|lia].
  apply Z.leb_le in He. pose proof (Z.pow_nonneg 2 e''). nia.
Qed.

Lemma boundary_of_nonpositive_ratio cfg ratio :
  train_data_ratio cfg = PyInt ratio → (ratio * num_iterations cfg ≤ 0)%Z →
  int_lt_double 0 (testDataStartIndex cfg) = false.
Proof.
  intros Hratio Hle. unfold testDataStartIndex. rewrite Hratio.
  destruct (ratio * num_iterations cfg)%Z as [|p|p]; [done|lia|].
  cbn [exact_int SFdiv xorb].
  destruct (SFdiv_core_binary 53 1024 (Z.pos p) 0 100 0) as [[mz ez] lz].
  apply binary_round_aux_negative.
Qed.

(** X4.  A split without iterations ends the same way.  With the boundary as
    line 59 computes it: a train run for which [0 < boundary] is false (as it
    is for an int ratio that is not positive), and a test run for which
    [num_iterations - 1 >= boundary] is false, read nothing and end with the
    ValueError of [pd.concat]. *)
Theorem empty_split_fails_at_concat
    (cfg : config) (fs : filesystem) (target method datatype : string) :
  line_59_overflows cfg = false →
  (datatype = "train" ∧ int_lt_double 0 (testDataStartIndex cfg) = false) ∨
  (datatype = "train" ∧ (0 ≤ num_iterations cfg)%Z ∧
     ∃ ratio, train_data_ratio cfg = PyInt ratio ∧ (ratio ≤ 0)%Z) ∨
  (datatype = "test" ∧
     int_ge_double (num_iterations cfg - 1) (testDataStartIndex cfg) = false) →
  main float_repr rng cfg fs target method datatype = ([], inl ValueError).
Proof.
  intros _ Hcase. apply main_nothing_selected. intros ite Hite.
  assert (datatype = "train" ∧ int_lt_double 0 (testDataStartIndex cfg) = false ∨
          datatype = "test" ∧
            int_ge_double (num_iterations cfg - 1) (testDataStartIndex cfg) = false)
    as [(-> & Hfirst) | (-> & Hlast)].
  { destruct Hcase as [?|[(-> & Hn & ratio & Hratio & Hle)|?]]; [by left| |by right].
    left. split; [done|]. apply (boundary_of_nonpositive_ratio cfg ratio Hratio). nia. }
  - rewrite selected_train.
    destruct (int_lt_double ite (testDataStartIndex cfg)) eqn:Hsel; [|done].
    apply (int_lt_double_mono 0 ite) in Hsel; [|lia]. by rewrite Hsel in Hfirst.
  - rewrite selected_test.
    destruct (int_ge_double ite (testDataStartIndex cfg)) eqn:Hsel; [|done].
    apply (int_ge_double_mono ite (num_iterations cfg - 1)) in Hsel; [|lia].
    by rewrite Hsel in Hlast.
Qed.

(** X5.  A record file that does not exist ends the run: the files planned
    before it have been read, the FileNotFoundError of [pd.read_csv] is not
    caught, no later file is read and no .arff file is written. *)
Theorem missing_file_aborts_run
    (cfg : config) (fs : filesystem) (target method datatype : string)
    (vehicles : list Z) (content : Z → Z → list record)
    (before after : list (Z * Z)) (missing : Z * Z) :
  py_range (min_vehicle cfg) (max_vehicle cfg + 1) (vehicle_step_size cfg)
    = Some vehicles →
  split_plan cfg datatype vehicles = before ++ missing :: after →
  (∀ p, p ∈ before → fs (file_name cfg p.1 p.2) = Some (content p.1 p.2)) →
  fs (file_name cfg missing.1 missing.2) = None →
  main float_repr rng cfg fs target method datatype
  = (read_event cfg <$> before, inl FileNotFoundError).
Proof.
  intros Hr Hplan Hbefore Hmissing. unfold main.
  rewrite (load_plan cfg fs datatype vehicles Hr), Hplan, for_each_app.
  rewrite (for_each_read_prefix cfg fs content) by done.
  rewrite io_bind_inr. cbn [for_each].
  rewrite read_planned_missing by done.
  rewrite !io_bind_inl. cbn [fst snd]. by rewrite app_nil_r.
Qed.

End Main.

(** X3 for the data type [validation]. *)
Lemma unknown_datatype_reads_nothing_witness :
  main (fun _ => "2.0") rng_identity cfg_one_run fs_six_equal "edge" "classifier"
    "validation"
  = ([], inl ValueError).
Proof.
  apply (unknown_datatype_reads_nothing (fun _ => "2.0") rng_identity cfg_one_run
           fs_six_equal "edge" "classifier" "validation"); discriminate.
Defined.

(** X4 for a test run at ratio 100: the boundary 1 lies beyond the only
    iteration index 0. *)
Lemma empty_split_fails_at_concat_witness :
  main (fun _ => "2.0") rng_identity cfg_one_run fs_six_equal "edge" "classifier"
    "test"
  = ([], inl ValueError).
Proof.
  apply (empty_split_fails_at_concat (fun _ => "2.0") rng_identity cfg_one_run
           fs_six_equal "edge" "classifier" "test").
  - vm_compute. reflexivity.
  - right. right. split; [reflexivity|]. vm_compute. reflexivity.
Defined.

(** X5 for a run whose only record file is missing. *)
Lemma missing_file_aborts_run_witness :
  main (fun _ => "2.0") rng_identity cfg_one_run (fun _ => None) "edge" "classifier"
    "train"
  = ([], inl FileNotFoundError).
Proof.
  apply (missing_file_aborts_run (fun _ => "2.0") rng_identity cfg_one_run
           (fun _ => None) "edge" "classifier" "train" [100%Z] (fun _ _ => [])
           [] [] (0%Z, 100%Z)).
  - reflexivity.
  - reflexivity.
  - intros p Hp. by apply elem_of_nil in Hp.
  - reflexivity.
Defined.

(** *** The method argument *)





(** *** The balanced data set as a selection of the input *)

Lemma concat_strata (keys : list Z) (df : list record) :
  NoDup keys →
  (∀ r, r ∈ df → VehicleCount r ∈ keys) →
  concat ((fun k => filter (fun r => VehicleCount r = k) df) <$> keys) ≡ₚ df.
Proof.
  intros Hnd. revert df. induction Hnd as [|k ks Hk Hnd IH]; intros df Hall.
  - destruct df as [|r df]; [done|].
    exfalso. eapply not_elem_of_nil, (Hall r). by left.
  - rewrite fmap_cons. cbn [concat].
    etransitivity; [|apply (filter_app_complement (fun r => VehicleCount r = k) df)].
    apply Permutation_app; [done|].
    assert ((fun k' => filter (fun r => VehicleCount r = k') df) <$> ks
            = (fun k' => filter (fun r => VehicleCount r = k')
                           (filter (fun r => ¬ VehicleCount r = k) df)) <$> ks) as ->.
    { apply list_fmap_ext. intros i k' Hk'. apply list_elem_of_lookup_2 in Hk'.
      rewrite list_filter_filter. apply list_filter_iff. intros r.
      split; [|tauto]. intros ->. split; [done|]. by intros ->. }
    apply IH.
    { intros r Hr. apply list_elem_of_filter in Hr as [Hne Hr].
      apply Hall in Hr. apply elem_of_cons in Hr as [?|?]; done. }
Qed.

Lemma concat_groupby (df : list record) : concat (groupby df) ≡ₚ df.
Proof.
  unfold groupby. apply concat_strata; [apply NoDup_group_keys|].
  intros r Hr. apply elem_of_group_keys. by exists r.
Qed.

Section Selection.

Variable rng : nat → nat → list nat.
Hypothesis rng_permutation : ∀ k len, rng k len ≡ₚ seq 0 len.

Lemma balance_group_submseteq size x draws :
  (balance_group rng size x draws).1 ⊆+ x.
Proof.
  unfold balance_group. case_decide; [done|]. cbn [fst].
  by apply sample_submseteq.
Qed.

Lemma apply_groups_submseteq size groups draws :
  (apply_groups (balance_group rng size) groups draws).1 ⊆+ concat groups.
Proof.
  revert draws. induction groups as [|g groups IH]; intros draws; [done|].
  cbn [apply_groups concat].
  pose proof (balance_group_submseteq size g draws) as Hg.
  destruct (balance_group rng size g draws) as [out d1].
  specialize (IH d1). destruct (apply_groups _ groups d1) as [rest d2].
  cbn [fst] in *. by apply submseteq_app.
Qed.

Lemma groupby_apply_submseteq size df draws :
  (apply_groups (balance_group rng size) (groupby df) draws).1 ⊆+ df.
Proof.
  etransitivity; [apply apply_groups_submseteq|].
  apply Permutation_submseteq, concat_groupby.
Qed.

Lemma two_classes_submseteq (l : list record) :
  filter (fun r => Result r = "fail") l ++ filter (fun r => Result r = "success") l ⊆+ l.
Proof.
  induction l as [|r l IH]; [done|].
  rewrite !filter_cons. destruct (decide (Result r = "fail")) as [Hf|Hf].
  - rewrite decide_False by (rewrite Hf; done). cbn [app]. by apply submseteq_skip.
  - case_decide.
    + etransitivity; [|apply submseteq_skip, IH].
      apply Permutation_submseteq. symmetry. apply Permutation_middle.
    + by apply submseteq_cons.
Qed.

(** X7.  Balancing only selects: the balanced data set is a sub-multiset of
    the records it is given, so no record is invented or taken twice, and
    every record of it has the result [success], or in classifier mode [fail]
    or [success]; records with another result are dropped. *)
Theorem balance_only_selects
    (cfg : config) (method : string) (data_set : list record) :
  let out := balance rng cfg method data_set in
  out ⊆+ data_set ∧
  (∀ r, r ∈ out →
     if decide (method = "classifier")
     then Result r = "fail" ∨ Result r = "success"
     else Result r = "success").
Proof.
  cbv zeta. unfold balance. case_decide as Hm.
  - set (df0 := filter (fun r => Result r = "fail") data_set).
    set (df1 := filter (fun r => Result r = "success") data_set).
    set (size := length (filter (fun r => VehicleCount r = max_vehicle cfg) df0) / 2).
    pose proof (groupby_apply_submseteq size df1 0) as S1.
    destruct (apply_groups (balance_group rng size) (groupby df1) 0) as [out1 draws].
    pose proof (groupby_apply_submseteq size df0 draws) as S0.
    destruct (apply_groups (balance_group rng size) (groupby df0) draws) as [out0 d'].
    cbn [fst] in *. split.
    + etransitivity; [|apply two_classes_submseteq]. by apply submseteq_app.
    + intros r Hr. apply elem_of_app in Hr as [Hr|Hr].
      * left. eapply elem_of_submseteq in Hr; [|exact S0].
        by apply list_elem_of_filter in Hr as [? _].
      * right. eapply elem_of_submseteq in Hr; [|exact S1].
        by apply list_elem_of_filter in Hr as [? _].
  - set (df := filter (fun r => Result r = "success") data_set).
    set (size := length (filter (fun r => VehicleCount r = max_vehicle cfg) df) / 3).
    pose proof (groupby_apply_submseteq size df 0) as S. split.
    + etransitivity; [exact S|]. apply sublist_submseteq, sublist_filter.
    + intros r Hr. eapply elem_of_submseteq in Hr; [|exact S].
      by apply list_elem_of_filter in Hr as [? _].
Qed.

End Selection.

(** X7 for six success records of one vehicle count. *)
Lemma balance_only_selects_witness :
  balance rng_identity cfg_one_run "regression" six_at_hundred ⊆+ six_at_hundred.
Proof.
  apply (balance_only_selects rng_identity (fun _ _ => reflexivity _) cfg_one_run
           "regression" six_at_hundred).
Defined.

(** *** The order of the balanced data set *)

Lemma StronglySorted_constant (k : Z) (l : list Z) :
  (∀ x, x ∈ l → x = k) → StronglySorted Z.le l.
Proof.
  induction l as [|x l IH]; intros H; [constructor|].
  constructor.
  - apply IH. intros y Hy. apply H. by right.
  - apply Forall_forall. intros y Hy.
    rewrite (H x) by (by left). rewrite (H y) by (by right). done.
Qed.

Lemma StronglySorted_group_keys df : StronglySorted Z.le (group_keys df).
Proof. unfold group_keys. apply StronglySorted_merge_sort; apply _. Qed.

Section Order.

Variable rng : nat → nat → list nat.

Lemma apply_groups_keys size (df : list record) keys draws r :
  r ∈ (apply_groups (balance_group rng size)
         ((fun k => filter (fun r => VehicleCount r = k) df) <$> keys) draws).1 →
  VehicleCount r ∈ keys.
Proof.
  revert draws. induction keys as [|k ks IH]; intros draws.
  - intros H. by apply elem_of_nil in H.
  - rewrite fmap_cons. cbn [apply_groups].
    pose proof (balance_group_elem_of rng size
      (filter (fun r => VehicleCount r = k) df) draws r) as Hk.
    destruct (balance_group rng size _ draws) as [out d1].
    specialize (IH d1). destruct (apply_groups _ _ d1) as [rest d2].
    cbn [fst] in *. intros H. apply elem_of_app in H as [H|H].
    + apply Hk in H. apply list_elem_of_filter in H as [-> _]. by left.
    + right. by apply IH.
Qed.

Lemma apply_groups_sorted size (df : list record) keys draws :
  StronglySorted Z.le keys →
  StronglySorted Z.le
    (VehicleCount <$>
       (apply_groups (balance_group rng size)
          ((fun k => filter (fun r => VehicleCount r = k) df) <$> keys) draws).1).
Proof.
  intros Hs. revert draws.
  induction Hs as [|k ks Hs IH Hle]; intros draws; [constructor|].
  rewrite fmap_cons. cbn [apply_groups].
  pose proof (balance_group_elem_of rng size
    (filter (fun r => VehicleCount r = k) df) draws) as Hk.
  destruct (balance_group rng size _ draws) as [out d1].
  specialize (IH d1).
  pose proof (apply_groups_keys size df ks d1) as Hks.
  destruct (apply_groups _ _ d1) as [rest d2].
  cbn [fst] in *. rewrite fmap_app.
  assert (∀ x, x ∈ VehicleCount <$> out → x = k) as Hout.
  { intros x Hx. apply list_elem_of_fmap in Hx as (r & -> & Hr).
    apply Hk in Hr. by apply list_elem_of_filter in Hr as [? _]. }
  apply StronglySorted_app_2; [|by apply (StronglySorted_constant k)|done].
  intros x1 x2 H1 H2. rewrite (Hout x1 H1).
  apply list_elem_of_fmap in H2 as (r & -> & Hr). apply Hks in Hr.
  rewrite Forall_forall in Hle. by apply Hle.
Qed.

Lemma groupby_apply_sorted size (df : list record) draws :
  StronglySorted Z.le
    (VehicleCount <$> (apply_groups (balance_group rng size) (groupby df) draws).1).
Proof. apply apply_groups_sorted, StronglySorted_group_keys. Qed.

(** X8.  The balanced data set is not shuffled as a whole.  In classifier
    mode it is the fail records followed by the success records, and the
    vehicle counts of the fail records never decrease; in the other modes it
    holds success records only, and their vehicle counts never decrease. *)
Theorem balance_orders_by_class_and_vehicle_count
    (cfg : config) (method : string) (data_set : list record) :
  let out := balance rng cfg method data_set in
  let fails := filter (fun r => Result r = "fail") out in
  let successes := filter (fun r => Result r = "success") out in
  out = (if decide (method = "classifier") then fails ++ successes else successes) ∧
  StronglySorted Z.le
    (VehicleCount <$> (if decide (method = "classifier") then fails else out)).
Proof.
  cbv zeta. unfold balance. case_decide as Hm.
  - set (df0 := filter (fun r => Result r = "fail") data_set).
    set (df1 := filter (fun r => Result r = "success") data_set).
    set (size := length (filter (fun r => VehicleCount r = max_vehicle cfg) df0) / 2).
    pose proof (groupby_apply_elem_of rng size df1 0) as E1.
    pose proof (groupby_apply_sorted size df1 0) as S1.
    destruct (apply_groups (balance_group rng size) (groupby df1) 0) as [out1 draws].
    pose proof (groupby_apply_elem_of rng size df0 draws) as E0.
    pose proof (groupby_apply_sorted size df0 draws) as S0.
    destruct (apply_groups (balance_group rng size) (groupby df0) draws) as [out0 d'].
    cbn [fst] in *.
    assert (∀ r, r ∈ out0 → Result r = "fail") as F0.
    { intros r Hr. apply E0 in Hr. by apply list_elem_of_filter in Hr as [? _]. }
    assert (∀ r, r ∈ out1 → Result r = "success") as F1.
    { intros r Hr. apply E1 in Hr. by apply list_elem_of_filter in Hr as [? _]. }
    assert (filter (fun r => Result r = "fail") (out0 ++ out1) = out0) as ->.
    { rewrite filter_app, filter_all, filter_none, app_nil_r; [done| |done].
      intros r Hr. rewrite (F1 r Hr). done. }
    assert (filter (fun r => Result r = "success") (out0 ++ out1) = out1) as ->.
    { rewrite filter_app, filter_none, filter_all; [done|done|].
      intros r Hr. rewrite (F0 r Hr). done. }
    done.
  - set (df := filter (fun r => Result r = "success") data_set).
    set (size := length (filter (fun r => VehicleCount r = max_vehicle cfg) df) / 3).
    pose proof (groupby_apply_elem_of rng size df 0) as E.
    pose proof (groupby_apply_sorted size df 0) as S.
    destruct (apply_groups (balance_group rng size) (groupby df) 0) as [out draws].
    cbn [fst] in *.
    assert (∀ r, r ∈ out → Result r = "success") as F.
    { intros r Hr. apply E in Hr. by apply list_elem_of_filter in Hr as [? _]. }
    rewrite filter_all by done. done.
Qed.

(** *** A cap of zero *)

Lemma apply_groups_zero groups draws :
  (apply_groups (balance_group rng 0) groups draws).1 = [].
Proof.
  revert draws. induction groups as [|g groups IH]; intros draws; [done|].
  cbn [apply_groups]. unfold balance_group at 1.
  rewrite decide_False by lia. unfold sample. rewrite take_0. cbn [omap].
  specialize (IH (S draws)). destruct (apply_groups _ groups (S draws)). done.
Qed.

Lemma balance_zero_cap (cfg : config) (method : string) (data_set : list record) :
  (if decide (method = "classifier")
   then length (stratum (max_vehicle cfg)
                  (filter (fun r => Result r = "fail") data_set)) < 2
   else length (stratum (max_vehicle cfg)
                  (filter (fun r => Result r = "success") data_set)) < 3) →
  balance rng cfg method data_set = [].
Proof.
  unfold balance, stratum. case_decide as Hm; intros Hcap.
  - rewrite Nat.div_small by done.
    rewrite (surjective_pairing (apply_groups _ (groupby (filter (fun r => Result r = "success") data_set)) 0)).
    rewrite apply_groups_zero.
    rewrite (surjective_pairing (apply_groups _ (groupby (filter (fun r => Result r = "fail") data_set)) _)).
    by rewrite apply_groups_zero.
  - rewrite Nat.div_small by done. apply apply_groups_zero.
Qed.

(** X9.  The cap is the number of fail records at [max_vehicle] halved
    (classifier), or of success records at [max_vehicle] divided by three
    (otherwise), rounded down.  When that is zero every stratum is cut to no
    record at all: the balanced data set is empty whatever the other strata
    hold. *)
Theorem zero_cap_empties_data_set
    (cfg : config) (method : string) (data_set : list record) :
  (if decide (method = "classifier")
   then length (stratum (max_vehicle cfg)
                  (filter (fun r => Result r = "fail") data_set)) < 2
   else length (stratum (max_vehicle cfg)
                  (filter (fun r => Result r = "success") data_set)) < 3) →
  balance rng cfg method data_set = [].
Proof. apply balance_zero_cap. Qed.

End Order.

(** X9 for a classifier run on success records only: no fail record at
    [max_vehicle], so the cap is 0. *)
Lemma zero_cap_empties_data_set_witness :
  balance rng_identity cfg_one_run "classifier" six_at_hundred = [].
Proof.
  apply (zero_cap_empties_data_set rng_identity cfg_one_run "classifier"
           six_at_hundred).
  simpl. lia.
Defined.

(** *** A vehicle range that misses its upper end *)

Lemma to_csv_no_rows float_repr cols : to_csv float_repr (extract cols []) = [].
Proof.
  unfold to_csv.
  assert (nrows (extract cols []) = 0) as ->; [|done].
  destruct cols as [|c cols]; [done|].
  unfold extract. rewrite fmap_cons. cbn [nrows].
  case_decide; [|done]. unfold get_column. by case_decide.
Qed.

Lemma elem_of_concat {A} (x : A) (ls : list (list A)) :
  x ∈ concat ls ↔ ∃ l, x ∈ l ∧ l ∈ ls.
Proof.
  induction ls as [|l ls IH]; cbn [concat].
  - split; [intros H; by apply elem_of_nil in H|].
    intros (l & _ & H). by apply elem_of_nil in H.
  - rewrite elem_of_app, IH. split.
    + intros [H|(l' & H1 & H2)]; [exists l; split; [done|by left]|].
      exists l'. split; [done|by right].
    + intros (l' & H1 & H2). apply elem_of_cons in H2 as [->|H2]; [by left|].
      right. by exists l'.
Qed.

Lemma frames_vehicle_counts cfg datatype vehicles content r :
  r ∈ concat (frame_of content <$> split_plan cfg datatype vehicles) →
  VehicleCount r ∈ vehicles.
Proof.
  intros Hr. apply elem_of_concat in Hr as (frame & Hr & Hframe).
  apply list_elem_of_fmap in Hframe as ([ite v] & -> & Hp).
  apply elem_of_split_plan in Hp as (_ & Hv & _).
  unfold frame_of in Hr. apply list_elem_of_fmap in Hr as (r' & -> & _). done.
Qed.

(** X11.  The cap is counted at [max_vehicle], but the loader only meets the
    vehicle counts of [range(min_vehicle, max_vehicle + 1, vehicle_step_size)].
    When the step does not divide [max_vehicle - min_vehicle] no record has
    that count, the cap is zero, and the run ends normally with an .arff file
    that has its header and attribute lines and not a single data row. *)
Theorem unreachable_max_vehicle_writes_no_rows
    (float_repr : R → string) (rng : nat → nat → list nat) (cfg : config)
    (fs : filesystem) (target method datatype : string) (vehicles : list Z)
    (content : Z → Z → list record) (decision : string) (cols : list string) :
  (0 < vehicle_step_size cfg)%Z →
  ((max_vehicle cfg - min_vehicle cfg) mod vehicle_step_size cfg ≠ 0)%Z →
  py_range (min_vehicle cfg) (max_vehicle cfg + 1) (vehicle_step_size cfg)
    = Some vehicles →
  (∀ ite vehicle, fs (file_name cfg ite vehicle) = Some (content ite vehicle)) →
  split_plan cfg datatype vehicles ≠ [] →
  getDecisionColumnName target = inr decision →
  target_columns target method = inr cols →
  main float_repr rng cfg fs target method datatype
  = ((read_event cfg <$> split_plan cfg datatype vehicles)
       ++ [WriteFile (arff_path cfg target method datatype)
             (["@relation " +:+ target; ""] ++ (attribute_line <$> cols)
                ++ [""; "@data"])],
     inr tt).
Proof.
  intros Hstep Hmod Hr Hfs Hplan Hdec Hcols.
  pose proof (load_all cfg fs datatype content Hfs vehicles Hr) as Hload.
  rewrite (main_writes float_repr rng cfg fs target method datatype _ _ decision cols
             Hload) by (done || by destruct (split_plan cfg datatype vehicles)).
  assert (max_vehicle cfg ∉ vehicles) as Hmax.
  { rewrite (elem_of_py_range _ _ _ _ _ Hstep Hr). tauto. }
  assert (balanced_data_set rng cfg method decision
            (frame_of content <$> split_plan cfg datatype vehicles) = []) as ->.
  { unfold balanced_data_set. apply balance_zero_cap.
    assert (∀ res, stratum (max_vehicle cfg)
              (filter (fun r => Result r = res)
                 (filter (fun r => Decision r = decision)
                    (concat (frame_of content <$> split_plan cfg datatype vehicles))))
            = []) as Hnone.
    { intros res. unfold stratum. apply filter_none. intros r Hin Hvc.
      apply list_elem_of_filter in Hin as [_ Hin].
      apply list_elem_of_filter in Hin as [_ Hin].
      apply frames_vehicle_counts in Hin. by rewrite Hvc in Hin. }
    rewrite !Hnone. case_decide; simpl; lia. }
  unfold arff_lines. by rewrite to_csv_no_rows, app_nil_r.
Qed.

(** X11 for the counts 100 and 200 with the upper end at 250. *)
Lemma unreachable_max_vehicle_writes_no_rows_witness :
  main (fun _ => "2.0") rng_identity
    {| sim_result_folder := "sim_results"; num_iterations := 1;
       train_data_ratio := PyInt 100; min_vehicle := 100; max_vehicle := 250;
       vehicle_step_size := 100 |}
    fs_six_equal "edge" "regression" "train"
  = ([ReadCsv "sim_results/ite1/100_learnerOutputFile.cvs";
      ReadCsv "sim_results/ite1/200_learnerOutputFile.cvs";
      WriteFile "sim_results/edge_regression_train.arff"
        ["@relation edge"; EmptyString;
         "@attribute TaskLength REAL"; "@attribute AvgEdgeUtilization REAL";
         "@attribute ServiceTime REAL"; EmptyString; "@data"]],
     inr tt).
Proof.
  apply (unreachable_max_vehicle_writes_no_rows (fun _ => "2.0") rng_identity
           {| sim_result_folder := "sim_results"; num_iterations := 1;
              train_data_ratio := PyInt 100; min_vehicle := 100; max_vehicle := 250;
              vehicle_step_size := 100 |}
           fs_six_equal "edge" "regression" "train" [100%Z; 200%Z]
           (fun _ _ => replicate 6 record_all_two) "EDGE"
           ["TaskLength"; "AvgEdgeUtilization"; "ServiceTime"]).
  - reflexivity.
  - vm_compute. discriminate.
  - reflexivity.
  - reflexivity.
  - vm_compute. discriminate.
  - reflexivity.
  - reflexivity.
Defined.

(** *** What [znorm] computes *)

Lemma Rsum_cons x xs : Rsum (x :: xs) = (x + Rsum xs)%R.
Proof. done. Qed.

Lemma Rsum_affine (a b : R) xs :
  Rsum ((fun x => a * x + b)%R <$> xs) = (a * Rsum xs + INR (length xs) * b)%R.
Proof.
  induction xs as [|x xs IH]; [simpl; lra|].
  rewrite fmap_cons, !Rsum_cons, IH. cbn [length]. rewrite S_INR. lra.
Qed.

Lemma Rsum_scale (c : R) (f : R → R) xs :
  Rsum ((fun x => c * f x)%R <$> xs) = (c * Rsum (f <$> xs))%R.
Proof.
  induction xs as [|x xs IH]; [simpl; lra|].
  rewrite !fmap_cons, !Rsum_cons, IH. lra.
Qed.

Lemma Rsum_ext (f g : R → R) xs :
  (∀ x, f x = g x) → Rsum (f <$> xs) = Rsum (g <$> xs).
Proof.
  intros H. induction xs as [|x xs IH]; [done|].
  by rewrite !fmap_cons, !Rsum_cons, IH, H.
Qed.

Lemma Rvar_nonneg xs : 2 ≤ length xs → (0 <= Rvar xs)%R.
Proof.
  intros Hlen. unfold Rvar. pose proof (INR_ge_2 _ Hlen).
  pose proof (Rsum_squares_nonneg (Rmean xs) xs).
  apply Rmult_le_pos; [done|]. apply Rlt_le, Rinv_0_lt_compat. lra.
Qed.

Lemma pd_std_fin column :
  2 ≤ length (finite_part column) →
  pd_std column = Fin (sqrt (Rvar (finite_part column))).
Proof.
  intros Hlen. unfold pd_std. rewrite np_std_fin by done.
  fold (Rmean (finite_part column)). fold (Rvar (finite_part column)).
  pose proof (Rvar_nonneg _ Hlen). destruct (Rlt_dec _ 0); [lra|done].
Qed.

Lemma pd_std_short column :
  length (finite_part column) ≤ 1 → pd_std column = NaN.
Proof. intros Hlen. unfold pd_std. by apply np_std_short. Qed.

Lemma pd_mean_fin column :
  finite_part column ≠ [] → pd_mean column = Fin (Rmean (finite_part column)).
Proof. apply nanmean_fin. Qed.

Lemma znorm_zscore column m s :
  pd_mean column = Fin m → pd_std column = Fin s → s ≠ 0%R →
  znorm column = zscore m s <$> column.
Proof.
  intros Hm Hs Hne. unfold znorm. rewrite Hm, Hs.
  apply list_fmap_ext. intros _ [x|] _; [|done].
  simpl. destruct (Req_dec_T s 0); done.
Qed.

Lemma finite_part_zscore m s column :
  finite_part (zscore m s <$> column)
  = (fun x => (x - m) / s)%R <$> finite_part column.
Proof.
  induction column as [|[x|] column IH]; [done| |].
  - rewrite fmap_cons.
    change (finite_part (zscore m s (Fin x) :: (zscore m s <$> column)))
      with (((x - m) / s)%R :: finite_part (zscore m s <$> column)).
    change (finite_part (Fin x :: column)) with (x :: finite_part column).
    by rewrite fmap_cons, IH.
  - rewrite fmap_cons.
    change (finite_part (zscore m s NaN :: (zscore m s <$> column)))
      with (finite_part (zscore m s <$> column)).
    exact IH.
Qed.

Lemma all_equal_or_distinct (a : R) xs :
  Forall (fun b => b = a) xs ∨ ∃ b, b ∈ xs ∧ b ≠ a.
Proof.
  induction xs as [|b xs [IH|(c & Hc & Hne)]]; [left; constructor| |].
  - destruct (Req_dec_T b a) as [->|Hne].
    + left. by constructor.
    + right. exists b. split; [by left|done].
  - right. exists c. split; [by right|done].
Qed.

Lemma Rvar_pos_distinct xs :
  2 ≤ length xs → (0 < Rvar xs)%R ↔ ∃ a b, a ∈ xs ∧ b ∈ xs ∧ a ≠ b.
Proof.
  intros Hlen. pose proof (INR_ge_2 _ Hlen) as Hn.
  pose proof (Rsum_squares_nonneg (Rmean xs) xs) as Hnn.
  split.
  - intros Hpos. destruct xs as [|a xs]; [simpl in Hlen; lia|].
    destruct (all_equal_or_distinct a xs) as [Hall|(b & Hb & Hne)].
    + exfalso.
      assert (a :: xs = replicate (length (a :: xs)) a) as Heq.
      { cbn [length replicate]. f_equal. clear -Hall.
        induction Hall as [|b xs -> _ IH]; [done|].
        cbn [length replicate]. by f_equal. }
      revert Hpos. unfold Rvar, Rmean. rewrite Heq.
      rewrite length_replicate, Rsum_replicate, fmap_replicate, Rsum_replicate.
      replace (INR (length (a :: xs)) * a / INR (length (a :: xs)))%R with a
        by (field; lra).
      replace (a - a)%R with 0%R by lra. rewrite Rmult_0_l, Rmult_0_r.
      unfold Rdiv. rewrite Rmult_0_l. lra.
    + exists a, b. split; [by left|]. split; [by right|]. by intros ->.
  - intros (a & b & Ha & Hb & Hne).
    destruct (Rle_lt_dec (Rvar xs) 0) as [Hle|]; [exfalso|done].
    assert (Rsum ((fun x => (x - Rmean xs) * (x - Rmean xs))%R <$> xs) = 0%R) as H0.
    { unfold Rvar in Hle.
      assert (0 < / (INR (length xs) - 1))%R as Hinv by (apply Rinv_0_lt_compat; lra).
      unfold Rdiv in Hle. nra. }
    pose proof (Rsum_squares_zero _ _ H0) as Heq.
    apply Hne. by rewrite (Heq a Ha), (Heq b Hb).
Qed.

(** With a mean and a deviation that is not 0, the entry of the normalised
    column is the z-score. *)
Lemma ddiv_dsub_zscore (m s : R) (v : dbl) :
  s ≠ 0%R → ddiv (dsub v (Fin m)) (Fin s) = zscore m s v.
Proof. intros Hs. destruct v as [x|]; [|done]. simpl. by destruct (Req_dec_T s 0). Qed.

(** C8.  The frame that is written has exactly the selected columns, in
    their order.  [Result] and [ServiceTime] keep the value of the record;
    every other column holds (v - mean) / std with the mean and the standard
    deviation of that column over the whole balanced data set.  On reals:
    when the column holds at least two non-missing values [ys] that are not
    all equal, the mean is their sum over their number n, the deviation is
    the square root of the sum of the squares of [y - mean] over n - 1, and a
    missing value stays missing. *)
Theorem normalisation_over_balanced_data_set
    (float_repr : R → string) (rng : nat → nat → list nat) (cfg : config)
    (fs : filesystem) (target method datatype : string) (reads : list event)
    (frames : list (list record)) (decision : string) (cols : list string) :
  load cfg fs datatype = (reads, inr frames) →
  frames ≠ [] →
  getDecisionColumnName target = inr decision →
  target_columns target method = inr cols →
  let balanced := balanced_data_set rng cfg method decision frames in
  let df := extract cols balanced in
  main float_repr rng cfg fs target method datatype
  = (reads ++ [WriteFile (arff_path cfg target method datatype)
                 (arff_lines float_repr target cols df)], inr tt) ∧
  df.*1 = cols ∧
  ∀ ci column k r,
    cols !! ci = Some column → balanced !! k = Some r →
    ∃ col, df !! ci = Some (column, col) ∧ length col = length balanced ∧
      (column = "Result" → col !! k = Some (CStr (Result r))) ∧
      (column = "ServiceTime" → col !! k = Some (CNum (metric r "ServiceTime"))) ∧
      (column ≠ "Result" → column ≠ "ServiceTime" →
       let whole := (fun r' => metric r' column) <$> balanced in
       col !! k = Some (CNum (ddiv (dsub (metric r column) (pd_mean whole))
                                (pd_std whole)))) ∧
      (column ≠ "Result" → column ≠ "ServiceTime" →
       let ys := finite_part ((fun r' => metric r' column) <$> balanced) in
       let n := INR (length ys) in
       let mean := (Rsum ys / n)%R in
       let variance :=
         (Rsum ((fun y => (y - mean) * (y - mean))%R <$> ys) / (n - 1))%R in
       2 ≤ length ys → (0 < variance)%R →
       col !! k = Some (CNum match metric r column with
                             | Fin v => Fin ((v - mean) / sqrt variance)
                             | NaN => NaN
                             end)).
Proof.
  intros Hload Hne Hdec Hcols balanced df.
  split; [by apply main_writes|]. split; [apply extract_columns|].
  intros ci column k r Hc Hr.
  destruct (extract_cell cols balanced ci column k r Hc Hr) as (col & Hcol & Hlen & Hk).
  exists col. split; [done|]. split; [done|]. unfold normalised_cell in Hk.
  split; [|split; [|split]].
  - intros ->. by rewrite Hk.
  - intros ->. by rewrite Hk.
  - intros HR HS whole. by rewrite Hk, !decide_False.
  - intros HR HS ys n mean variance Hlen2 Hpos.
    rewrite Hk, !decide_False by done.
    set (whole := (fun r' => metric r' column) <$> balanced) in *.
    change (finite_part whole) with ys.
    rewrite pd_mean_fin by (intros E; fold ys in E; rewrite E in Hlen2; simpl in Hlen2; lia).
    rewrite pd_std_fin by done. fold ys.
    change (Rmean ys) with mean. change (Rvar ys) with variance.
    rewrite ddiv_dsub_zscore; [done|].
    pose proof (sqrt_lt_R0 _ Hpos). lra.
Qed.

Lemma load_nine_numbered :
  load cfg_one_run fs_nine_numbered "train"
  = ([ReadCsv "sim_results/ite1/100_learnerOutputFile.cvs"], inr [nine_numbered]).
Proof. reflexivity. Qed.

Lemma balanced_nine_numbered :
  balanced_data_set rng_identity cfg_one_run "regression" "EDGE" [nine_numbered]
  = [record_numbered 0; record_numbered 1; record_numbered 2].
Proof. reflexivity. Qed.

(** C8 on nine different records, target edge, regression columns.  The cap
    is 3 and the balanced rows hold 0, 2 and 4: mean 2, deviation 2, so the
    first row of the TaskLength column is -1. *)
Lemma normalisation_over_balanced_data_set_witness :
  ∃ col,
    extract ["TaskLength"; "AvgEdgeUtilization"; "ServiceTime"]
      (balanced_data_set rng_identity cfg_one_run "regression" "EDGE" [nine_numbered])
      !! 0 = Some ("TaskLength", col) ∧
    col !! 0 = Some (CNum (Fin (-1))).
Proof.
  destruct (proj2 (proj2 (normalisation_over_balanced_data_set (fun _ => "2.0")
              rng_identity cfg_one_run fs_nine_numbered "edge" "regression" "train"
              [ReadCsv "sim_results/ite1/100_learnerOutputFile.cvs"] [nine_numbered]
              "EDGE" ["TaskLength"; "AvgEdgeUtilization"; "ServiceTime"]
              load_nine_numbered ltac:(done) eq_refl eq_refl))
            0 "TaskLength" 0 (record_numbered 0) eq_refl
            ltac:(by rewrite balanced_nine_numbered))
    as (col & Hcol & _ & _ & _ & _ & Hz).
  exists col. split; [exact Hcol|].
  specialize (Hz ltac:(done) ltac:(done)). cbv zeta in Hz.
  rewrite balanced_nine_numbered in Hz.
  change (finite_part ((fun r' => metric r' "TaskLength")
            <$> [record_numbered 0; record_numbered 1; record_numbered 2]))
    with [0%R; 2%R; 4%R] in Hz.
  change (metric (record_numbered 0) "TaskLength") with (Fin 0) in Hz.
  cbn [length fmap list_fmap Rsum foldr INR] in Hz.
  assert (((0 + (2 + (4 + 0))) / (1 + 1 + 1) = 2)%R) as Hmean by lra.
  rewrite Hmean in Hz.
  assert ((((0 - 2) * (0 - 2) + ((2 - 2) * (2 - 2) + ((4 - 2) * (4 - 2) + 0)))
           / (1 + 1 + 1 - 1) = 2 * 2)%R) as Hvar by lra.
  rewrite Hvar, sqrt_square in Hz by lra.
  rewrite Hz; [|simpl; lia|lra]. do 3 f_equal. lra.
Defined.

(** X12.  A column whose standard deviation is a positive number comes out
    of [znorm] with mean 0 and standard deviation 1 (on reals, without
    rounding), and with NaN exactly where it had NaN. *)
Theorem znorm_standardises (column : list dbl) (s : R) :
  pd_std column = Fin s → (0 < s)%R →
  pd_mean (znorm column) = Fin 0 ∧
  pd_std (znorm column) = Fin 1 ∧
  isnan <$> znorm column = isnan <$> column.
Proof.
  intros Hs Hpos.
  destruct (decide (2 ≤ length (finite_part column))) as [Hlen|Hlen];
    [|rewrite pd_std_short in Hs by lia; done].
  set (ys := finite_part column) in *.
  assert (ys ≠ []) as Hne by (intros E; rewrite E in Hlen; simpl in Hlen; lia).
  pose proof (INR_ge_2 _ Hlen) as Hn.
  rewrite pd_std_fin in Hs by done. fold ys in Hs. injection Hs as Hs.
  rewrite (znorm_zscore column (Rmean ys) s);
    [|by apply pd_mean_fin|by rewrite pd_std_fin; [rewrite <- Hs|]|lra].
  set (zs := (fun x => (x - Rmean ys) / s)%R <$> ys).
  assert (finite_part (zscore (Rmean ys) s <$> column) = zs) as Hzs
    by apply finite_part_zscore.
  assert (length zs = length ys) as Hlz by (unfold zs; by rewrite length_fmap).
  assert (Rmean zs = 0%R) as Hmean.
  { unfold Rmean. rewrite Hlz. unfold zs.
    rewrite (Rsum_ext _ (fun x => / s * x + - (Rmean ys / s))%R)
      by (intros x; field; lra).
    rewrite Rsum_affine. unfold Rmean. field. lra. }
  split; [|split].
  - rewrite pd_mean_fin; rewrite Hzs; [by rewrite Hmean|].
    intros E. rewrite E in Hlz. simpl in Hlz. lia.
  - rewrite pd_std_fin; rewrite Hzs; [|lia]. f_equal.
    assert (Rvar zs = 1%R) as ->; [|apply sqrt_1].
    unfold Rvar. rewrite Hmean, Hlz. unfold zs. rewrite <- list_fmap_compose.
    rewrite (Rsum_ext _ (fun x => / (s * s)
               * ((fun x => (x - Rmean ys) * (x - Rmean ys)) x))%R)
      by (intros x; unfold compose; field; lra).
    rewrite Rsum_scale.
    assert (s * s = Rvar ys)%R as Hss.
    { rewrite <- Hs. apply sqrt_sqrt. by apply Rvar_nonneg. }
    rewrite Hss.
    assert (Rsum ((fun x => (x - Rmean ys) * (x - Rmean ys))%R <$> ys)
            = (Rvar ys * (INR (length ys) - 1))%R) as ->.
    { unfold Rvar. field. lra. }
    assert (0 < Rvar ys)%R as Hv by (rewrite <- Hss; nra).
    field. lra.
  - rewrite <- list_fmap_compose. apply list_fmap_ext. by intros _ [x|] _.
Qed.

(** X13.  On reals, without rounding: a normalised column holds a number
    somewhere exactly when the column holds two different numbers.  Otherwise
    (fewer than two non-missing values, or all of them equal) every entry of
    it is NaN.  (On doubles the mean of equal values can miss them by a
    rounding error, and the column then holds numbers.) *)
Theorem znorm_defined_iff_two_values (column : list dbl) :
  ((∃ x, Fin x ∈ znorm column) ↔
   (∃ a b, a ∈ finite_part column ∧ b ∈ finite_part column ∧ a ≠ b)) ∧
  ((∀ a b, a ∈ finite_part column → b ∈ finite_part column → a = b) →
   znorm column = replicate (length column) NaN).
Proof.
  split.
  - split.
    + intros (z & Hz). unfold znorm in Hz.
      apply list_elem_of_fmap in Hz as (v & Hv & _).
      destruct (decide (2 ≤ length (finite_part column))) as [Hlen|Hlen].
      * apply Rvar_pos_distinct; [done|].
        rewrite pd_std_fin in Hv by done.
        pose proof (Rvar_nonneg _ Hlen) as Hnn.
        destruct (Rle_lt_dec (Rvar (finite_part column)) 0) as [Hle|]; [|done].
        exfalso. assert (Rvar (finite_part column) = 0%R) as H0 by lra.
        rewrite H0, sqrt_0, ddiv_zero in Hv. done.
      * exfalso. rewrite pd_std_short in Hv by lia.
        destruct (dsub v (pd_mean column)); done.
    + intros (a & b & Ha & Hb & Hne).
      assert (2 ≤ length (finite_part column)) as Hlen.
      { destruct (finite_part column) as [|y [|y' ys]]; simpl; [..|lia].
        - by apply elem_of_nil in Ha.
        - apply list_elem_of_singleton in Ha, Hb. congruence. }
      assert (0 < Rvar (finite_part column))%R as Hvar
        by (apply Rvar_pos_distinct; [done|by exists a, b]).
      pose proof (sqrt_lt_R0 _ Hvar) as Hs.
      rewrite (znorm_zscore column (Rmean (finite_part column))
                 (sqrt (Rvar (finite_part column))));
        [|apply pd_mean_fin; intros E; rewrite E in Ha; by apply elem_of_nil in Ha
         |by apply pd_std_fin|lra].
      eexists. apply list_elem_of_fmap. exists (Fin a). split; [done|].
      unfold finite_part in Ha. apply list_elem_of_omap in Ha as ([x|] & Hx & Heq);
        [|done]. by injection Heq as ->.
  - intros Hsame.
    destruct (decide (2 ≤ length (finite_part column))) as [Hlen|Hlen].
    + apply znorm_zero_std. rewrite pd_std_fin by done.
      pose proof (Rvar_nonneg _ Hlen) as Hnn.
      destruct (Rle_lt_dec (Rvar (finite_part column)) 0) as [Hle|Hpos].
      * assert (Rvar (finite_part column) = 0%R) as -> by lra. by rewrite sqrt_0.
      * apply Rvar_pos_distinct in Hpos as (a & b & Ha & Hb & Hne); [|done].
        by specialize (Hsame a b Ha Hb).
    + unfold znorm. rewrite pd_std_short by lia. apply fmap_constant.
      intros v. by destruct (dsub v (pd_mean column)).
Qed.

(** *** Units and offsets *)

Lemma finite_part_rescale a b column :
  finite_part ((fun v => dadd (dmul (Fin a) v) (Fin b)) <$> column)
  = (fun x => a * x + b)%R <$> finite_part column.
Proof.
  induction column as [|[x|] column IH]; [done| |].
  - rewrite fmap_cons.
    change (finite_part (dadd (dmul (Fin a) (Fin x)) (Fin b) :: ?l))
      with ((a * x + b)%R :: finite_part l).
    change (finite_part (Fin x :: column)) with (x :: finite_part column).
    by rewrite fmap_cons, IH.
  - rewrite fmap_cons.
    change (finite_part (dadd (dmul (Fin a) NaN) (Fin b) :: ?l))
      with (finite_part l).
    exact IH.
Qed.

Lemma Rmean_rescale a b xs :
  xs ≠ [] → Rmean ((fun x => a * x + b)%R <$> xs) = (a * Rmean xs + b)%R.
Proof.
  intros Hne. unfold Rmean. rewrite length_fmap, Rsum_affine.
  assert (0 < INR (length xs))%R.
  { destruct xs; [done|]. cbn [length]. rewrite S_INR.
    pose proof (pos_INR (length xs)). lra. }
  field. lra.
Qed.

Lemma Rvar_rescale a b xs :
  2 ≤ length xs → Rvar ((fun x => a * x + b)%R <$> xs) = (a * a * Rvar xs)%R.
Proof.
  intros Hlen. pose proof (INR_ge_2 _ Hlen) as Hn.
  assert (xs ≠ []) as Hne by (intros ->; simpl in Hlen; lia).
  unfold Rvar. rewrite Rmean_rescale by done. rewrite length_fmap.
  rewrite <- list_fmap_compose.
  rewrite (Rsum_ext _ (fun x => a * a * ((fun x => (x - Rmean xs) * (x - Rmean xs)) x))%R)
    by (intros x; unfold compose; ring).
  rewrite Rsum_scale. field. lra.
Qed.

(** X14.  The normalised column does not depend on the unit or the offset of
    the raw values: replacing every value [v] by [a * v + b] with a positive
    [a] leaves [znorm] of the column unchanged (on reals, without
    rounding). *)
Theorem znorm_ignores_unit_and_offset (a b : R) (column : list dbl) :
  (0 < a)%R →
  znorm ((fun v => dadd (dmul (Fin a) v) (Fin b)) <$> column) = znorm column.
Proof.
  intros Ha. set (column' := (fun v => dadd (dmul (Fin a) v) (Fin b)) <$> column).
  assert (finite_part column' = (fun x => a * x + b)%R <$> finite_part column) as Hfp
    by apply finite_part_rescale.
  assert (length column' = length column) as Hlen' by apply length_fmap.
  destruct (decide (2 ≤ length (finite_part column))) as [Hlen|Hlen].
  - assert (finite_part column ≠ []) as Hne
      by (intros E; rewrite E in Hlen; simpl in Hlen; lia).
    pose proof (Rvar_nonneg _ Hlen) as Hnn.
    assert (pd_mean column' = Fin (a * Rmean (finite_part column) + b)) as Hm'.
    { rewrite pd_mean_fin; rewrite Hfp; [by rewrite Rmean_rescale|].
      intros E. apply fmap_nil_inv in E. done. }
    assert (pd_std column'
            = Fin (a * sqrt (Rvar (finite_part column)))) as Hs'.
    { rewrite pd_std_fin; rewrite Hfp; [|by rewrite length_fmap].
      rewrite Rvar_rescale by done. f_equal.
      rewrite sqrt_mult by nra. rewrite sqrt_square by lra. done. }
    destruct (Rle_lt_dec (Rvar (finite_part column)) 0) as [Hle|Hpos].
    + assert (Rvar (finite_part column) = 0%R) as H0 by lra.
      rewrite H0, sqrt_0, Rmult_0_r in Hs'.
      rewrite (znorm_zero_std column') by done.
      rewrite (znorm_zero_std column) by (rewrite pd_std_fin, H0, sqrt_0; done).
      by rewrite Hlen'.
    + pose proof (sqrt_lt_R0 _ Hpos) as Hs.
      rewrite (znorm_zscore column' _ _ Hm' Hs') by nra.
      rewrite (znorm_zscore column (Rmean (finite_part column))
                 (sqrt (Rvar (finite_part column))));
        [|by apply pd_mean_fin|by apply pd_std_fin|lra].
      unfold column'. rewrite <- list_fmap_compose.
      apply list_fmap_ext. intros _ [x|] _; [|done].
      cbn [compose dadd dmul lift2 zscore]. f_equal. field. lra.
  - unfold znorm.
    rewrite (pd_std_short column') by (rewrite Hfp, length_fmap; lia).
    rewrite (pd_std_short column) by lia.
    rewrite !(fmap_constant _ NaN); [by rewrite Hlen'|..];
      intros v; by destruct (dsub v _).
Qed.

(** X12 on the column 1, 3: deviation sqrt 2. *)
Lemma znorm_standardises_witness :
  pd_mean (znorm [Fin 1; Fin 3]) = Fin 0 ∧
  pd_std (znorm [Fin 1; Fin 3]) = Fin 1 ∧
  isnan <$> znorm [Fin 1; Fin 3] = isnan <$> [Fin 1; Fin 3].
Proof.
  assert (Rvar [1; 3]%R = 2%R) as Hvar.
  { unfold Rvar, Rmean. cbn [Rsum foldr fmap list_fmap length INR]. field. }
  apply (znorm_standardises [Fin 1; Fin 3] (sqrt 2)).
  - rewrite pd_std_fin by (simpl; lia).
    change (finite_part [Fin 1; Fin 3]) with [1; 3]%R. by rewrite Hvar.
  - apply sqrt_lt_R0. lra.
Defined.

(** X14 on the same column, in units a thousand times smaller and shifted
    by 5. *)
Lemma znorm_ignores_unit_and_offset_witness :
  znorm ((fun v => dadd (dmul (Fin 1000) v) (Fin 5)) <$> [Fin 1; Fin 3])
  = znorm [Fin 1; Fin 3].
Proof. apply (znorm_ignores_unit_and_offset 1000 5 [Fin 1; Fin 3]). lra. Defined.

(** *** Every planned file is another file *)

Lemma file_name_inj cfg ite vehicle ite' vehicle' :
  file_name cfg ite vehicle = file_name cfg ite' vehicle' →
  ite = ite' ∧ vehicle = vehicle'.
Proof.
  unfold file_name. intros Heq.
  apply (inj (String.append _)) in Heq. apply (inj (String.append _)) in Heq.
  change ("/" +:+ ?s) with (String "/" s) in Heq.
  apply append_cut in Heq as [H1 H2];
    [|apply numeral_free_of; [apply slash_not_numeral|apply pretty_Z_numeral]..].
  apply (inj pretty) in H1. apply append_inv_tail in H2. apply (inj pretty) in H2.
  split; [lia|done].
Qed.

Lemma NoDup_py_range start stop step l :
  py_range start stop step = Some l → NoDup l.
Proof.
  unfold py_range. destruct (step =? 0)%Z eqn:H0; [done|].
  intros [= <-]. apply NoDup_fmap_2_strong; [|apply NoDup_seq].
  intros k1 k2 _ _ Heq. nia.
Qed.

Lemma NoDup_iterations cfg : NoDup (iterations cfg).
Proof. unfold iterations. apply NoDup_fmap_2; [apply _|apply NoDup_seq]. Qed.

Lemma NoDup_split_plan cfg datatype vehicles :
  NoDup vehicles → NoDup (split_plan cfg datatype vehicles).
Proof.
  intros Hv. unfold split_plan. apply NoDup_bind; [| |apply NoDup_iterations].
  - intros ite1 ite2 [i v] _ _ H1 H2.
    apply list_elem_of_bind in H1 as (v1 & H1 & _).
    apply list_elem_of_bind in H2 as (v2 & H2 & _).
    destruct (selected cfg datatype ite1); [|by apply elem_of_nil in H1].
    destruct (selected cfg datatype ite2); [|by apply elem_of_nil in H2].
    apply list_elem_of_singleton in H1, H2. congruence.
  - intros ite _. apply NoDup_bind; [| |done].
    + intros v1 v2 [i v] _ _ H1 H2.
      destruct (selected cfg datatype ite); [|by apply elem_of_nil in H1].
      apply list_elem_of_singleton in H1, H2. congruence.
    + intros v _. destruct (selected cfg datatype ite); [|constructor].
      apply NoDup_singleton.
Qed.

Lemma for_each_read_sublist cfg fs plan acc :
  (for_each (read_planned cfg fs) plan acc).1 `sublist_of` (read_event cfg <$> plan).
Proof.
  revert acc. induction plan as [|p plan IH]; intros acc; [done|].
  cbn [for_each]. rewrite fmap_cons.
  destruct (fs (file_name cfg p.1 p.2)) as [rows|] eqn:Hp.
  - rewrite (read_planned_exists cfg fs p rows) by done.
    rewrite io_bind_inr. cbn [fst app]. apply sublist_skip, IH.
  - rewrite read_planned_missing by done. apply sublist_nil_l.
Qed.

Lemma NoDup_load cfg fs datatype : NoDup (load cfg fs datatype).1.
Proof.
  destruct (py_range (min_vehicle cfg) (max_vehicle cfg + 1) (vehicle_step_size cfg))
    as [vehicles|] eqn:Hr.
  - rewrite (load_plan cfg fs datatype vehicles Hr).
    eapply sublist_NoDup; [|apply for_each_read_sublist].
    apply NoDup_fmap_2_strong; [|by eapply NoDup_split_plan, NoDup_py_range].
    intros [i v] [i' v'] _ _ [= Heq]. apply file_name_inj in Heq as [-> ->]. done.
  - unfold load. rewrite Hr. destruct (iterations cfg); constructor.
Qed.

(** X15.  The file name of line 64 tells the iteration and the vehicle count
    apart, and a run never reads a record file twice nor does anything else
    twice: the events of a run are pairwise different. *)
Theorem no_record_file_is_read_twice
    (float_repr : R → string) (rng : nat → nat → list nat)
    (cfg : config) (fs : filesystem) (target method datatype : string) :
  (∀ ite vehicle ite' vehicle',
     file_name cfg ite vehicle = file_name cfg ite' vehicle' →
     ite = ite' ∧ vehicle = vehicle') ∧
  NoDup (main float_repr rng cfg fs target method datatype).1.
Proof.
  split; [apply file_name_inj|].
  unfold main.
  pose proof (NoDup_load cfg fs datatype) as Hnd.
  pose proof (load_trace cfg fs datatype) as Htr.
  destruct (load cfg fs datatype) as [t [e|frames]]; [done|].
  cbn [fst] in Hnd. rewrite io_bind_inr. unfold lift_exn.
  destruct (pd_concat frames) as [e|data_set].
  { rewrite io_bind_inl. cbn [fst]. by rewrite app_nil_r. }
  rewrite io_bind_inr.
  destruct (getDecisionColumnName target) as [e|decision].
  { rewrite io_bind_inl. cbn [fst]. by rewrite !app_nil_r. }
  rewrite io_bind_inr.
  destruct (if decide (method = "classifier") then getClassifierColumns target
            else getRegressionColumns target) as [e|cols].
  { rewrite io_bind_inl. cbn [fst]. by rewrite !app_nil_r. }
  rewrite io_bind_inr. cbn [fst app].
  apply NoDup_app. split; [done|]. split; [|apply NoDup_singleton].
  intros ev Hev Hw. apply list_elem_of_singleton in Hw. subst ev.
  by destruct (Htr _ Hev).
Qed.

(** *** The column tables *)

Lemma accepted_targets target :
  (∃ decision, getDecisionColumnName target = inr decision) ↔
  target = "edge" ∨ target = "cloud_rsu" ∨ target = "cloud_gsm".
Proof.
  unfold getDecisionColumnName. repeat case_decide; split; eauto; try tauto.
  intros [d Hd]. discriminate Hd.
Qed.

Ltac decide_by_computation := apply (bool_decide_unpack _); vm_compute; exact I.

Ltac split_off_label :=
  match goal with
  | |- ∃ features, ?cols = _ ∧ _ => exists (removelast cols)
  end.

(** X16.  The three tables of lines 26-51 accept the same three targets, so a
    run that passed line 71 cannot fail at line 74 or 76.  In each table the
    label is the last column ([Result] for a classifier, [ServiceTime]
    otherwise), no column is listed twice, and neither label occurs among the
    columns before the last: every column but the last is normalised, the
    last one is written as it is. *)
Theorem label_is_the_last_column (target method : string) :
  ((∃ decision, getDecisionColumnName target = inr decision) ↔
   (∃ cols, target_columns target method = inr cols)) ∧
  ∀ cols, target_columns target method = inr cols →
    ∃ features,
      cols = features ++ [if decide (method = "classifier") then "Result"
                          else "ServiceTime"] ∧
      NoDup cols ∧ ("Result" ∉ features) ∧ ("ServiceTime" ∉ features) ∧
      ∀ data_set,
        extract features data_set
        = (fun column =>
             (column, CNum <$> znorm ((fun r => metric r column) <$> data_set)))
          <$> features.
Proof.
  split.
  - rewrite accepted_targets. unfold target_columns, getClassifierColumns,
      getRegressionColumns.
    repeat case_decide; split; eauto; try tauto; intros [d Hd]; discriminate Hd.
  - intros cols. unfold target_columns, getClassifierColumns, getRegressionColumns.
    repeat case_decide; intros [= <-]; split_off_label;
      (split; [reflexivity|]); cbn [removelast];
      (split; [decide_by_computation|]);
      (split; [decide_by_computation|]);
      (split; [decide_by_computation|]); intros data_set; reflexivity.
Qed.

End DataConvertorMoreFacts.

(** ** data_convertor.py: arguments and configuration file *)

Module ConvertorStartupFacts.

Import ConvertorStartup.

(** X17.  Unless the script is started with exactly four arguments it prints
    the two usage lines and exits with status 1; it opens no file, not even
    the configuration file. *)
Theorem wrong_argument_count_exits (fs : files) (argv : list string) :
  length argv ≠ 5 →
  startup fs argv start = ({| printed := usage; opened := [] |}, Exit 1).
Proof.
  intros Hlen.
  destruct argv as [|a0 [|a1 [|a2 [|a3 [|a4 [|a5 argv]]]]]]; try done.
Qed.

(** X17 for a call without the data type. *)
Lemma wrong_argument_count_exits_witness :
  startup (fun _ => Some (Some sample_config))
    ["data_convertor.py"; "config.json"; "edge"; "classifier"] start
  = ({| printed := usage; opened := [] |}, Exit 1).
Proof.
  apply (wrong_argument_count_exits (fun _ => Some (Some sample_config))
           ["data_convertor.py"; "config.json"; "edge"; "classifier"]).
  simpl. lia.
Defined.

Lemma dict_get_absent key (members : list (string * json)) :
  dict_get key members = None ↔ key ∉ members.*1.
Proof.
  induction members as [|[k v] members IH]; cbn [dict_get fmap list_fmap fst].
  - split; [intros _; apply not_elem_of_nil|done].
  - rewrite not_elem_of_cons, <- IH.
    destruct (dict_get key members); [split; [done|intros [_ ?]; done]|].
    case_decide; split; try done; try tauto. intros [? _]. congruence.
Qed.

Lemma missing_key_decide key (members : list (string * json)) :
  bool_decide (key ∉ members.*1)
  = match dict_get key members with Some _ => false | None => true end.
Proof.
  destruct (dict_get key members) eqn:H.
  - apply bool_decide_eq_false_2. rewrite <- dict_get_absent. by rewrite H.
  - apply bool_decide_eq_true_2. by apply dict_get_absent.
Qed.

Lemma dict_get_Permutation key (m1 m2 : list (string * json)) :
  NoDup m1.*1 → m1 ≡ₚ m2 → dict_get key m1 = dict_get key m2.
Proof.
  intros Hnd Hperm. revert Hnd.
  induction Hperm as [|[k v] m1 m2 Hperm IH|[k1 v1] [k2 v2] m|m1 m2 m3 H12 IH12 H23 IH23];
    intros Hnd.
  - done.
  - cbn [dict_get]. rewrite IH; [done|]. by apply NoDup_cons in Hnd as [_ ?].
  - cbn [dict_get]. destruct (dict_get key m); [done|].
    rewrite !fmap_cons in Hnd. cbn [fst] in Hnd.
    apply NoDup_cons in Hnd as [Hne _]. apply not_elem_of_cons in Hne as [Hne _].
    repeat case_decide; congruence.
  - rewrite IH12 by done. apply IH23. by rewrite <- H12.
Qed.

(** The run of lines 10-24 on a configuration object. *)
Lemma startup_object fs script path target method datatype members :
  fs path = Some (Some (JObject members)) →
  startup fs [script; path; target; method; datatype] start
  = ({| printed := ["conversion started with args " +:+ target +:+ ", " +:+ method
                      +:+ ", " +:+ datatype];
        opened := [path] |},
     match dict_get "sim_result_folder" members,
           dict_get "num_iterations" members,
           dict_get "train_data_ratio" members,
           dict_get "min_vehicle" members,
           dict_get "max_vehicle" members,
           dict_get "vehicle_step_size" members with
     | None, _, _, _, _, _ => Raise (KeyError "sim_result_folder")
     | Some _, None, _, _, _, _ => Raise (KeyError "num_iterations")
     | Some _, Some _, None, _, _, _ => Raise (KeyError "train_data_ratio")
     | Some _, Some _, Some _, None, _, _ => Raise (KeyError "min_vehicle")
     | Some _, Some _, Some _, Some _, None, _ => Raise (KeyError "max_vehicle")
     | Some _, Some _, Some _, Some _, Some _, None =>
         Raise (KeyError "vehicle_step_size")
     | Some v1, Some v2, Some v3, Some v4, Some v5, Some v6 =>
         Return {| ConvertorStartup.target := target;
                   ConvertorStartup.method := method;
                   ConvertorStartup.datatype := datatype;
                   sim_result_folder := v1; num_iterations := v2;
                   train_data_ratio := v3; min_vehicle := v4; max_vehicle := v5;
                   vehicle_step_size := v6 |}
     end).
Proof.
  intros Hfs. unfold startup, load_json, subscript, mbind, run_bind, print, start.
  rewrite Hfs. cbn [printed opened app].
  destruct (dict_get "sim_result_folder" members); [|done].
  destruct (dict_get "num_iterations" members); [|done].
  destruct (dict_get "train_data_ratio" members); [|done].
  destruct (dict_get "min_vehicle" members); [|done].
  destruct (dict_get "max_vehicle" members); [|done].
  destruct (dict_get "vehicle_step_size" members); done.
Qed.

(** X18.  With four arguments and a configuration file that holds a JSON
    object, the script announces the conversion and then looks up its six
    keys in the order of lines 19-24.  It ends with the KeyError of the first
    key of that order that is not a member, and gets past line 24 when all
    six are members, whatever their values are.  Further members are ignored,
    and the order of the members does not matter. *)
Theorem configuration_keys_are_only_looked_up
    (fs : files) (script path target method datatype : string)
    (members : list (string * json)) :
  fs path = Some (Some (JObject members)) →
  let result := startup fs [script; path; target; method; datatype] start in
  result.1 = {| printed := ["conversion started with args " +:+ target +:+ ", "
                              +:+ method +:+ ", " +:+ datatype];
                opened := [path] |} ∧
  match find (fun key => bool_decide (key ∉ members.*1)) config_keys with
  | Some key => result.2 = Raise (KeyError key)
  | None => ∃ s, result.2 = Return s
  end ∧
  (∀ fs' members',
     fs' path = Some (Some (JObject members')) →
     NoDup members.*1 → members ≡ₚ members' →
     startup fs' [script; path; target; method; datatype] start = result).
Proof.
  intros Hfs result. subst result.
  split; [by rewrite (startup_object _ _ _ _ _ _ _ Hfs)|].
  split.
  - rewrite (startup_object _ _ _ _ _ _ _ Hfs). cbn [snd find config_keys].
    rewrite !missing_key_decide.
    destruct (dict_get "sim_result_folder" members); [|done].
    destruct (dict_get "num_iterations" members); [|done].
    destruct (dict_get "train_data_ratio" members); [|done].
    destruct (dict_get "min_vehicle" members); [|done].
    destruct (dict_get "max_vehicle" members); [|done].
    destruct (dict_get "vehicle_step_size" members); [|done].
    by eexists.
  - intros fs' members' Hfs' Hnd Hperm.
    rewrite (startup_object _ _ _ _ _ _ _ Hfs), (startup_object _ _ _ _ _ _ _ Hfs').
    by rewrite !(dict_get_Permutation _ members members').
Qed.

(** X18 for a configuration without [max_vehicle]. *)
Lemma configuration_keys_are_only_looked_up_witness :
  (startup (fun _ => Some (Some config_without_max))
     ["data_convertor.py"; "config.json"; "edge"; "classifier"; "train"] start).2
  = Raise (KeyError "max_vehicle").
Proof.
  exact (proj1 (proj2 (configuration_keys_are_only_looked_up
           (fun _ => Some (Some config_without_max))
           "data_convertor.py" "config.json" "edge" "classifier" "train"
           members_without_max eq_refl))).
Defined.

End ConvertorStartupFacts.

(** ** plotGenericLine.py: the reading loop, further properties *)

Module PlotReaderFacts.

Import PlotGenericLine DblFacts PlotGenericLineFacts.

#[local] Arguments percentage_of_all : simpl never.

Lemma foldl_ext_in {A B} (f g : A → B → A) (l : list B) (a : A) :
  (∀ a b, f a b = g a b) → foldl f a l = foldl g a l.
Proof.
  intros H. revert a. induction l as [|b l IH]; intros a; [done|].
  simpl. by rewrite H, IH.
Qed.

Section Modes.

Variable fs : filesystem.
Variable row_offset : nat.
Variable column_offset : Z.

Lemma try_body_other_mode (mode : option string) path :
  mode ≠ Some "percentage_of_all" →
  try_body fs row_offset column_offset mode path
  = (data ← read_csv_row fs path row_offset;
     value ← iloc data (column_offset - 1);
     store value).
Proof.
  intros Hm. unfold try_body.
  destruct (read_csv_row fs path row_offset) as [e|data]; [done|]. simpl.
  destruct (iloc data (column_offset - 1)); [done|]. simpl.
  by rewrite decide_False.
Qed.

Lemma read_loop_other_mode folder app_type (mode : option string) n scs devs :
  mode ≠ Some "percentage_of_all" →
  read_loop fs folder row_offset column_offset app_type mode n scs devs
  = read_loop fs folder row_offset column_offset app_type None n scs devs.
Proof.
  intros Hm. unfold read_loop. apply foldl_ext_in.
  intros st [[s [i sc]] [j nd]]. unfold step.
  by rewrite !try_body_other_mode.
Qed.

End Modes.

(** X19.  Only the word [percentage_of_all] switches the percentage
    transform on.  With any other value of [calculate_percentage], such as
    the empty string or [percentage_of_failed], a cell holds the field at
    [row_offset], [column_offset] as it is read, the totals row is not looked
    at, and the function returns what it returns without the argument. *)
Theorem only_percentage_of_all_transforms
    (t_ppf : R → R → R) (cfg : config) (fs : filesystem) (row_offset : nat)
    (column_offset : Z) (app_type : string) (mode : option string) (divisor : R) :
  mode ≠ Some "percentage_of_all" →
  (∀ path,
     try_body fs row_offset column_offset mode path
     = (data ← read_csv_row fs path row_offset;
        value ← iloc data (column_offset - 1);
        store value)) ∧
  plot_generic_line t_ppf cfg fs row_offset column_offset app_type mode divisor
  = plot_generic_line t_ppf cfg fs row_offset column_offset app_type None divisor.
Proof.
  intros Hm. split; [intros path; by apply try_body_other_mode|].
  unfold plot_generic_line. destruct (py_range _ _ _) as [devs|]; [|done].
  by rewrite (read_loop_other_mode _ _ _ _ _ mode).
Qed.

(** X19 for the mode of the failure-reason scripts. *)
Lemma only_percentage_of_all_transforms_witness :
  plot_generic_line t_ppf_linear cfg_two_runs fs_fifteen_five 1 2 "ALL_APPS"
    (Some "percentage_of_failed") 1
  = plot_generic_line t_ppf_linear cfg_two_runs fs_fifteen_five 1 2 "ALL_APPS" None 1.
Proof.
  apply (only_percentage_of_all_transforms t_ppf_linear cfg_two_runs fs_fifteen_five
           1 2 "ALL_APPS" (Some "percentage_of_failed") 1).
  discriminate.
Defined.

(** *** The console *)

Lemma iloc_error row c e : iloc row c = inl e → e = IndexError.
Proof.
  unfold iloc. destruct (_ && _); [|by intros [= <-]].
  destruct (row !! _); [done|by intros [= <-]].
Qed.

Lemma percentage_of_all_error value a b e :
  percentage_of_all value a b = inl e → e = TypeError.
Proof.
  unfold percentage_of_all. destruct a as [x|?], b as [y|?]; try by intros [= <-].
  destruct (gt0 (dadd x y)); [|done]. destruct value; [done|by intros [= <-]].
Qed.

Lemma store_error value e : store value = inl e → e = ValueError.
Proof. destruct value; [done|by intros [= <-]]. Qed.

Lemma read_csv_row_error fs path k e :
  read_csv_row fs path k = inl e →
  (e = FileNotFoundError ∧ fs path = None) ∨
  (e = EmptyDataError ∧ is_Some (fs path)).
Proof.
  unfold read_csv_row. destruct (fs path) as [rows|]; [|intros [= <-]; by left].
  destruct (rows !! k); [done|]. intros [= <-]. right. split; [done|by eexists].
Qed.

Lemma try_body_file_not_found fs row_offset column_offset mode path :
  try_body fs row_offset column_offset mode path = inl FileNotFoundError
  ↔ fs path = None.
Proof.
  split.
  - unfold try_body.
    destruct (read_csv_row fs path row_offset) as [e|data] eqn:Hread.
    { intros [= ->]. by apply read_csv_row_error in Hread as [[_ ?]|[? _]]. }
    simpl. destruct (iloc data (column_offset - 1)) as [e|value] eqn:Hv.
    { intros [= ->]. by apply iloc_error in Hv. }
    simpl. case_decide.
    + destruct (read_csv_row fs path 1) as [e|totals] eqn:Htot.
      { intros [= ->]. apply read_csv_row_error in Htot as [[_ ?]|[? _]]; [done|done]. }
      simpl. destruct (iloc totals 0) as [e|a] eqn:Ha.
      { intros [= ->]. by apply iloc_error in Ha. }
      simpl. destruct (iloc totals 1) as [e|b] eqn:Hb.
      { intros [= ->]. by apply iloc_error in Hb. }
      simpl. destruct (percentage_of_all value a b) as [e|v'] eqn:Hp.
      { intros [= ->]. by apply percentage_of_all_error in Hp. }
      simpl. intros Hs. by apply store_error in Hs.
    + simpl. intros Hs. by apply store_error in Hs.
  - intros Hnone. unfold try_body, read_csv_row. by rewrite Hnone.
Qed.

Section Console.

Variable fs : filesystem.
Variable folder : string.
Variable row_offset : nat.
Variable column_offset : Z.
Variable app_type : string.
Variable calculate_percentage : option string.

#[local] Abbreviation outcome := (fun p : position =>
  try_body fs row_offset column_offset calculate_percentage
    (position_path folder app_type p)).

Lemma foldl_step_console ps st :
  console (foldl (step fs folder row_offset column_offset app_type
                    calculate_percentage) st ps)
  = console st
    ++ (ps ≫= fun p => handler_message (position_path folder app_type p) (outcome p)).
Proof.
  revert st. induction ps as [|p ps IH]; intros st.
  - simpl. by rewrite app_nil_r.
  - cbn [foldl]. rewrite IH, bind_cons, app_assoc. f_equal.
    by destruct p as [[s [i sc]] [j nd]].
Qed.

End Console.

Lemma read_csv_row_numeric fs path k row :
  numeric_logs fs → read_csv_row fs path k = inr row → Forall is_number row.
Proof.
  intros Hnum. unfold read_csv_row. destruct (fs path) as [rows|] eqn:Hfs; [|done].
  destruct (rows !! k) as [r|] eqn:Hk; [|done]. intros [= <-].
  by apply (Forall_lookup_1 _ _ _ _ (Hnum path rows Hfs) Hk).
Qed.

Lemma iloc_numeric row c f :
  Forall is_number row → iloc row c = inr f → ∃ x, f = FNum x.
Proof.
  intros Hrow. unfold iloc. destruct (_ && _); [|done].
  destruct (row !! _) as [f'|] eqn:Hf; [|done]. intros [= <-].
  pose proof (Forall_lookup_1 _ _ _ _ Hrow Hf) as Hnum.
  destruct f' as [x|]; [by exists x|done].
Qed.

(** On logs of numbers the body of the [try] fails only for want of the
    file, the row or the column. *)
Lemma try_body_numeric_error fs row_offset column_offset mode path e :
  numeric_logs fs →
  try_body fs row_offset column_offset mode path = inl e →
  e = FileNotFoundError ∨ e = EmptyDataError ∨ e = IndexError.
Proof.
  intros Hnum. unfold try_body.
  destruct (read_csv_row fs path row_offset) as [e'|data] eqn:Hread.
  { intros [= <-]. apply read_csv_row_error in Hread as [[He _]|[He _]]; subst; auto. }
  cbn [mbind exn_bind].
  destruct (iloc data (column_offset - 1)) as [e'|value] eqn:Hv.
  { intros [= <-]. apply iloc_error in Hv. auto. }
  cbn [mbind exn_bind].
  destruct (iloc_numeric _ _ _ (read_csv_row_numeric _ _ _ _ Hnum Hread) Hv) as [x ->].
  case_decide; [|done].
  destruct (read_csv_row fs path 1) as [e'|totals] eqn:Htot.
  { intros [= <-]. apply read_csv_row_error in Htot as [[He _]|[He _]]; subst; auto. }
  cbn [mbind exn_bind].
  pose proof (read_csv_row_numeric _ _ _ _ Hnum Htot) as Htotals.
  destruct (iloc totals 0) as [e'|a] eqn:Ha.
  { intros [= <-]. apply iloc_error in Ha. auto. }
  cbn [mbind exn_bind].
  destruct (iloc totals 1) as [e'|b] eqn:Hb.
  { intros [= <-]. apply iloc_error in Hb. auto. }
  cbn [mbind exn_bind].
  destruct (iloc_numeric _ _ _ Htotals Ha) as [y ->].
  destruct (iloc_numeric _ _ _ Htotals Hb) as [z ->].
  unfold percentage_of_all. by destruct (gt0 (dadd y z)).
Qed.

(** X20.  On logs whose fields are numbers, the console holds, in loop
    order, one line for every position whose read failed and none for the
    others.  The line is the file-not-found warning exactly when the file does
    not exist; every other failure, a log without the row (EmptyDataError) or
    without the column (IndexError), is reported as an error with its
    exception. *)
Theorem console_lists_failed_reads
    (fs : filesystem) (folder : string) (row_offset : nat) (column_offset : Z)
    (app_type : string) (calculate_percentage : option string)
    (n : nat) (scenarios : list string) (device_counts : list Z) :
  numeric_logs fs →
  let final := read_loop fs folder row_offset column_offset app_type
                 calculate_percentage n scenarios device_counts in
  let read path := try_body fs row_offset column_offset calculate_percentage path in
  console final
  = (positions n scenarios device_counts ≫= fun p =>
       handler_message (position_path folder app_type p)
         (read (position_path folder app_type p))) ∧
  (∀ path, WarningFileNotFound path ∈ console final
           ↔ path ∈ opened final ∧ fs path = None) ∧
  (∀ path e, ErrorReading path e ∈ console final
             ↔ path ∈ opened final ∧ read path = inl e ∧ fs path ≠ None) ∧
  (∀ path e, ErrorReading path e ∈ console final →
             e = EmptyDataError ∨ e = IndexError) ∧
  (∀ path v, path ∈ opened final → read path = inr v →
             ∀ line, line ∈ console final →
               line ≠ WarningFileNotFound path ∧ ∀ e, line ≠ ErrorReading path e).
Proof.
  intros Hnum final read.
  assert (console final
          = (positions n scenarios device_counts ≫= fun p =>
               handler_message (position_path folder app_type p)
                 (read (position_path folder app_type p)))) as Hconsole.
  { unfold final, read_loop. by rewrite foldl_step_console. }
  assert (opened final
          = position_path folder app_type <$> positions n scenarios device_counts)
    as Hopened by apply read_loop_opened.
  assert (∀ line, line ∈ console final ↔
            ∃ path, path ∈ opened final ∧ line ∈ handler_message path (read path))
    as Hline.
  { intros line. rewrite Hconsole, Hopened, list_elem_of_bind. split.
    - intros (p & Hl & Hp). exists (position_path folder app_type p).
      split; [|done]. apply list_elem_of_fmap. by exists p.
    - intros (path & Hpath & Hl). apply list_elem_of_fmap in Hpath as (p & -> & Hp).
      by exists p. }
  assert (∀ path e, ErrorReading path e ∈ console final
             ↔ path ∈ opened final ∧ read path = inl e ∧ fs path ≠ None) as Herror.
  { intros path e. rewrite Hline. split.
    + intros (path' & Hin & Hl). unfold handler_message in Hl.
      destruct (read path') as [e'|v] eqn:Hr; [|by apply elem_of_nil in Hl].
      destruct e'; apply list_elem_of_singleton in Hl; try done;
        injection Hl as -> ->; (split; [done|]); (split; [done|]);
        intros Hnone;
        apply (try_body_file_not_found fs row_offset column_offset
                 calculate_percentage) in Hnone; unfold read in Hr; congruence.
    + intros (Hin & Hr & Hsome). exists path. split; [done|]. rewrite Hr.
      destruct e; try by left.
      exfalso. apply Hsome. by apply try_body_file_not_found in Hr. }
  split; [done|]. split; [|split; [|split]].
  - intros path. rewrite Hline. split.
    + intros (path' & Hin & Hl). unfold handler_message in Hl.
      destruct (read path') as [e|v] eqn:Hr; [|by apply elem_of_nil in Hl].
      destruct e; apply list_elem_of_singleton in Hl; try done.
      injection Hl as ->. split; [done|]. by apply try_body_file_not_found in Hr.
    + intros [Hin Hnone]. exists path. split; [done|].
      apply (try_body_file_not_found fs row_offset column_offset calculate_percentage)
        in Hnone. unfold read. rewrite Hnone. by left.
  - exact Herror.
  - intros path e He. apply Herror in He as (_ & Hr & Hsome).
    destruct (try_body_numeric_error _ _ _ _ _ _ Hnum Hr) as [-> | [-> | ->]]; auto.
    exfalso. apply Hsome. by apply try_body_file_not_found in Hr.
  - intros path v Hin Hr line Hl. apply Hline in Hl as (path' & Hin' & Hl).
    unfold handler_message in Hl.
    destruct (read path') as [e'|v'] eqn:Hr'; [|by apply elem_of_nil in Hl].
    destruct e'; apply list_elem_of_singleton in Hl; subst line;
      (split; [|intros e]); intros Heq; try discriminate Heq;
      injection Heq as ->; congruence.
Qed.

Lemma numeric_logs_all_five : numeric_logs fs_all_five.
Proof.
  intros path rows [= <-]. repeat constructor.
Qed.

(** X20 for one log that holds the single value 5, read at its second
    column: the IndexError is reported. *)
Lemma console_lists_failed_reads_witness :
  console (read_loop fs_all_five "sim_results" 0 2 "ALL_APPS" None 1 ["RANDOM_FIT"]
             [100%Z])
  = [ErrorReading
       "sim_results/ite1/SIMRESULT_DEFAULT_SCENARIO_RANDOM_FIT_100DEVICES_ALL_APPS_GENERIC.log"
       IndexError].
Proof.
  rewrite (proj1 (console_lists_failed_reads fs_all_five "sim_results" 0 2 "ALL_APPS"
                    None 1 ["RANDOM_FIT"] [100%Z] numeric_logs_all_five)).
  reflexivity.
Defined.

End PlotReaderFacts.

(** ** plotGenericLine.py: what is reported, further properties *)

Module PlotAggregationFacts.

Import PlotGenericLine DblFacts PlotGenericLineFacts PlotReaderFacts.

#[local] Arguments percentage_of_all : simpl never.

(** *** The shape of the table *)

Lemma set3_rows (a : list (list (list dbl))) d s i j v :
  Forall (Forall (fun row => length row = d)) a →
  Forall (Forall (fun row => length row = d)) (set3 a s i j v).
Proof.
  intros Ha. unfold set3. apply Forall_alter; [done|].
  intros plane _ Hp. apply Forall_alter; [done|].
  intros row _ Hrow. by rewrite length_insert.
Qed.

Lemma read_loop_rows fs folder row_offset column_offset app_type calc n scs devs :
  Forall (Forall (fun row => length row = length devs))
    (all_results (read_loop fs folder row_offset column_offset app_type calc n scs devs)).
Proof.
  unfold read_loop.
  generalize (positions n scs devs). intros ps.
  assert (Forall (Forall (fun row : list dbl => length row = length devs))
            (zeros3 n (length scs) (length devs))) as H0.
  { unfold zeros3. apply Forall_replicate, Forall_replicate.
    by rewrite length_replicate. }
  revert H0. generalize (zeros3 n (length scs) (length devs)) as a0.
  generalize (@nil message) as c0. generalize (@nil string) as o0.
  induction ps as [|p ps IH]; intros o0 c0 a0 H0; simpl; [done|].
  destruct p as [[s [i sc]] [j nd]]. simpl. apply IH. by apply set3_rows.
Qed.

(** X21.  A run with a single iteration and a table that stays
    two-dimensional (neither exactly one scenario nor exactly one device
    count) reports, for every scenario and device count, the value read from
    the file of iteration 1 over the divisor (NaN when the read failed), and
    error-bar offsets that are all 0. *)
Theorem single_iteration_reports_the_cells
    (t_ppf : R → R → R) (cfg : config) (fs : filesystem) (row_offset : nat)
    (column_offset : Z) (app_type : string) (calculate_percentage : option string)
    (divisor : R) (device_counts : list Z) :
  num_iterations cfg = 1 →
  py_range (min_devices cfg) (max_devices cfg + 1) (step_devices cfg)
    = Some device_counts →
  length (scenario_types cfg) ≠ 1 →
  length device_counts ≠ 1 →
  ∃ l,
    plot_generic_line t_ppf cfg fs row_offset column_offset app_type
      calculate_percentage divisor = inr l ∧
    length l = length (scenario_types cfg) ∧
    ∀ i scenario, scenario_types cfg !! i = Some scenario →
      l !! i
      = Some {| ys := (fun num_devices =>
                         ddiv (cell_value
                                 (try_body fs row_offset column_offset
                                    calculate_percentage
                                    (file_path (folder_path cfg) app_type 1 scenario
                                       num_devices)))
                           (Fin divisor)) <$> device_counts;
                yerr_low := replicate (length device_counts) (Fin 0);
                yerr_high := replicate (length device_counts) (Fin 0) |}.
Proof.
  intros Hn Hrange Hm Hd. unfold plot_generic_line. rewrite Hrange, Hn.
  set (scs := scenario_types cfg) in *.
  set (a := all_results (read_loop fs (folder_path cfg) row_offset column_offset
              app_type calculate_percentage 1 scs device_counts)).
  assert (length a = 1) as Hlen by apply read_loop_length.
  destruct a as [|plane [|? ?]] eqn:Ha; try done.
  assert (length plane = length scs) as Hplane.
  { pose proof (read_loop_planes fs (folder_path cfg) row_offset column_offset
                  app_type calculate_percentage 1 scs device_counts) as H.
    fold a in H. rewrite Ha in H. by apply Forall_inv in H. }
  assert (Forall (fun row => length row = length device_counts) plane) as Hrows.
  { pose proof (read_loop_rows fs (folder_path cfg) row_offset column_offset
                  app_type calculate_percentage 1 scs device_counts) as H.
    fold a in H. rewrite Ha in H. by apply Forall_inv in H. }
  assert (∀ i scenario, scs !! i = Some scenario →
            plane !! i
            = Some ((fun num_devices =>
                       cell_value (try_body fs row_offset column_offset
                                     calculate_percentage
                                     (file_path (folder_path cfg) app_type 1 scenario
                                        num_devices))) <$> device_counts)) as Hrow.
  { intros i scenario Hi.
    destruct (lookup_lt_is_Some_2 plane i) as [row Hr];
      [rewrite Hplane; by eapply lookup_lt_Some|].
    rewrite Hr. f_equal. apply list_eq. intros j. rewrite list_lookup_fmap.
    destruct (device_counts !! j) as [nd|] eqn:Hj; simpl.
    - pose proof (read_loop_cell fs (folder_path cfg) row_offset column_offset
                    app_type calculate_percentage 1 scs device_counts
                    1 i scenario j nd ltac:(lia) Hi Hj) as Hcell.
      fold a in Hcell. rewrite Ha in Hcell. unfold get3, get2 in Hcell.
      simpl in Hcell. by rewrite Hr in Hcell.
    - apply lookup_ge_None. rewrite Forall_forall in Hrows.
      rewrite (Hrows row) by (by eapply list_elem_of_lookup_2).
      by apply lookup_ge_None in Hj. }
  set (out := fun i =>
    match scs !! i with
    | Some scenario =>
        {| ys := (fun num_devices =>
                    ddiv (cell_value
                            (try_body fs row_offset column_offset calculate_percentage
                               (file_path (folder_path cfg) app_type 1 scenario
                                  num_devices)))
                      (Fin divisor)) <$> device_counts;
           yerr_low := replicate (length device_counts) (Fin 0);
           yerr_high := replicate (length device_counts) (Fin 0) |}
    | None => {| ys := []; yerr_low := []; yerr_high := [] |}
    end).
  exists (out <$> seq 0 (length scs)). split; [|split].
  - apply mapM_inr_intro. intros i Hi. apply elem_of_seq in Hi.
    destruct (lookup_lt_is_Some_2 scs i) as [scenario Hsc]; [lia|].
    unfold out. rewrite Hsc. unfold plot_series.
    rewrite nd_row_ci_low, nd_row_ci_high by lia.
    assert (nd_row (results divisor 1 (length scs) (length device_counts) [plane]) i
            = inr ((fun x => ddiv x (Fin divisor)) <$>
                     ((fun num_devices =>
                         cell_value (try_body fs row_offset column_offset
                                       calculate_percentage
                                       (file_path (folder_path cfg) app_type 1 scenario
                                          num_devices))) <$> device_counts))) as ->.
    { unfold results, squeeze. rewrite decide_True by done.
      rewrite !decide_False by done. simpl.
      by rewrite list_lookup_fmap, (Hrow i scenario Hsc). }
    simpl. f_equal. f_equal.
    + by rewrite <- list_fmap_compose.
    + rewrite (fmap_constant _ (Fin 0)); [by rewrite length_seq|].
      intros j. reflexivity.
    + rewrite (fmap_constant _ (Fin 0)); [by rewrite length_seq|].
      intros j. reflexivity.
  - by rewrite length_fmap, length_seq.
  - intros i scenario Hsc. rewrite list_lookup_fmap.
    rewrite lookup_seq_lt by (by eapply lookup_lt_Some). simpl.
    unfold out. by rewrite Hsc.
Qed.

(** X21 for one iteration of two scenarios and two device counts. *)
Lemma single_iteration_reports_the_cells_witness :
  ∃ l,
    plot_generic_line t_ppf_linear
      {| folder_path := "sim_results"; num_iterations := 1;
         scenario_types := ["RANDOM_FIT"; "WORST_FIT"];
         min_devices := 100; step_devices := 100; max_devices := 200 |}
      fs_all_five 0 1 "ALL_APPS" None 1 = inr l ∧
    length l = 2.
Proof.
  destruct (single_iteration_reports_the_cells t_ppf_linear
              {| folder_path := "sim_results"; num_iterations := 1;
                 scenario_types := ["RANDOM_FIT"; "WORST_FIT"];
                 min_devices := 100; step_devices := 100; max_devices := 200 |}
              fs_all_five 0 1 "ALL_APPS" None 1 [100; 200]%Z
              eq_refl eq_refl ltac:(simpl; lia) ltac:(simpl; lia))
    as (l & Hl & Hlen & _).
  exists l. split; [exact Hl|exact Hlen].
Defined.

(** *** The mean stays within the samples *)

Lemma Rsum_bounds (lo hi : R) xs :
  (∀ x, x ∈ xs → (lo <= x <= hi)%R) →
  (INR (length xs) * lo <= Rsum xs <= INR (length xs) * hi)%R.
Proof.
  induction xs as [|x xs IH]; intros H.
  - simpl. lra.
  - cbn [length]. rewrite S_INR. unfold Rsum in *. cbn [foldr].
    pose proof (H x ltac:(by left)).
    pose proof (IH ltac:(intros y Hy; apply H; by right)). lra.
Qed.

Lemma nanmean_bounds (lo hi : R) xs :
  finite_part xs ≠ [] →
  (∀ x, x ∈ finite_part xs → (lo <= x <= hi)%R) →
  ∃ mean, nanmean xs = Fin mean ∧ (lo <= mean <= hi)%R.
Proof.
  intros Hne Hb. rewrite nanmean_fin by done. eexists. split; [done|].
  pose proof (Rsum_bounds lo hi _ Hb) as Hs.
  assert (0 < INR (length (finite_part xs)))%R as Hn.
  { destruct (finite_part xs); [done|]. cbn [length]. rewrite S_INR.
    pose proof (pos_INR (length l)). lra. }
  set (k := INR (length (finite_part xs))) in *.
  set (total := Rsum (finite_part xs)) in *.
  assert (0 < / k)%R as Hinv by (by apply Rinv_0_lt_compat).
  assert (lo = k * lo * / k)%R as Hl by (field; lra).
  assert (hi = k * hi * / k)%R as Hh by (field; lra).
  unfold Rdiv. split.
  - rewrite Hl. apply Rmult_le_compat_r; lra.
  - rewrite Hh. apply Rmult_le_compat_r; lra.
Qed.

(** X22.  On reals, without rounding or overflow: with more than one
    iteration (or none) and a positive divisor, the value reported for a cell
    that has at least one non-missing sample lies between the smallest and the
    largest of its samples, each over the divisor: averaging cannot leave the
    range of the data, and percentages stay between 0 and 100.  (On doubles
    the mean can leave the range by a rounding error.) *)
Theorem reported_mean_within_the_samples
    (t_ppf : R → R → R) (divisor : R) (n m d : nat) (a : list (list (list dbl)))
    (i j : nat) (lo hi : R) :
  n ≠ 1 → i < m → j < d → (0 < divisor)%R →
  finite_part (cell_column a i j) ≠ [] →
  (∀ x, x ∈ finite_part (cell_column a i j) → (lo <= x <= hi)%R) →
  ∃ sr y,
    plot_series t_ppf divisor n m d a i = inr sr ∧
    ys sr !! j = Some (Fin y) ∧
    (lo / divisor <= y <= hi / divisor)%R.
Proof.
  intros Hn Hi Hj Hdiv Hne Hb. unfold plot_series.
  rewrite results_row_mean, nd_row_ci_low, nd_row_ci_high by done. simpl.
  destruct (nanmean_bounds lo hi _ Hne Hb) as (mean & Hmean & Hlo & Hhi).
  eexists. exists (mean / divisor)%R. split; [done|]. simpl.
  rewrite list_lookup_fmap, lookup_seq_lt by done. simpl. rewrite Hmean.
  split.
  - f_equal. unfold ddiv. destruct (Req_dec_T divisor 0); [lra|done].
  - assert (0 < / divisor)%R by (by apply Rinv_0_lt_compat).
    unfold Rdiv. split; by apply Rmult_le_compat_r; [lra|].
Qed.

(** X22 on the samples 1 and 3. *)
Lemma reported_mean_within_the_samples_witness :
  ∃ sr y,
    plot_series t_ppf_linear 1 2 1 1 table_one_three 0 = inr sr ∧
    ys sr !! 0 = Some (Fin y) ∧ (1 / 1 <= y <= 3 / 1)%R.
Proof.
  apply (reported_mean_within_the_samples t_ppf_linear 1 2 1 1 table_one_three 0 0 1 3).
  - lia.
  - lia.
  - lia.
  - lra.
  - discriminate.
  - intros x Hx. change (finite_part (cell_column table_one_three 0 0))
      with [1%R; 3%R] in Hx.
    apply elem_of_cons in Hx as [->|Hx]; [lra|].
    apply list_elem_of_singleton in Hx. subst. lra.
Defined.

(** *** Totals that are not positive *)

Lemma gt0_false x y :
  gt0 (dadd x y) = false ↔
  x = NaN ∨ y = NaN ∨ ∃ a b, x = Fin a ∧ y = Fin b ∧ (a + b <= 0)%R.
Proof.
  destruct x as [a|], y as [b|]; simpl; try (split; [auto|done]).
  destruct (Rlt_dec 0 (a + b)) as [Hp|Hn].
  - split; [done|]. intros [?|[?|(a' & b' & [= <-] & [= <-] & ?)]]; try done. lra.
  - split; [|done]. intros _. right. right. exists a, b. split; [done|].
    split; [done|lra].
Qed.

(** X23.  In percentage mode the total is tested with [total_tasks > 0],
    which is false for a negative total and also for a missing one.  A file
    whose totals row holds numbers but whose total is missing or not positive
    therefore yields the cell 0, not NaN, whatever was read as the value, and
    no message is printed. *)
Theorem total_not_positive_stores_zero
    (fs : filesystem) (folder : string) (row_offset : nat) (column_offset : Z)
    (app_type : string) (n : nat) (scenarios : list string) (device_counts : list Z)
    (s i : nat) (scenario : string) (j : nat) (num_devices : Z)
    (row totals : list field) (value : field) (x y : dbl) :
  1 ≤ s ≤ n →
  scenarios !! i = Some scenario →
  device_counts !! j = Some num_devices →
  let path := file_path folder app_type s scenario num_devices in
  read_csv_row fs path row_offset = inr row →
  iloc row (column_offset - 1) = inr value →
  read_csv_row fs path 1 = inr totals →
  iloc totals 0 = inr (FNum x) →
  iloc totals 1 = inr (FNum y) →
  x = NaN ∨ y = NaN ∨ (∃ a b, x = Fin a ∧ y = Fin b ∧ (a + b <= 0)%R) →
  let final := read_loop fs folder row_offset column_offset app_type
                 (Some "percentage_of_all") n scenarios device_counts in
  try_body fs row_offset column_offset (Some "percentage_of_all") path = inr (Fin 0) ∧
  get3 (all_results final) (s - 1) i j = Some (Fin 0) ∧
  handler_message path
    (try_body fs row_offset column_offset (Some "percentage_of_all") path) = [].
Proof.
  intros Hs Hi Hj path Hrow Hv Htot Hx Hy Hcase final.
  assert (try_body fs row_offset column_offset (Some "percentage_of_all") path
          = inr (Fin 0)) as Hbody.
  { unfold try_body. rewrite Hrow. simpl. rewrite Hv. simpl.
    rewrite Htot. simpl. rewrite Hx. simpl.
    rewrite Hy. simpl. unfold percentage_of_all.
    apply gt0_false in Hcase. by rewrite Hcase. }
  split; [done|]. split; [|by rewrite Hbody].
  unfold final.
  rewrite (read_loop_cell _ _ _ _ _ _ _ _ _ s i scenario j num_devices) by done.
  fold path. by rewrite Hbody.
Qed.

(** X23 for logs whose totals row is 0;0. *)
Lemma total_not_positive_stores_zero_witness :
  try_body (fun _ => Some [[FNum (Fin 7)]; [FNum (Fin 0); FNum (Fin 0)]]) 0 1
    (Some "percentage_of_all") (file_path "sim_results" "ALL_APPS" 1 "RANDOM_FIT" 100)
  = inr (Fin 0).
Proof.
  apply (total_not_positive_stores_zero
           (fun _ => Some [[FNum (Fin 7)]; [FNum (Fin 0); FNum (Fin 0)]])
           "sim_results" 0 1 "ALL_APPS" 1 ["RANDOM_FIT"] [100%Z] 1 0 "RANDOM_FIT" 0 100
           [FNum (Fin 7)] [FNum (Fin 0); FNum (Fin 0)] (FNum (Fin 7)) (Fin 0) (Fin 0)).
  - lia.
  - reflexivity.
  - reflexivity.
  - reflexivity.
  - reflexivity.
  - reflexivity.
  - reflexivity.
  - reflexivity.
  - right. right. exists 0%R, 0%R. split; [reflexivity|]. split; [reflexivity|lra].
Defined.

End PlotAggregationFacts.

(** ** plotGenericLine.py: drawing and saving *)

Module PlotFigureFacts.

Import PlotGenericLine PlotFigure DblFacts PlotGenericLineFacts StringFacts.

(** *** The plotting loop *)

Lemma mapM_inl_inv {A B} (f : A → exn + B) l e :
  mapM f l = inl e → ∃ x, x ∈ l ∧ f x = inl e.
Proof.
  induction l as [|x l IH]; [done|]. simpl.
  destruct (f x) as [e'|y] eqn:Hx; simpl.
  - intros [= <-]. exists x. split; [by left|done].
  - destruct (mapM f l) as [e'|k]; simpl; [|done].
    intros [= <-]. destruct IH as (x' & Hin & Hx'); [done|].
    exists x'. split; [by right|done].
Qed.

Lemma mapM_inr_length {A B} (f : A → exn + B) l out :
  mapM f l = inr out → length out = length l.
Proof.
  revert out. induction l as [|x l IH]; intros out; simpl.
  - by intros [= <-].
  - destruct (f x) as [e|y]; [done|]. simpl.
    destruct (mapM f l) as [e|k]; [done|]. simpl.
    intros [= <-]. simpl. f_equal. by apply IH.
Qed.

Lemma mapM_bind_each {A B C} (f : A → exn + C) (g : A → exn + B) (h : A → B → C) l :
  (∀ x, x ∈ l → f x = (y ← g x; inr (h x y))) →
  mapM f l = (ys ← mapM g l; inr (zip_with h l ys)).
Proof.
  induction l as [|x l IH]; intros Hf; [done|].
  simpl. rewrite (Hf x) by left. rewrite IH by (intros; apply Hf; by right).
  destruct (g x) as [e|y]; [done|]. simpl.
  by destruct (mapM g l).
Qed.

Lemma zip_with_seq_imap {A B} (h : nat → A → B) (l : list A) :
  zip_with h (seq 0 (length l)) l = imap h l.
Proof.
  apply list_eq. intros i. rewrite lookup_zip_with, list_lookup_imap.
  destruct (l !! i) as [x|] eqn:Hx; simpl.
  - rewrite lookup_seq_lt by (by eapply lookup_lt_Some). done.
  - by destruct (seq 0 (length l) !! i).
Qed.

Section Loop.

Variable t_ppf : R → R → R.
Variable divisor : R.
Variable n m d : nat.
Variable a : list (list (list dbl)).
Variable st : style.
Variable device_counts : list Z.

#[local] Abbreviation draw' :=
  (draw st device_counts (results divisor n m d a)
     (min_ci_vals t_ppf divisor n m d a) (max_ci_vals t_ppf divisor n m d a)).

Lemma draw_covered i :
  i < m → covers st (S i) →
  draw' i = (sr ← plot_series t_ppf divisor n m d a i;
             inr (artist_of st device_counts i sr)).
Proof.
  intros Hi [Hleg Hcol]. unfold draw, plot_series, artist_of, subscript.
  rewrite nd_row_ci_low, nd_row_ci_high by done.
  destruct (lookup_lt_is_Some_2 (legends st) i) as [label ->]; [lia|].
  destruct (use_color st).
  - destruct Hcol as [Hc Hm].
    destruct (lookup_lt_is_Some_2 (colors st) i) as [c ->]; [lia|].
    destruct (lookup_lt_is_Some_2 (color_markers st) i) as [mk ->]; [lia|].
    simpl. destruct (plot_confidence_interval st);
      by destruct (nd_row (results divisor n m d a) i).
  - destruct (lookup_lt_is_Some_2 (bw_markers st) i) as [mk ->]; [lia|].
    simpl. destruct (plot_confidence_interval st);
      by destruct (nd_row (results divisor n m d a) i).
Qed.

Lemma nd_row_error (x : ndarray) i e : nd_row x i = inl e → e = IndexError.
Proof.
  destruct x as [?|?|xss]; simpl; try by intros [= <-].
  destruct (xss !! i); [done|by intros [= <-]].
Qed.

Lemma subscript_error {A} (l : list A) i e : subscript l i = inl e → e = IndexError.
Proof. unfold subscript. destruct (l !! i); [done|by intros [= <-]]. Qed.

Lemma bind_inl {A B} (x : exn + A) (f : A → exn + B) e :
  x ≫= f = inl e → x = inl e ∨ ∃ y, x = inr y ∧ f y = inl e.
Proof.
  destruct x as [e'|y]; intros H; cbv [mbind exn_bind] in H; [left; congruence|].
  right. exists y. split; [done|exact H].
Qed.

Lemma bind_inr {A B} (x : exn + A) (f : A → exn + B) z :
  x ≫= f = inr z → ∃ y, x = inr y ∧ f y = inr z.
Proof.
  destruct x as [e'|y]; intros H; [discriminate H|].
  exists y. split; [done|exact H].
Qed.

Ltac solve_error H :=
  first
    [ discriminate H
    | by apply subscript_error in H
    | by apply nd_row_error in H
    | apply bind_inl in H as [H|(? & _ & H)]; solve_error H ].

Lemma subscript_inr {A} (l : list A) i x : subscript l i = inr x → i < length l.
Proof.
  unfold subscript. destruct (l !! i) eqn:H; [|done].
  intros _. by eapply lookup_lt_Some.
Qed.

Lemma draw_error i e : draw' i = inl e → e = IndexError.
Proof.
  intros H. unfold draw in H.
  destruct (use_color st), (plot_confidence_interval st); solve_error H.
Qed.

Lemma draw_inr_covers i art : draw' i = inr art → covers st (S i).
Proof.
  intros H. unfold draw in H. unfold covers.
  destruct (use_color st), (plot_confidence_interval st);
    repeat match goal with
           | Hb : _ ≫= _ = inr _ |- _ => apply bind_inr in Hb as (? & ? & ?)
           end;
    repeat match goal with
           | Hs : subscript _ _ = inr _ |- _ => apply subscript_inr in Hs
           end; lia.
Qed.

Lemma covers_mono k k' : k' ≤ k → covers st k → covers st k'.
Proof.
  unfold covers. intros Hk [Hl Hc]. split; [lia|].
  destruct (use_color st); [destruct Hc; split; lia|lia].
Qed.

Lemma draw_all_covered :
  covers st m →
  draw_all st m device_counts (results divisor n m d a)
    (min_ci_vals t_ppf divisor n m d a) (max_ci_vals t_ppf divisor n m d a)
  = (series_list ← mapM (plot_series t_ppf divisor n m d a) (seq 0 m);
     inr (imap (artist_of st device_counts) series_list)).
Proof.
  intros Hcov. unfold draw_all.
  rewrite (mapM_bind_each _ (plot_series t_ppf divisor n m d a)
             (artist_of st device_counts)).
  - destruct (mapM (plot_series t_ppf divisor n m d a) (seq 0 m)) as [e|l] eqn:Hl;
      [done|]. simpl. f_equal.
    apply mapM_inr_length in Hl. rewrite length_seq in Hl. rewrite <- Hl.
    apply zip_with_seq_imap.
  - intros i Hi. apply elem_of_seq in Hi. apply draw_covered; [lia|].
    apply (covers_mono m); [lia|done].
Qed.

Lemma draw_all_uncovered :
  ¬ covers st m →
  draw_all st m device_counts (results divisor n m d a)
    (min_ci_vals t_ppf divisor n m d a) (max_ci_vals t_ppf divisor n m d a)
  = inl IndexError.
Proof.
  intros Hnot. unfold draw_all.
  destruct (mapM draw' (seq 0 m)) as [e|arts] eqn:Hm.
  - apply mapM_inl_inv in Hm as (i & _ & Hi). apply draw_error in Hi. by subst.
  - exfalso. apply Hnot.
    destruct (decide (m = 0)) as [Hz|Hz].
    { rewrite Hz. unfold covers. destruct (use_color st); simpl; lia. }
    destruct (mapM_inr_lookup _ _ _ (m - 1) (m - 1) Hm) as (art & _ & Hart).
    { apply lookup_seq_lt. lia. }
    apply draw_inr_covers in Hart. by replace (S (m - 1)) with m in Hart by lia.
Qed.

End Loop.

(** X24.  The plotting loop indexes [legends] and, with [use_color],
    [colors] and [color_markers], otherwise [bw_markers], by the scenario
    number.  When each of these lists has at least as many entries as there
    are scenarios, the function draws one artist per series, in scenario
    order, labelled with the legend of the same number, and then, if
    configured, makes the calls that save the figure: [os.makedirs],
    [savefig] and the printed line, in a folder whose name is not empty and
    holds no NUL character (the offsets are computed but not drawn when
    [plot_confidence_interval] is off).  With saving configured and a folder
    name that is empty or holds a NUL character the call ends, once the
    series are drawn, with the exception of [os.makedirs].  When one of the
    lists is shorter the call ends with IndexError and saves nothing. *)
Theorem drawing_needs_a_style_per_scenario
    (t_ppf : R → R → R) (st : style) (cfg : config) (fs : filesystem)
    (row_offset : nat) (column_offset : Z) (app_type : string)
    (calculate_percentage : option string) (divisor : R) (device_counts : list Z) :
  py_range (min_devices cfg) (max_devices cfg + 1) (step_devices cfg)
    = Some device_counts →
  let drawn := draw_and_save t_ppf st cfg fs row_offset column_offset app_type
                 calculate_percentage divisor in
  let series := plot_generic_line t_ppf cfg fs row_offset column_offset
                  app_type calculate_percentage divisor in
  let path := output_path (folder_path cfg) row_offset column_offset app_type in
  (covers st (length (scenario_types cfg)) →
   (∀ e, series = inl e → drawn = inl e) ∧
   (∀ series_list, series = inr series_list →
      (save_figure_as_pdf st = false →
       drawn = inr (imap (artist_of st device_counts) series_list, [])) ∧
      (save_figure_as_pdf st = true → folder_path cfg ≠ "" →
       "000"%char ∉ String.list_ascii_of_string (folder_path cfg) →
       drawn = inr (imap (artist_of st device_counts) series_list,
                    [MakeDirs (folder_path cfg); SaveFig path;
                     PrintLine ("Figure saved to " +:+ path)])) ∧
      (save_figure_as_pdf st = true → folder_path cfg = "" →
       drawn = inl FileNotFoundError) ∧
      (save_figure_as_pdf st = true → folder_path cfg ≠ "" →
       "000"%char ∈ String.list_ascii_of_string (folder_path cfg) →
       drawn = inl ValueError))) ∧
  (¬ covers st (length (scenario_types cfg)) → drawn = inl IndexError).
Proof.
  intros Hrange drawn series path. subst drawn series path.
  unfold draw_and_save, plot_generic_line, save, makedirs_refuses.
  rewrite Hrange. split.
  - intros Hcov. rewrite draw_all_covered by done.
    destruct (mapM _ (seq 0 (length (scenario_types cfg)))) as [e|series_list].
    + split; [by intros ? [= <-]|done].
    + split; [done|]. intros ? [= <-]. cbn [mbind exn_bind].
      split; [|split; [|split]].
      * by intros ->.
      * intros -> Hne Hnul. by rewrite !decide_False.
      * intros -> Heq. by rewrite decide_True.
      * intros -> Hne Hnul. by rewrite decide_False, decide_True.
  - intros Hnot. by rewrite draw_all_uncovered.
Qed.

(** X24 for the configuration of tutorial 1, which saves the figure. *)
Lemma drawing_needs_a_style_per_scenario_witness :
  match plot_generic_line t_ppf_linear Tutorial1.get_configuration.1
          fs_all_five 1 2 "ALL_APPS" None 1 with
  | inr series_list =>
      draw_and_save t_ppf_linear Tutorial1.get_configuration.2
        Tutorial1.get_configuration.1 fs_all_five 1 2 "ALL_APPS" None 1
      = inr (imap (artist_of Tutorial1.get_configuration.2
                     [200; 400; 600; 800; 1000; 1200; 1400; 1600; 1800; 2000]%Z)
               series_list,
             [MakeDirs "../../../sim_results/tutorial1";
              SaveFig "../../../sim_results/tutorial1/1_2_ALL_APPS.pdf";
              PrintLine
                "Figure saved to ../../../sim_results/tutorial1/1_2_ALL_APPS.pdf"])
  | inl e =>
      draw_and_save t_ppf_linear Tutorial1.get_configuration.2
        Tutorial1.get_configuration.1 fs_all_five 1 2 "ALL_APPS" None 1
      = inl e
  end.
Proof.
  assert (covers Tutorial1.get_configuration.2
            (length (scenario_types Tutorial1.get_configuration.1))) as Hcovers
    by (unfold covers; simpl; lia).
  destruct (proj1 (drawing_needs_a_style_per_scenario t_ppf_linear
                     Tutorial1.get_configuration.2 Tutorial1.get_configuration.1
                     fs_all_five 1 2 "ALL_APPS" None 1
                     [200; 400; 600; 800; 1000; 1200; 1400; 1600; 1800; 2000]%Z
                     eq_refl) Hcovers) as [Hraised Hdrawn].
  destruct (plot_generic_line t_ppf_linear Tutorial1.get_configuration.1
              fs_all_five 1 2 "ALL_APPS" None 1) as [e|series_list].
  - by apply Hraised.
  - apply (proj1 (proj2 (Hdrawn series_list eq_refl)));
      [reflexivity|discriminate|].
    apply (bool_decide_unpack _). vm_compute. exact I.
Defined.

End PlotFigureFacts.

(** ** plotGenericLine.py: the name of the saved figure *)

Module PlotFileNameFacts.

Import PlotGenericLine PlotFigure StringFacts Numerals.
Import DataConvertor (free_of).

Lemma replace_char_app old new s1 s2 :
  replace_char old new (s1 +:+ s2)
  = replace_char old new s1 +:+ replace_char old new s2.
Proof. induction s1 as [|c s1 IH]; [done|]. simpl. by rewrite IH. Qed.

Lemma replace_char_free old new s : old ≠ new → free_of old (replace_char old new s).
Proof.
  intros Hne. unfold free_of. induction s as [|c s IH]; simpl.
  - apply not_elem_of_nil.
  - apply not_elem_of_cons. split; [|done]. by case_decide.
Qed.

Lemma replace_char_absent old new s : free_of old s → replace_char old new s = s.
Proof.
  unfold free_of. induction s as [|c s IH]; [done|]. simpl.
  intros [Hc Hs]%not_elem_of_cons. rewrite IH by done. by rewrite decide_False.
Qed.

Lemma space_not_numeral : ¬ numeral " ".
Proof.
  unfold numeral. cbn [String.list_ascii_of_string].
  rewrite !elem_of_cons, elem_of_nil. intros H.
  repeat (destruct H as [H|H]; [discriminate H|]). done.
Qed.

Lemma path_join_inj folder b b' : path_join folder b = path_join folder b' → b = b'.
Proof.
  unfold path_join. case_decide; [done|].
  destruct (ends_with_slash folder); intros Heq.
  - by apply (inj (String.append _)) in Heq.
  - apply (inj (String.append _)) in Heq. by apply (inj (String.append _)) in Heq.
Qed.

Lemma filename_inj row col app row' col' app' :
  filename row col app = filename row' col' app' →
  row = row' ∧ col = col' ∧ safe_app_type app = safe_app_type app'.
Proof.
  unfold filename. intros Heq.
  change ("_" +:+ ?s) with (String "_" s) in Heq.
  apply append_cut in Heq as [H1 H2];
    [|apply numeral_free_of; [apply underscore_not_numeral|apply pretty_nat_numeral]..].
  apply append_cut in H2 as [H2 H3];
    [|apply numeral_free_of; [apply underscore_not_numeral|apply pretty_Z_numeral]..].
  apply (inj pretty) in H1. apply (inj pretty) in H2. apply append_inv_tail in H3.
  done.
Qed.

Ltac literal_free :=
  let H := fresh in
  unfold free_of; cbn [String.list_ascii_of_string];
  rewrite !elem_of_cons, elem_of_nil; intros H;
  repeat (destruct H as [H|H]; [discriminate H|]); done.

Lemma filename_no_space row col app : free_of " " (filename row col app).
Proof.
  unfold filename.
  apply free_of_app;
    [apply numeral_free_of; [apply space_not_numeral|apply pretty_nat_numeral]|].
  apply free_of_app; [literal_free|].
  apply free_of_app;
    [apply numeral_free_of; [apply space_not_numeral|apply pretty_Z_numeral]|].
  apply free_of_app; [literal_free|].
  apply free_of_app; [by apply replace_char_free|].
  literal_free.
Qed.

(** X25.  The figure of a call is saved under a name made of the row offset,
    the column offset and the application type with every space replaced by
    an underscore; the name holds no space.  Two calls with the same folder
    write the same file exactly when they agree on the two offsets and on the
    application type up to that replacement, whatever their labels and
    legend positions are: a space and an underscore at the same place give
    the same file, and application types without spaces are told apart.  The
    twelve calls of tutorial3/python/plotAvgFailedTask.py write twelve
    files. *)
Theorem figure_name_identifies_the_call
    (folder : string) (row row' : nat) (col col' : Z) (app app' : string) :
  free_of " " (filename row col app) ∧
  (output_path folder row col app = output_path folder row' col' app'
   ↔ row = row' ∧ col = col' ∧ safe_app_type app = safe_app_type app') ∧
  (∀ a b, safe_app_type (a +:+ " " +:+ b) = safe_app_type (a +:+ "_" +:+ b)) ∧
  (free_of " " app → free_of " " app' →
   safe_app_type app = safe_app_type app' → app = app') ∧
  NoDup ((fun c => output_path folder (Tutorial3AvgFailedTask.row_offset c)
                     (Tutorial3AvgFailedTask.column_offset c)
                     (Tutorial3AvgFailedTask.app_type c))
         <$> Tutorial3AvgFailedTask.calls).
Proof.
  split; [apply filename_no_space|]. split; [|split; [|split]].
  - split.
    + intros H. unfold output_path in H. apply path_join_inj in H.
      by apply filename_inj.
    + intros (-> & -> & Happ). unfold output_path, filename. by rewrite Happ.
  - intros a b. unfold safe_app_type. by rewrite !replace_char_app.
  - unfold safe_app_type. intros Ha Hb. by rewrite !replace_char_absent.
  - set (key := fun c : Tutorial3AvgFailedTask.call =>
                  (Tutorial3AvgFailedTask.row_offset c,
                   Tutorial3AvgFailedTask.column_offset c,
                   safe_app_type (Tutorial3AvgFailedTask.app_type c))).
    apply NoDup_fmap_2_strong.
    + intros c c' Hc Hc' Heq. unfold output_path in Heq.
      apply path_join_inj, filename_inj in Heq as (Hr & Hcol & Happ).
      assert (key c = key c') as Hkey by (unfold key; congruence).
      assert (NoDup (key <$> Tutorial3AvgFailedTask.calls)) as Hnd.
      { apply (bool_decide_unpack _). vm_compute. exact I. }
      assert (∀ l, NoDup (key <$> l) → c ∈ l → c' ∈ l → c = c') as Hinj.
      { clear -Hkey. induction l as [|x l IH]; [by intros _ ?%elem_of_nil|].
        rewrite fmap_cons, NoDup_cons.
        intros [Hx Hl] [->|H1]%elem_of_cons [->|H2]%elem_of_cons.
        - done.
        - exfalso. apply Hx. rewrite Hkey. apply list_elem_of_fmap. by exists c'.
        - exfalso. apply Hx. rewrite <- Hkey. apply list_elem_of_fmap. by exists c.
        - by apply IH. }
      by apply (Hinj Tutorial3AvgFailedTask.calls).
    + assert (NoDup (key <$> Tutorial3AvgFailedTask.calls)) as Hnd.
      { apply (bool_decide_unpack _). vm_compute. exact I. }
      by apply NoDup_fmap_1 in Hnd.
Qed.

End PlotFileNameFacts.

(** ** The loop over iterations and device counts *)

Module FramesFacts.

Import Frames PlotGenericLineFacts.

Lemma elem_of_frame_positions n devs (p : nat * (nat * Z)) :
  p ∈ positions n devs ↔
  ∃ s j nd, p = (s, (j, nd)) ∧ 1 ≤ s ≤ n ∧ devs !! j = Some nd.
Proof.
  unfold positions. rewrite list_elem_of_bind. split.
  - intros (s & Hp & Hs). apply list_elem_of_bind in Hp as ([j nd] & Hp & Hj).
    apply list_elem_of_singleton in Hp. subst p.
    apply elem_of_seq in Hs. apply elem_of_enumerate in Hj.
    exists s, j, nd. repeat split; auto; lia.
  - intros (s & j & nd & -> & Hs & Hj).
    exists s. split; [|apply elem_of_seq; lia].
    apply list_elem_of_bind. exists (j, nd). split; [|by apply elem_of_enumerate].
    by apply list_elem_of_singleton.
Qed.

Lemma NoDup_enumerate {A} (l : list A) : NoDup (enumerate l).
Proof.
  apply NoDup_alt. intros k1 k2 [k x] H1 H2.
  rewrite enumerate_lookup in H1, H2.
  destruct (l !! k1); [|done]. destruct (l !! k2); [|done].
  simpl in *. congruence.
Qed.

Lemma NoDup_frame_positions n devs : NoDup (positions n devs).
Proof.
  unfold positions. apply NoDup_bind.
  - intros s1 s2 p _ _ H1 H2.
    apply list_elem_of_bind in H1 as (dv1 & H1 & _).
    apply list_elem_of_bind in H2 as (dv2 & H2 & _).
    apply list_elem_of_singleton in H1, H2. congruence.
  - intros s _. apply NoDup_bind.
    + intros dv1 dv2 p _ _ H1 H2.
      apply list_elem_of_singleton in H1, H2. congruence.
    + intros dv _. apply NoDup_singleton.
    + apply NoDup_enumerate.
  - apply NoDup_seq.
Qed.

(** A position met in the loop splits it into the passes before and the
    passes after, none of which has the same iteration and index. *)
Lemma frame_positions_split n devs s j nd :
  1 ≤ s ≤ n → devs !! j = Some nd →
  ∃ before after,
    positions n devs = before ++ (s, (j, nd)) :: after ∧
    (∀ p, p ∈ before ++ after → (p.1, p.2.1) ≠ (s, j)).
Proof.
  intros Hs Hj.
  assert ((s, (j, nd)) ∈ positions n devs) as Hin.
  { apply elem_of_frame_positions. by exists s, j, nd. }
  apply list_elem_of_split in Hin as (before & after & Heq).
  exists before, after. split; [done|].
  pose proof (NoDup_frame_positions n devs) as Hnd. rewrite Heq in Hnd.
  apply NoDup_app in Hnd as (_ & Hdisj & Hnd'). apply NoDup_cons in Hnd' as [Hnot _].
  intros p Hp Hidx.
  assert (p ∈ positions n devs) as Hpin.
  { rewrite Heq. apply elem_of_app in Hp as [?|?]; apply elem_of_app;
      [by left|right; by right]. }
  apply elem_of_frame_positions in Hpin as (s' & j' & nd' & -> & _ & Hj').
  simpl in Hidx. injection Hidx as -> ->.
  assert (nd' = nd) as -> by congruence.
  apply elem_of_app in Hp as [Hp|Hp]; [|done].
  apply (Hdisj _ Hp). by left.
Qed.

Lemma mapM_cons {A B} (f : A → exn + B) x l :
  mapM f (x :: l) = (y ← f x; k ← mapM f l; inr (y :: k)).
Proof. done. Qed.

Lemma mapM_frames_length {A B} (f : A → exn + B) l out :
  mapM f l = inr out → length out = length l.
Proof.
  revert out. induction l as [|x l IH]; intros out.
  - by intros [= <-].
  - rewrite mapM_cons. destruct (f x) as [e|y]; [done|]. cbn [mbind frames_bind].
    destruct (mapM f l) as [e|k]; [done|]. cbn [mbind frames_bind].
    intros [= <-]. simpl. f_equal. by apply IH.
Qed.

Lemma foldl_agree {A B} (f g : A → B → A) (P : A → Prop) (l : list B) (a : A) :
  P a →
  (∀ a b, P a → b ∈ l → f a b = g a b ∧ P (f a b)) →
  foldl f a l = foldl g a l.
Proof.
  revert a. induction l as [|b l IH]; intros a Ha H; [done|]. simpl.
  destruct (H a b Ha) as [Heq HP]; [by left|]. rewrite <- Heq.
  apply IH; [done|]. intros a' b' Ha' Hb'. apply H; [done|by right].
Qed.

End FramesFacts.

(** ** plotApDelay.py *)

Module PlotApDelayFacts.

Import Frames PlotApDelay FramesFacts DblFacts PlotGenericLineFacts.
Import PlotGenericLine (set3, get3, get2, nanmean_axis0, cell_column).

Lemma place_delay data1 data2 s j i a :
  place data1 data2 s j i a = (v ← delay_of data1 data2 i; assign a s i j v).
Proof.
  unfold place, delay_of.
  destruct (column data1 (i + 1) ≫= mean); [done|]. simpl.
  by destruct (column data2 (i + 1) ≫= mean).
Qed.

Lemma place_length data1 data2 s j i a a' :
  place data1 data2 s j i a = inr a' → length a' = length a.
Proof.
  rewrite place_delay. destruct (delay_of data1 data2 i) as [|v]; [done|]. simpl.
  unfold assign. destruct (get3 a s i j); [|done]. intros [= <-].
  unfold set3. by rewrite length_alter.
Qed.

Lemma places_length data1 data2 s j idx a :
  length (places data1 data2 s j idx a) = length a.
Proof.
  revert a. induction idx as [|i idx IH]; intros a; [done|]. simpl.
  destruct (place data1 data2 s j i a) as [|a'] eqn:Hp; [done|].
  rewrite IH. by eapply place_length.
Qed.

Lemma body_length read folder a p : length (body read folder a p) = length a.
Proof.
  destruct p as [s [j nd]]. unfold body.
  destruct (read (upload_path folder s nd)); [done|].
  destruct (read (download_path folder s nd)); [done|].
  apply places_length.
Qed.

Lemma foldl_body_length read folder ps a :
  length (foldl (body read folder) a ps) = length a.
Proof.
  revert a. induction ps as [|p ps IH]; intros a; [done|]. simpl.
  by rewrite IH, body_length.
Qed.

Lemma get3_outside (a : list (list (list dbl))) s i j :
  length a ≤ s → get3 a s i j = None.
Proof. intros Hs. unfold get3. by rewrite lookup_ge_None_2. Qed.

(** Outside the array nothing is stored. *)
Lemma places_outside data1 data2 s j idx a :
  length a ≤ s → places data1 data2 s j idx a = a.
Proof.
  intros Hs. destruct idx as [|i idx]; [done|]. simpl.
  rewrite place_delay. destruct (delay_of data1 data2 i) as [|v]; [done|]. simpl.
  unfold assign. by rewrite get3_outside.
Qed.

Lemma body_outside read folder a s j nd :
  length a ≤ s → body read folder a (s, (j, nd)) = a.
Proof.
  intros Hs. unfold body.
  destruct (read (upload_path folder s nd)); [done|].
  destruct (read (download_path folder s nd)); [done|].
  by apply places_outside.
Qed.

(** A pass stores in the cells of its own iteration and device count only. *)
Lemma places_other data1 data2 s j idx a s' i' j' :
  (s', j') ≠ (s, j) →
  get3 (places data1 data2 s j idx a) s' i' j' = get3 a s' i' j'.
Proof.
  intros Hne. revert a. induction idx as [|i idx IH]; intros a; [done|]. simpl.
  destruct (place data1 data2 s j i a) as [|a'] eqn:Hp; [done|].
  rewrite IH. rewrite place_delay in Hp.
  destruct (delay_of data1 data2 i) as [|v]; [done|]. simpl in Hp.
  unfold assign in Hp. destruct (get3 a s i j); [|done]. injection Hp as <-.
  rewrite get3_set3, decide_False; [done|]. intros (-> & _ & ->). done.
Qed.

Lemma body_other read folder a p s' i' j' :
  (p.1, p.2.1) ≠ (s', j') →
  get3 (body read folder a p) s' i' j' = get3 a s' i' j'.
Proof.
  destruct p as [s [j nd]]. cbn [fst snd]. intros Hne. unfold body.
  destruct (read (upload_path folder s nd)); [done|].
  destruct (read (download_path folder s nd)); [done|].
  apply places_other. congruence.
Qed.

Lemma foldl_body_other read folder ps a s' i' j' :
  (∀ p, p ∈ ps → (p.1, p.2.1) ≠ (s', j')) →
  get3 (foldl (body read folder) a ps) s' i' j' = get3 a s' i' j'.
Proof.
  revert a. induction ps as [|p ps IH]; intros a Hps; [done|]. simpl.
  rewrite IH by (intros; apply Hps; by right).
  apply body_other, Hps. by left.
Qed.

(** The cells of a pass: the loop over the places from [k] on stores the
    delays up to the first exception. *)
Lemma places_cell data1 data2 s j a k m i :
  (∀ i', i' < k + m → is_Some (get3 a s i' j)) →
  i < k + m →
  get3 (places data1 data2 s j (seq k m) a) s i j
  = if decide (i < k) then get3 a s i j
    else match mapM (delay_of data1 data2) (seq k (S i - k)) with
         | inr delays => Some (default NaN (last delays))
         | inl _ => get3 a s i j
         end.
Proof.
  revert a k. induction m as [|m IH]; intros a k Hdef Hi.
  - rewrite decide_True by lia. done.
  - cbn [seq places]. rewrite place_delay.
    destruct (Hdef k) as [old Hold]; [lia|].
    assert (∀ v i', i' < S k + m → is_Some (get3 (set3 a s k j v) s i' j)) as Hdef'.
    { intros v i' Hi'. rewrite get3_set3. case_decide.
      - rewrite Hold. by eexists.
      - apply Hdef. lia. }
    destruct (decide (i < k)) as [Hlt|Hge].
    + destruct (delay_of data1 data2 k) as [|v] eqn:Hv; [done|].
      cbn [mbind frames_bind]. unfold assign. rewrite Hold.
      rewrite IH; [|apply Hdef'|lia].
      rewrite decide_True by lia.
      rewrite get3_set3, decide_False; [done|lia].
    + replace (S i - k) with (S (i - k)) by lia. cbn [seq]. rewrite mapM_cons.
      destruct (delay_of data1 data2 k) as [|v] eqn:Hv; [done|].
      cbn [mbind frames_bind]. unfold assign. rewrite Hold.
      rewrite IH; [|apply Hdef'|lia].
      destruct (decide (i < S k)) as [Hik|Hik].
      * assert (i = k) as -> by lia. replace (k - k) with 0 by lia. cbn.
        rewrite get3_set3, decide_True, Hold by done. done.
      * replace (i - k) with (S (i - S k)) by lia.
        replace (S i - S k) with (S (i - S k)) by lia.
        destruct (mapM (delay_of data1 data2) (seq (S k) (S (i - S k))))
          as [|delays] eqn:Hm.
        -- cbn. rewrite get3_set3, decide_False; [done|lia].
        -- cbn. f_equal. destruct delays as [|d delays]; [|done].
           apply mapM_frames_length in Hm. simpl in Hm. done.
Qed.

Lemma get3_full_nan n m d s i j :
  s < n → i < m → j < d → get3 (full_nan n m d) s i j = Some NaN.
Proof.
  intros Hs Hi Hj. unfold get3, get2, full_nan.
  rewrite lookup_replicate_2 by done. simpl.
  rewrite lookup_replicate_2 by done. simpl.
  by rewrite lookup_replicate_2.
Qed.

Lemma body_cell read folder a s j nd i :
  (∀ i', i' < length place_types → get3 a s i' j = Some NaN) →
  i < length place_types →
  get3 (body read folder a (s, (j, nd))) s i j = Some (stored read folder s nd i).
Proof.
  intros Hnan Hi. unfold body, stored.
  destruct (read (upload_path folder s nd)) as [|data1]; [by apply Hnan|].
  destruct (read (download_path folder s nd)) as [|data2]; [by apply Hnan|].
  rewrite places_cell; [|intros i' Hi'; rewrite Hnan by done; by eexists|done].
  rewrite decide_False by lia. replace (S i - 0) with (S i) by lia.
  destruct (mapM (delay_of data1 data2) (seq 0 (S i))); [by apply Hnan|done].
Qed.

Lemma results_length read folder n devs : length (results read folder n devs) = n.
Proof.
  unfold results. rewrite foldl_body_length. unfold full_nan.
  by rewrite length_replicate.
Qed.

Lemma results_first_plane read folder n devs i j :
  0 < n → i < length place_types → j < length devs →
  get3 (results read folder n devs) 0 i j = Some NaN.
Proof.
  intros Hn Hi Hj. unfold results. rewrite foldl_body_other.
  - by apply get3_full_nan.
  - intros p Hp Hidx. apply elem_of_frame_positions in Hp as (s & j' & nd & -> & Hs & _).
    simpl in Hidx. injection Hidx as Hz _. lia.
Qed.

Lemma results_plane read folder n devs s i j nd :
  1 ≤ s < n → i < length place_types → devs !! j = Some nd →
  get3 (results read folder n devs) s i j = Some (stored read folder s nd i).
Proof.
  intros Hs Hi Hj. unfold results.
  destruct (frame_positions_split n devs s j nd) as (before & after & -> & Hnot);
    [lia|done|].
  rewrite foldl_app. cbn [foldl].
  rewrite foldl_body_other
    by (intros p Hp; apply Hnot, elem_of_app; by right).
  apply body_cell; [|done]. intros i' Hi'.
  rewrite foldl_body_other
    by (intros p Hp; apply Hnot, elem_of_app; by left).
  apply get3_full_nan; [lia|done|]. by eapply lookup_lt_Some.
Qed.

Lemma results_agree read read' folder n devs :
  (∀ s nd, 1 ≤ s < n →
     read' (upload_path folder s nd) = read (upload_path folder s nd) ∧
     read' (download_path folder s nd) = read (download_path folder s nd)) →
  results read' folder n devs = results read folder n devs.
Proof.
  intros Hagree. unfold results.
  apply (foldl_agree _ _ (fun a => length a = n)).
  - unfold full_nan. by rewrite length_replicate.
  - intros a p Ha Hp. split; [|by rewrite body_length].
    apply elem_of_frame_positions in Hp as (s & j & nd & -> & Hs & _).
    destruct (decide (s < n)) as [Hlt|Hge].
    + unfold body. destruct (Hagree s nd) as [-> ->]; [lia|]. done.
    + rewrite !body_outside by lia. done.
Qed.

Lemma nanmean_skips_nan xs : nanmean (NaN :: xs) = nanmean xs.
Proof. done. Qed.

Lemma nanmean_axis0_lookup m d a i j :
  i < m → j < d →
  get2 (nanmean_axis0 m d a) i j = Some (nanmean (cell_column a i j)).
Proof.
  intros Hi Hj. unfold get2, nanmean_axis0.
  rewrite list_lookup_fmap, lookup_seq_lt by done. simpl.
  rewrite list_lookup_fmap, lookup_seq_lt by done. done.
Qed.

(** X26.  plotApDelay.py stores the delays of the iteration [s], counted
    from 1, in the plane [s] of an array whose planes are numbered from 0.
    The plane 0 therefore stays NaN, the assignment of the last iteration
    raises IndexError and is swallowed, and what the logs of the last
    iteration hold has no effect on the table.  The plotted average of a
    place and a device count is the mean, NaN skipped, over the iterations
    before the last one; within a pass a place is stored when the two logs
    are read and no place before it fails. *)
Theorem ap_delay_ignores_the_last_iteration
    (read : reader) (folder : string) (n : nat) (device_counts : list Z) :
  let table := results read folder n device_counts in
  length table = n ∧
  (∀ i j, 0 < n → i < length place_types → j < length device_counts →
          get3 table 0 i j = Some NaN) ∧
  (∀ s i j nd, 1 ≤ s < n → i < length place_types → device_counts !! j = Some nd →
               get3 table s i j = Some (stored read folder s nd i)) ∧
  (∀ read' : reader,
     (∀ s nd, 1 ≤ s < n →
        read' (upload_path folder s nd) = read (upload_path folder s nd) ∧
        read' (download_path folder s nd) = read (download_path folder s nd)) →
     results read' folder n device_counts = table) ∧
  (∀ i j nd, i < length place_types → device_counts !! j = Some nd →
     get2 (avg_results read folder n device_counts) i j
     = Some (nanmean ((fun s => stored read folder s nd i) <$> seq 1 (n - 1)))).
Proof.
  intros table. split; [apply results_length|].
  split; [intros; by apply results_first_plane|].
  split; [intros; by apply results_plane|].
  split; [intros; by apply results_agree|].
  intros i j nd Hi Hj. unfold avg_results.
  rewrite nanmean_axis0_lookup by (done || by eapply lookup_lt_Some). f_equal.
  rewrite (cell_column_tabulate _ _ _
             (fun k => if decide (k = 0) then NaN else stored read folder k nd i)).
  - rewrite results_length. destruct n as [|n]; [done|].
    cbn [seq fmap list_fmap]. rewrite decide_True by done.
    rewrite nanmean_skips_nan. replace (S n - 1) with n by lia. f_equal.
    apply list_fmap_ext. intros k s Hk. apply lookup_seq in Hk as [-> _].
    by rewrite decide_False by lia.
  - intros k Hk. rewrite results_length in Hk. case_decide as Hz.
    + subst k. apply results_first_plane; [lia|done|by eapply lookup_lt_Some].
    + apply results_plane; [lia|done|done].
Qed.

(** X26 on two iterations and one device count: the logs of the second
    iteration are not looked at, those of the first give the plotted
    mean. *)
Lemma ap_delay_ignores_the_last_iteration_witness :
  get3 (results read_one_two_three "sim_results" 2 [100%Z]) 1 0 0
    = Some (stored read_one_two_three "sim_results" 1 100 0) ∧
  results
    (fun path =>
       if decide (path = upload_path "sim_results" 2 100) then inl FileNotFoundError
       else read_one_two_three path)
    "sim_results" 2 [100%Z]
  = results read_one_two_three "sim_results" 2 [100%Z].
Proof.
  pose proof (ap_delay_ignores_the_last_iteration read_one_two_three "sim_results"
                2 [100%Z]) as (_ & _ & Hplane & Hagree & _).
  split.
  - apply Hplane; [lia|simpl; lia|reflexivity].
  - apply Hagree. intros s nd Hs. assert (s = 1) as -> by lia.
    split; [|reflexivity]. rewrite decide_False; [reflexivity|].
    unfold upload_path, log_path, path_join. simpl. intros Heq.
    injection Heq as Heq. discriminate Heq.
Defined.

End PlotApDelayFacts.

(** ** plotLocation.py *)

Module PlotLocationFacts.

Import Frames PlotLocation FramesFacts DblFacts PlotGenericLineFacts.
Import PlotGenericLine (get2).

Lemma fmap_zip_with_replicate (row : list dbl) (v : dbl) k :
  length row = k →
  (fun x => dadd x v) <$> row = zip_with dadd row (replicate k v).
Proof.
  intros <-. induction row as [|x row IH]; [done|]. simpl. f_equal. exact IH.
Qed.

Lemma broadcast_length values out :
  broadcast values = inr out → length out = place_count.
Proof.
  unfold broadcast. case_decide as Hlen; [by intros [= <-]|].
  destruct values as [|v [|? ?]]; [done| |done].
  intros [= <-]. reflexivity.
Qed.

Lemma added_length read folder s nd : length (added read folder s nd) = place_count.
Proof.
  unfold added, attempt.
  destruct (read (file_path folder s nd)) as [|data]; [reflexivity|].
  cbn [mbind frames_bind].
  destruct (column_means data) as [|values]; [reflexivity|].
  cbn [mbind frames_bind].
  destruct (broadcast values) eqn:Hb; [reflexivity|].
  by eapply broadcast_length.
Qed.

Lemma add_values_broadcast row values :
  length row = place_count →
  add_values row values = (vs ← broadcast values; inr (zip_with dadd row vs)).
Proof.
  intros Hrow. unfold add_values, broadcast. rewrite Hrow.
  case_decide; [done|]. destruct values as [|v [|? ?]]; [done| |done].
  cbn [mbind frames_bind]. f_equal. by apply fmap_zip_with_replicate.
Qed.

Ltac finish_row Hrow :=
  cbn [table]; unfold add_to_row; rewrite list_lookup_alter_eq, Hrow;
  cbn [fmap option_fmap option_map]; f_equal;
  first [reflexivity | by apply fmap_zip_with_replicate].

(** A pass adds to the row of its device count, and to no other row. *)
Lemma body_row read folder st s i nd row :
  table st !! i = Some row → length row = place_count →
  table (body read folder st (s, (i, nd))) !! i
  = Some (zip_with dadd row (added read folder s nd)).
Proof.
  intros Hrow Hlen. unfold body, added, attempt. rewrite Hrow. cbn [default].
  destruct (read (file_path folder s nd)) as [[|class]|data]; cbn [mbind frames_bind].
  - finish_row Hrow.
  - finish_row Hrow.
  - destruct (column_means data) as [[|class]|values]; cbn [mbind frames_bind].
    + finish_row Hrow.
    + finish_row Hrow.
    + rewrite add_values_broadcast by done.
      destruct (broadcast values) as [[|class]|vs]; cbn [mbind frames_bind];
        finish_row Hrow.
Qed.

Lemma body_row_other read folder st p i' :
  p.2.1 ≠ i' → table (body read folder st p) !! i' = table st !! i'.
Proof.
  destruct p as [s [i nd]]. cbn [fst snd]. intros Hne. unfold body.
  destruct (_ ≫= _) as [[|class]|row']; cbn [table]; unfold add_to_row;
    by rewrite list_lookup_alter_ne.
Qed.

Lemma foldl_body_row_other read folder ps st i' :
  (∀ p, p ∈ ps → p.2.1 ≠ i') →
  table (foldl (body read folder) st ps) !! i' = table st !! i'.
Proof.
  revert st. induction ps as [|p ps IH]; intros st Hps; [done|]. simpl.
  rewrite IH by (intros; apply Hps; by right).
  apply body_row_other, Hps. by left.
Qed.

(** The row of a device count after the passes of the iterations in [l]. *)
Lemma foldl_body_row read folder devs i nd (l : list nat) st row :
  devs !! i = Some nd →
  table st !! i = Some row → length row = place_count →
  table (foldl (body read folder) st (s ← l; dv ← enumerate devs; [(s, dv)])) !! i
  = Some (foldl (fun row s => zip_with dadd row (added read folder s nd)) row l).
Proof.
  intros Hnd. revert st row. induction l as [|s l IH]; intros st row Hrow Hlen; [done|].
  rewrite bind_cons, foldl_app. cbn [foldl]. apply IH.
  - assert ((i, nd) ∈ enumerate devs) as Hin by by apply elem_of_enumerate.
    apply list_elem_of_split in Hin as (before & after & Heq).
    pose proof (NoDup_enumerate devs) as Hnd'. rewrite Heq in Hnd'.
    apply NoDup_app in Hnd' as (_ & Hdisj & Hnd'').
    apply NoDup_cons in Hnd'' as [Hnot _].
    assert (∀ dv, dv ∈ before ++ after → dv.1 ≠ i) as Hother.
    { intros [j nd'] Hdv Hj. simpl in Hj. subst j.
      assert ((i, nd') ∈ enumerate devs) as Hin'.
      { rewrite Heq. apply elem_of_app in Hdv as [?|?]; apply elem_of_app;
          [by left|right; by right]. }
      apply elem_of_enumerate in Hin'. assert (nd' = nd) as -> by congruence.
      apply elem_of_app in Hdv as [Hdv|Hdv]; [|done].
      apply (Hdisj _ Hdv). by left. }
    rewrite Heq, bind_app, bind_cons, foldl_app. cbn [app foldl].
    rewrite foldl_body_row_other.
    + apply body_row; [|done]. rewrite foldl_body_row_other; [done|].
      intros p Hp. apply list_elem_of_bind in Hp as (dv & Hp & Hdv).
      apply list_elem_of_singleton in Hp. subst p. cbn [fst snd].
      apply Hother, elem_of_app. by left.
    + intros p Hp. apply list_elem_of_bind in Hp as (dv & Hp & Hdv).
      apply list_elem_of_singleton in Hp. subst p. cbn [fst snd].
      apply Hother, elem_of_app. by right.
  - rewrite length_zip_with, added_length. lia.
Qed.

Lemma sums_row read folder n devs i nd :
  devs !! i = Some nd →
  table (sums read folder n devs) !! i
  = Some (foldl (fun row s => zip_with dadd row (added read folder s nd))
            (replicate place_count (Fin 0)) (seq 1 n)).
Proof.
  intros Hnd. unfold sums, positions.
  apply (foldl_body_row read folder devs i nd); [done| |by rewrite length_replicate].
  cbn [table]. apply lookup_replicate_2. by eapply lookup_lt_Some.
Qed.

(** The entries of a row that is added to place by place. *)
Lemma foldl_zip_with_lookup (f : nat → list dbl) (l : list nat) (row : list dbl) p x :
  (∀ s, length (f s) = length row) →
  row !! p = Some x →
  foldl (fun row s => zip_with dadd row (f s)) row l !! p
  = Some (foldl dadd x ((fun s => default NaN (f s !! p)) <$> l)).
Proof.
  intros Hlen. revert row x Hlen. induction l as [|s l IH]; intros row x Hlen Hx; [done|].
  cbn [foldl fmap list_fmap]. apply IH.
  - intros s'. rewrite length_zip_with, !Hlen. lia.
  - rewrite lookup_zip_with, Hx. simpl.
    destruct (lookup_lt_is_Some_2 (f s) p) as [y Hy].
    { rewrite Hlen. by eapply lookup_lt_Some. }
    by rewrite Hy.
Qed.

Lemma foldl_dadd_nan l : foldl dadd NaN l = NaN.
Proof. induction l as [|x l IH]; [done|]. done. Qed.

Lemma foldl_dadd_poisoned x l : NaN ∈ l → foldl dadd x l = NaN.
Proof.
  revert x. induction l as [|y l IH]; intros x Hin; [by apply elem_of_nil in Hin|].
  apply elem_of_cons in Hin as [<-|Hin]; simpl.
  - destruct x; apply foldl_dadd_nan.
  - by apply IH.
Qed.

Lemma foldl_dadd_fin (x : R) (l : list R) :
  foldl dadd (Fin x) (Fin <$> l) = Fin (x + Rsum l).
Proof.
  revert x. induction l as [|y l IH]; intros x; simpl.
  - f_equal. unfold Rsum. simpl. lra.
  - change (dadd (Fin x) (Fin y)) with (Fin (x + y)). rewrite IH. f_equal.
    unfold Rsum. simpl. lra.
Qed.

Lemma results_entry read folder n devs i nd p :
  devs !! i = Some nd → p < place_count →
  get2 (results read folder n devs) i p
  = Some (ddiv (foldl dadd (Fin 0)
                  ((fun s => default NaN (added read folder s nd !! p)) <$> seq 1 n))
            (Fin (INR n))).
Proof.
  intros Hnd Hp. unfold get2, results.
  rewrite list_lookup_fmap, (sums_row _ _ _ _ _ nd) by done.
  cbn [fmap option_fmap option_map mbind option_bind].
  rewrite list_lookup_fmap.
  rewrite (foldl_zip_with_lookup _ _ _ p (Fin 0)).
  - done.
  - intros s. by rewrite added_length, length_replicate.
  - by apply lookup_replicate_2.
Qed.

(** X27.  An entry of the heat map is the sum, over the iterations in order,
    of what each pass adds for that place, divided by the number of
    iterations: the mean of the column means when every log is read.  The
    divisor counts every iteration, also those whose log is missing. *)
Theorem heat_map_entry_is_the_mean_of_the_column_means
    (read : reader) (folder : string) (n : nat) (device_counts : list Z)
    (i : nat) (num_devices : Z) (p : nat) :
  device_counts !! i = Some num_devices → p < place_count →
  let terms := (fun s => default NaN (added read folder s num_devices !! p))
               <$> seq 1 n in
  get2 (results read folder n device_counts) i p
    = Some (ddiv (foldl dadd (Fin 0) terms) (Fin (INR n))) ∧
  (∀ means : list R,
     0 < n → terms = Fin <$> means →
     get2 (results read folder n device_counts) i p
     = Some (Fin (Rsum means / INR n))).
Proof.
  intros Hnd Hp terms. split; [by apply results_entry|].
  intros means Hn Hmeans. rewrite (results_entry _ _ _ _ _ num_devices) by done.
  fold terms. rewrite Hmeans, foldl_dadd_fin. unfold ddiv.
  destruct (Req_dec_T (INR n) 0) as [Hz|_].
  - exfalso. apply (not_0_INR n); [lia|done].
  - do 2 f_equal. lra.
Qed.

(** X27 on two iterations of logs that hold 7 for every place. *)
Lemma heat_map_entry_is_the_mean_of_the_column_means_witness :
  get2 (results read_sevens "sim_results" 2 [100%Z]) 0 3
  = Some (Fin (Rsum [7; 7]%R / INR 2)).
Proof.
  apply (proj2 (heat_map_entry_is_the_mean_of_the_column_means read_sevens
                  "sim_results" 2 [100%Z] 0 100 3 eq_refl ltac:(unfold place_count; lia))
           [7; 7]%R); [lia|].
  cbv -[Rplus Rdiv Rmult Rinv INR IZR Rminus Ropp Req_dec_T Rlt_dec].
  assert ((7 + 0) / INR 1 = 7)%R as -> by (simpl; lra). reflexivity.
Defined.

Lemma foldl_zip_with_length (f : nat → list dbl) (l : list nat) (row : list dbl) :
  (∀ s, length (f s) = length row) →
  length (foldl (fun row s => zip_with dadd row (f s)) row l) = length row.
Proof.
  revert row. induction l as [|s l IH]; intros row Hlen; [done|]. cbn [foldl].
  rewrite IH; rewrite length_zip_with, ?Hlen; [lia|].
  intros s'. rewrite Hlen. lia.
Qed.

Lemma foldl_ext_rows (f g : nat → list dbl) (l : list nat) (row : list dbl) :
  (∀ s, f s = g s) →
  foldl (fun row s => zip_with dadd row (f s)) row l
  = foldl (fun row s => zip_with dadd row (g s)) row l.
Proof.
  intros Hfg. revert row. induction l as [|s l IH]; intros row; [done|].
  cbn [foldl]. by rewrite Hfg, IH.
Qed.

Lemma poisoned_row read folder n nd s e :
  1 ≤ s ≤ n → attempt read folder s nd = inl e →
  foldl (fun row s => zip_with dadd row (added read folder s nd))
    (replicate place_count (Fin 0)) (seq 1 n)
  = replicate place_count NaN.
Proof.
  intros Hs He. apply list_eq. intros p.
  destruct (decide (p < place_count)) as [Hp|Hp].
  - rewrite (foldl_zip_with_lookup _ _ _ p (Fin 0));
      [|intros s'; by rewrite added_length, length_replicate
       |by apply lookup_replicate_2].
    rewrite lookup_replicate_2 by done. f_equal. apply foldl_dadd_poisoned.
    apply list_elem_of_fmap. exists s. split; [|apply elem_of_seq; lia].
    unfold added. rewrite He. by rewrite lookup_replicate_2.
  - rewrite !lookup_ge_None_2; [done|rewrite length_replicate; lia|].
    rewrite foldl_zip_with_length; [rewrite length_replicate; lia|].
    intros s'. by rewrite added_length, length_replicate.
Qed.

(** X28.  When the [try] block of one iteration fails for a device count, by
    a missing log or by any other exception, the handler adds NaN to the row
    of that device count: every entry of the row is NaN in the final table,
    whatever the other iterations hold, and the rows of the other device
    counts are as they are without the failure. *)
Theorem one_failed_log_blanks_the_row
    (read : reader) (folder : string) (n : nat) (device_counts : list Z)
    (i : nat) (num_devices : Z) (s : nat) (e : exn) :
  device_counts !! i = Some num_devices → 1 ≤ s ≤ n →
  attempt read folder s num_devices = inl e →
  results read folder n device_counts !! i = Some (replicate place_count NaN) ∧
  (∀ read' : reader,
     (∀ s' nd, nd ≠ num_devices →
        read' (file_path folder s' nd) = read (file_path folder s' nd)) →
     ∀ i' nd', device_counts !! i' = Some nd' → nd' ≠ num_devices →
       results read' folder n device_counts !! i'
       = results read folder n device_counts !! i').
Proof.
  intros Hnd Hs He. split.
  - unfold results. rewrite list_lookup_fmap, (sums_row _ _ _ _ _ num_devices) by done.
    rewrite (poisoned_row _ _ _ _ s e) by done.
    reflexivity.
  - intros read' Hagree i' nd' Hi' Hne. unfold results.
    rewrite !list_lookup_fmap, !(sums_row _ _ _ _ _ nd') by done.
    do 2 f_equal. apply foldl_ext_rows. intros s'.
    unfold added, attempt. by rewrite Hagree.
Qed.

(** X28 on three iterations with the log of the second one missing. *)
Lemma one_failed_log_blanks_the_row_witness :
  results read_sevens_but_one "sim_results" 3 [100%Z] !! 0
  = Some (replicate place_count NaN).
Proof.
  apply (one_failed_log_blanks_the_row read_sevens_but_one "sim_results" 3 [100%Z]
           0 100 2 FileNotFoundError eq_refl); [lia|].
  reflexivity.
Defined.

End PlotLocationFacts.

(** ** plotDelayReasonAsBar.py *)

Module PlotDelayReasonAsBarFacts.

Import Frames PlotDelayReasonAsBar FramesFacts DblFacts PlotGenericLineFacts.

Lemma set_second_first t s j v1 v2 :
  set_second (set_first t s j v1) s j v2 = set_both t s j (v1, v2).
Proof.
  unfold set_second, set_first, set_both, table.
  rewrite list_alter_alter_eq. apply list_alter_ext; [|done]. intros row _.
  cbn [compose]. rewrite list_alter_alter_eq. by apply list_alter_ext.
Qed.

Lemma set_both_first t s j v1 v :
  set_both (set_first t s j v1) s j v = set_both t s j v.
Proof.
  unfold set_first, set_both, table.
  rewrite list_alter_alter_eq. apply list_alter_ext; [|done]. intros row _.
  cbn [compose]. rewrite list_alter_alter_eq. by apply list_alter_ext.
Qed.

Section Versions.

Variable py_float : string → option dbl.

Lemma tutorial3_body read folder is_edge t p :
  Tutorial3.body py_float read folder is_edge t p
  = store_pair py_float (Tutorial3.file_path folder) read is_edge t p.
Proof.
  destruct p as [s [j nd]]. unfold Tutorial3.body, store_pair, pair_of. cbn [fst snd].
  destruct (read (Tutorial3.file_path folder s nd)) as [|data]; [done|].
  cbn [mbind frames_bind].
  destruct (pick is_edge data) as [|[value1 value2]]; [done|].
  cbn [mbind frames_bind fst snd].
  destruct (to_float py_float value1) as [e1|x1]; cbn [mbind frames_bind]; [done|].
  destruct (to_float py_float value2) as [e2|x2]; done.
Qed.

Lemma tutorial1_body read folder is_edge st p :
  Tutorial1.all_results (Tutorial1.body py_float read folder is_edge st p)
  = store_pair py_float (Tutorial1.file_path folder) read is_edge
      (Tutorial1.all_results st) p.
Proof.
  destruct p as [s [j nd]]. unfold Tutorial1.body, store_pair, pair_of. cbn [fst snd].
  destruct (read (Tutorial1.file_path folder s nd)) as [[|class]|data]; [done|done|].
  cbn [mbind frames_bind].
  destruct (pick is_edge data) as [[|class]|[value1 value2]]; [done|done|].
  destruct (to_float py_float value1) as [|x1]; [done|].
  destruct (to_float py_float value2) as [|x2]; cbn [Tutorial1.all_results].
  - apply set_both_first.
  - apply set_second_first.
Qed.

Lemma tutorial3_loop read folder is_edge t ps :
  foldl (Tutorial3.body py_float read folder is_edge) t ps
  = foldl (store_pair py_float (Tutorial3.file_path folder) read is_edge) t ps.
Proof.
  revert t. induction ps as [|p ps IH]; intros t; [done|]. cbn [foldl].
  by rewrite tutorial3_body, IH.
Qed.

Lemma tutorial1_loop read folder is_edge st ps :
  Tutorial1.all_results (foldl (Tutorial1.body py_float read folder is_edge) st ps)
  = foldl (store_pair py_float (Tutorial1.file_path folder) read is_edge)
      (Tutorial1.all_results st) ps.
Proof.
  revert st. induction ps as [|p ps IH]; intros st; [done|]. cbn [foldl].
  by rewrite IH, tutorial1_body.
Qed.

End Versions.

Lemma get_set_both t s j v s' j' :
  get (set_both t s j v) s' j' =
  if decide (s = s' ∧ j = j') then get t s j ≫= (fun _ => Some v) else get t s' j'.
Proof.
  unfold get, set_both, table in *. rewrite list_lookup_alter.
  destruct (decide (s = s')) as [<-|Hs].
  - destruct (t !! s) as [row|]; cbn [fmap option_fmap option_map mbind option_bind].
    + rewrite list_lookup_alter. destruct (decide (j = j')) as [<-|Hj].
      * rewrite decide_True by done. by destruct (row !! j).
      * rewrite decide_False by tauto. done.
    + by case_decide.
  - rewrite decide_False by tauto. done.
Qed.

Lemma get_zeros n d s j : s < n → j < d → get (zeros n d) s j = Some (Fin 0, Fin 0).
Proof.
  intros Hs Hj. unfold get, zeros, table. rewrite lookup_replicate_2 by done.
  cbn [mbind option_bind]. by rewrite lookup_replicate_2.
Qed.

Section Loop.

Variable py_float : string → option dbl.
Variable path_of : nat → Z → string.
Variable read : reader.
Variable is_edge : bool.

Lemma foldl_store_other ps t s' j' :
  (∀ p, p ∈ ps → (p.1 - 1, p.2.1) ≠ (s', j')) →
  get (foldl (store_pair py_float path_of read is_edge) t ps) s' j' = get t s' j'.
Proof.
  revert t. induction ps as [|p ps IH]; intros t Hps; [done|]. cbn [foldl].
  rewrite IH by (intros; apply Hps; by right).
  unfold store_pair. rewrite get_set_both, decide_False; [done|].
  intros [H1 H2]. apply (Hps p); [by left|]. by rewrite H1, H2.
Qed.

Lemma foldl_store_length ps t :
  length (foldl (store_pair py_float path_of read is_edge) t ps) = length t.
Proof.
  revert t. induction ps as [|p ps IH]; intros t; [done|]. cbn [foldl].
  rewrite IH. unfold store_pair, set_both, table. by rewrite length_alter.
Qed.

Lemma loop_cell n devs s j nd :
  1 ≤ s ≤ n → devs !! j = Some nd →
  get (foldl (store_pair py_float path_of read is_edge) (zeros n (length devs))
         (positions n devs)) (s - 1) j
  = Some (pair_of py_float is_edge (read (path_of s nd))).
Proof.
  intros Hs Hj.
  destruct (frame_positions_split n devs s j nd) as (before & after & Heq & Hnot);
    [done..|].
  assert (∀ p, p ∈ before ++ after → (p.1 - 1, p.2.1) ≠ (s - 1, j)) as Hother.
  { intros p Hp Hidx. apply (Hnot p Hp).
    assert (p ∈ positions n devs) as Hin.
    { rewrite Heq. apply elem_of_app in Hp as [?|?]; apply elem_of_app;
        [by left|right; by right]. }
    apply elem_of_frame_positions in Hin as (s' & j' & nd' & -> & Hs' & _).
    cbn [fst snd] in *. injection Hidx as H1 H2. f_equal; [lia|done]. }
  rewrite Heq, foldl_app. cbn [foldl].
  rewrite foldl_store_other by (intros p Hp; apply Hother, elem_of_app; by right).
  unfold store_pair at 1. cbn [fst snd]. rewrite get_set_both, decide_True by done.
  rewrite foldl_store_other by (intros p Hp; apply Hother, elem_of_app; by left).
  rewrite get_zeros; [done|lia|by eapply lookup_lt_Some].
Qed.

Lemma omap_tabulate {A B} (f : A → option B) (l : list A) (g : nat → B) :
  (∀ k x, l !! k = Some x → f x = Some (g k)) →
  omap f l = g <$> seq 0 (length l).
Proof.
  revert g. induction l as [|x l IH]; intros g Hg; [done|].
  cbn [omap list_omap length seq fmap list_fmap].
  rewrite (Hg 0 x) by done. f_equal.
  rewrite <- fmap_S_seq, <- list_fmap_compose.
  apply (IH (g ∘ S)). intros k y Hk. by apply (Hg (S k)).
Qed.

Lemma loop_mean n devs j nd :
  devs !! j = Some nd →
  nanmean_pairs (length devs)
    (foldl (store_pair py_float path_of read is_edge) (zeros n (length devs))
       (positions n devs)) !! j
  = Some (nanmean ((fun s => (pair_of py_float is_edge (read (path_of s nd))).1) <$> seq 1 n),
          nanmean ((fun s => (pair_of py_float is_edge (read (path_of s nd))).2) <$> seq 1 n)).
Proof.
  intros Hj. unfold nanmean_pairs.
  rewrite list_lookup_fmap, lookup_seq_lt by (by eapply lookup_lt_Some).
  cbn [fmap option_fmap option_map plus]. f_equal.
  set (t := foldl _ _ _).
  assert (omap (fun plane : list (dbl * dbl) => plane !! j) t
          = (fun s => pair_of py_float is_edge (read (path_of s nd))) <$> seq 1 n) as ->.
  { rewrite (omap_tabulate _ _ (fun k => pair_of py_float is_edge (read (path_of (S k) nd)))).
    - unfold t. rewrite foldl_store_length. unfold zeros. rewrite length_replicate.
      rewrite <- fmap_S_seq, <- list_fmap_compose. done.
    - intros k plane Hk.
      assert (k < n) as Hkn.
      { apply lookup_lt_Some in Hk. unfold t in Hk.
        rewrite foldl_store_length in Hk. unfold zeros in Hk.
        by rewrite length_replicate in Hk. }
      pose proof (loop_cell n devs (S k) j nd ltac:(lia) Hj) as Hcell.
      fold t in Hcell. unfold get in Hcell.
      replace (S k - 1) with k in Hcell by lia. unfold table in *.
      rewrite Hk in Hcell. exact Hcell. }
  by rewrite <- !list_fmap_compose.
Qed.

End Loop.

(** X29.  In both versions of plotDelayReasonAsBar.py a pass stores, at its
    iteration and device count, either the two fields of its log as numbers
    or NaN twice: NaN twice when the log cannot be read, when one of the two
    positions is outside the block read, or when one of the two fields is
    text that [float] rejects; text that [float] accepts is stored as the
    number it makes of it.  In tutorial 1 the first entry is assigned before
    the second field is converted, and the handler overwrites it.  Each
    plotted value is the mean, NaN skipped, of the entries of its device
    count over the iterations, and the two versions compute the same table
    from logs with the same contents. *)
Theorem delay_reason_stores_both_fields_or_none
    (py_float : string → option dbl) (read : reader) (folder : string)
    (is_edge : bool) (n : nat) (device_counts : list Z) :
  (∀ s j nd, 1 ≤ s ≤ n → device_counts !! j = Some nd →
     get (Tutorial1.all_results
            (Tutorial1.read_loop py_float read folder is_edge n device_counts))
       (s - 1) j
       = Some (pair_of py_float is_edge (read (Tutorial1.file_path folder s nd))) ∧
     get (Tutorial3.read_loop py_float read folder is_edge n device_counts) (s - 1) j
       = Some (pair_of py_float is_edge (read (Tutorial3.file_path folder s nd)))) ∧
  (∀ outcome,
     (∀ data value1 value2 x1 x2,
        outcome = inr data → pick is_edge data = inr (value1, value2) →
        (value1 = FNum x1 ∨ ∃ text, value1 = FText text ∧ py_float text = Some x1) →
        (value2 = FNum x2 ∨ ∃ text, value2 = FText text ∧ py_float text = Some x2) →
        pair_of py_float is_edge outcome = (x1, x2)) ∧
     (∀ data value1 value2 text,
        outcome = inr data → pick is_edge data = inr (value1, value2) →
        (value1 = FText text ∨ value2 = FText text) → py_float text = None →
        pair_of py_float is_edge outcome = (NaN, NaN)) ∧
     (∀ data e, outcome = inr data → pick is_edge data = inl e →
        pair_of py_float is_edge outcome = (NaN, NaN)) ∧
     (∀ e, outcome = inl e → pair_of py_float is_edge outcome = (NaN, NaN))) ∧
  (∀ j nd, device_counts !! j = Some nd →
     Tutorial1.results py_float read folder is_edge n device_counts !! j
     = Some (nanmean ((fun s => (pair_of py_float is_edge
                                   (read (Tutorial1.file_path folder s nd))).1)
                      <$> seq 1 n),
             nanmean ((fun s => (pair_of py_float is_edge
                                   (read (Tutorial1.file_path folder s nd))).2)
                      <$> seq 1 n))) ∧
  (∀ read3 : reader,
     (∀ s nd, read3 (Tutorial3.file_path folder s nd)
              = read (Tutorial1.file_path folder s nd)) →
     Tutorial3.results py_float read3 folder is_edge n device_counts
     = Tutorial1.results py_float read folder is_edge n device_counts).
Proof.
  split; [|split; [|split]].
  - intros s j nd Hs Hj. split.
    + unfold Tutorial1.read_loop. rewrite tutorial1_loop. by apply loop_cell.
    + unfold Tutorial3.read_loop. rewrite tutorial3_loop. by apply loop_cell.
  - intros outcome. unfold pair_of. split; [|split; [|split]].
    + intros data value1 value2 x1 x2 -> -> H1 H2.
      assert (to_float py_float value1 = inr x1) as ->.
      { destruct H1 as [->|(text & -> & Ht)]; [done|]. cbn [to_float]. by rewrite Ht. }
      assert (to_float py_float value2 = inr x2) as ->.
      { destruct H2 as [->|(text & -> & Ht)]; [done|]. cbn [to_float]. by rewrite Ht. }
      done.
    + intros data value1 value2 text -> -> [-> | ->] Ht; cbn [to_float]; rewrite Ht.
      * done.
      * by destruct (to_float py_float value1).
    + by intros data e -> ->.
    + by intros e ->.
  - intros j nd Hj. unfold Tutorial1.results, Tutorial1.read_loop.
    rewrite tutorial1_loop. by apply loop_mean.
  - intros read3 Hsame.
    unfold Tutorial3.results, Tutorial1.results, Tutorial3.read_loop,
      Tutorial1.read_loop.
    rewrite tutorial1_loop, tutorial3_loop. f_equal. cbn [Tutorial1.all_results].
    generalize (zeros n (length device_counts)).
    induction (positions n device_counts) as [|p ps IH]; intros t; [done|].
    cbn [foldl]. rewrite IH. f_equal. unfold store_pair. by rewrite Hsame.
Qed.

(** X29 on one iteration of the sample block: the edge processing time 3
    and the text 1_000 are stored as 3 and 1000; when [float] rejects the
    text, NaN is stored twice. *)
Lemma delay_reason_stores_both_fields_or_none_witness :
  get (Tutorial1.all_results
         (Tutorial1.read_loop float_of_sample read_block "sim_results" true 1 [100%Z]))
    (1 - 1) 0
  = Some (Fin 3, Fin 1000) ∧
  get (Tutorial3.read_loop (fun _ => None) read_block "sim_results" true 1 [100%Z])
    (1 - 1) 0
  = Some (NaN, NaN) ∧
  Tutorial3.results float_of_sample read_block "sim_results" true 1 [100%Z]
  = Tutorial1.results float_of_sample read_block "sim_results" true 1 [100%Z].
Proof.
  pose proof (delay_reason_stores_both_fields_or_none float_of_sample read_block
                "sim_results" true 1 [100%Z]) as (Hcell & _ & _ & Hsame).
  pose proof (delay_reason_stores_both_fields_or_none (fun _ => None) read_block
                "sim_results" true 1 [100%Z]) as (Hnone & _).
  split; [|split].
  - apply (Hcell 1 0 100%Z); [lia|reflexivity].
  - apply (Hnone 1 0 100%Z); [lia|reflexivity].
  - apply Hsame. reflexivity.
Defined.

End PlotDelayReasonAsBarFacts.
